(** * Enrollment dataset generator: a model of [dataset_generator.py]

    The script has two functions.  [generate_enrollment_data_v4] draws student
    identifiers and course numbers, enrols students, simulates withdrawals,
    writes one text file per course and a summary file.
    [generate_student_course_matrix_v4] reads those files back and writes a
    0/1 matrix.

    The model is a shallow embedding: Python integers are [Z], text is
    [string] (characters are code points below 256), binary64 floats are
    [spec_float] with the operations of [SpecFloat] at precision 53, the
    output directory is a finite map from file names to contents, and the
    pseudo random generator is a tape of raw draws that the functions of the
    [random] module consume. *)

From Stdlib Require Import ZArith QArith Qround Qpower String Ascii Decimal DecimalString DecimalZ
  SpecFloat Lqa.
From stdpp Require Import gmap strings list sorting.

Local Close Scope Q_scope.
Local Open Scope Z_scope.

(** ** Python text primitives *)

Module Py.

(** [str.isspace] on the code points below 256. *)
Definition is_space (c : ascii) : bool :=
  let n := N_of_ascii c in
  ((9 <=? n)%N && (n <=? 13)%N) || ((28 <=? n)%N && (n <=? 32)%N)
  || (n =? 133)%N || (n =? 160)%N.

Fixpoint lstrip (s : string) : string :=
  match s with
  | String c r => if is_space c then lstrip r else s
  | EmptyString => EmptyString
  end.

(** The string without its trailing white space. *)
Fixpoint rstrip (s : string) : string :=
  match s with
  | EmptyString => EmptyString
  | String c r =>
      match rstrip r with
      | EmptyString => if is_space c then EmptyString else String c EmptyString
      | r' => String c r'
      end
  end.

(** [s.strip()] *)
Definition strip (s : string) : string := lstrip (rstrip s).

(** [str(n)] and the f-string conversion [f"{n}"] of an integer. *)
Definition str (n : Z) : string := NilZero.string_of_int (Z.to_int n).

Definition is_digit (c : ascii) : bool :=
  let n := N_of_ascii c in (48 <=? n)%N && (n <=? 57)%N.

(** Digit groups of an integer literal: digits, with single underscores
    allowed between two digits.  The result is the digit string without the
    underscores. *)
Fixpoint digit_groups (prev_digit : bool) (s : string) : option string :=
  match s with
  | EmptyString => if prev_digit then Some EmptyString else None
  | String c r =>
      if is_digit c then String c <$> digit_groups true r
      else if (Ascii.eqb c "_" && prev_digit)%bool then
        match r with
        | String d _ => if is_digit d then digit_groups false r else None
        | EmptyString => None
        end
      else None
  end.

Definition int_of_digits (s : string) : option Z :=
  ds ← digit_groups false s;
  Z.of_uint <$> NilEmpty.uint_of_string ds.

(** [int(s)] for a string [s]: surrounding white space is dropped, one sign
    is allowed, the rest is a decimal literal.  [None] is [ValueError].
    (CPython's limit on the number of digits, 4300 by default, is beyond
    every file name and is not modelled.) *)
Definition int (s : string) : option Z :=
  match strip s with
  | String "+" r => int_of_digits r
  | String "-" r => Z.opp <$> int_of_digits r
  | r => int_of_digits r
  end.

(** [s.startswith(p)] and [s.endswith(p)] *)
Definition startswith (s p : string) : bool := String.prefix p s.

Definition endswith (s p : string) : bool :=
  (String.length p <=? String.length s)%nat
  && String.eqb (String.substring (String.length s - String.length p) (String.length p) s) p.

(** [s[a:-b]] for non-negative [a] and positive [b]. *)
Definition slice_mid (s : string) (a b : nat) : string :=
  String.substring a (String.length s - b - a) s.

(** [l[:stop]] with Python's reading of a negative [stop]. *)
Definition slice_to {A} (l : list A) (stop : Z) : list A :=
  if stop <? 0 then take (Z.to_nat (Z.of_nat (length l) + stop)) l
  else take (Z.to_nat stop) l.

(** [sep.join(l)] *)
Fixpoint join (sep : string) (l : list string) : string :=
  match l with
  | [] => EmptyString
  | [x] => x
  | x :: r => x +:+ sep +:+ join sep r
  end.

(** [s.split(",", 1)]: the text before the first comma and the text after
    it, or the whole string alone when it has no comma. *)
Fixpoint split_comma1 (s : string) : string * option string :=
  match s with
  | EmptyString => (EmptyString, None)
  | String c r =>
      if Ascii.eqb c "," then (EmptyString, Some r)
      else let '(a, b) := split_comma1 r in (String c a, b)
  end.

(** [s.split(",")] *)
Fixpoint split_commas_acc (cur : string) (s : string) : list string :=
  match s with
  | EmptyString => [String.rev cur]
  | String c r =>
      if Ascii.eqb c "," then String.rev cur :: split_commas_acc EmptyString r
      else split_commas_acc (String c cur) r
  end.

Definition split_commas (s : string) : list string := split_commas_acc EmptyString s.

(** The lines of a file opened in text mode, as iteration over the file
    yields them: ["\n"], ["\r\n"] and ["\r"] all end a line and are read as
    ["\n"]; a last line without terminator is yielded as it is. *)
Fixpoint lines_acc (cur : string) (s : string) : list string :=
  match s with
  | EmptyString => match cur with EmptyString => [] | _ => [String.rev cur] end
  | String c r =>
      if Ascii.eqb c "010" then String.rev (String "010" cur) :: lines_acc EmptyString r
      else if Ascii.eqb c "013" then
        match r with
        | String d r' =>
            if Ascii.eqb d "010" then String.rev (String "010" cur) :: lines_acc EmptyString r'
            else String.rev (String "010" cur) :: lines_acc EmptyString r
        | EmptyString => [String.rev (String "010" cur)]
        end
      else lines_acc (String c cur) r
  end.

Definition readlines (content : string) : list string := lines_acc EmptyString content.

(** [sorted] on integers and on strings (by code point, shorter first). *)
Definition sorted (l : list Z) : list Z := merge_sort Z.le l.

Definition sorted_str (l : list string) : list string := merge_sort String.le l.

End Py.


(** ** Binary64 floats *)

Module Float.

Definition prec : Z := 53.
Definition emax : Z := 1024.

Definition mul : spec_float → spec_float → spec_float := SFmul prec emax.
Definition add : spec_float → spec_float → spec_float := SFadd prec emax.
Definition sub : spec_float → spec_float → spec_float := SFsub prec emax.
Definition div : spec_float → spec_float → spec_float := SFdiv prec emax.

(** [float(n)] for an integer [n], rounded to nearest even. *)
Definition of_int (n : Z) : spec_float := binary_normalize prec emax n 0 false.

(** The float written [a/b] in decimal, as the literal [0.05] is 5/100. *)
Definition of_ratio (a b : Z) : spec_float := div (of_int a) (of_int b).

(** The integer part of a finite float, rounded towards zero. *)
Definition trunc (x : spec_float) : option Z :=
  match x with
  | S754_zero _ => Some 0
  | S754_finite s m e => Some (cond_Zopp s (Z.shiftl (Z.pos m) e))
  | S754_infinity _ | S754_nan => None
  end.

(** The rational a finite float denotes. *)
Definition to_Q (x : spec_float) : Q :=
  match x with
  | S754_finite s m e => (inject_Z (cond_Zopp s (Z.pos m)) * Qpower 2 e)%Q
  | _ => 0%Q
  end.

(** Sign bit clear: a float that is zero or above ([+0.0] included, [-0.0]
    and NaN excluded). *)
Definition nonneg (x : spec_float) : bool :=
  match x with
  | S754_zero s | S754_infinity s | S754_finite s _ _ => negb s
  | S754_nan => false
  end.

End Float.

(** ** Runs: random tape, output directory, standard output *)

Inductive exn :=
  | ValueError | FileNotFoundError | StopIteration | KeyError | IndexError | OverflowError.

(** How a run ends: with a value, with an uncaught exception, or [Starved]
    when the tape of random draws is used up before the run is over. *)
Inductive outcome (A : Type) :=
  | Ok (a : A)
  | Raise (e : exn)
  | Starved.
Arguments Ok {A} a.
Arguments Raise {A} e.
Arguments Starved {A}.

(** [dir] is the output directory: [None] when it does not exist, otherwise
    the files in it by name.  Names are plain file names: the model has no
    sub-directories, so it covers program names without a path separator. *)
Record world := World {
  tape : list Z;
  dir : option (gmap string string);
  stdout : list string
}.

Definition M (A : Type) : Type := world → outcome A * world.

Definition ret {A} (a : A) : M A := λ w, (Ok a, w).

Definition bind {A B} (m : M A) (f : A → M B) : M B := λ w,
  match m w with
  | (Ok a, w') => f a w'
  | (Raise e, w') => (Raise e, w')
  | (Starved, w') => (Starved, w')
  end.

Definition raise {A} (e : exn) : M A := λ w, (Raise e, w).

#[export] Instance M_ret : MRet M := @ret.
#[export] Instance M_bind : MBind M := λ A B f m, bind m f.

(** A value that may be a Python exception. *)
Definition try {A} (o : option A) (e : exn) : M A :=
  match o with Some a => ret a | None => raise e end.

(** [for x in xs: s = body(s, x)] *)
Fixpoint foldM {S A} (body : S → A → M S) (s : S) (xs : list A) : M S :=
  match xs with
  | [] => ret s
  | x :: r => s' ← body s x; foldM body s' r
  end.

(** A comprehension [[f(x) for x in xs]] is [mapM f xs]. *)

(** [for x in xs: body(x)] *)
Definition for_each {A} (xs : list A) (body : A → M unit) : M unit :=
  foldM (λ _ x, body x) tt xs.

(** *** The [random] module over the tape *)

Module Random.

Definition draw : M Z := λ w,
  match tape w with
  | [] => (Starved, w)
  | t :: r => (Ok t, World r (dir w) (stdout w))
  end.

(** [_randbelow(n)] for positive [n] *)
Definition randbelow (n : Z) : M Z := t ← draw; ret (t mod n).

(** [randint(a, b)] *)
Definition randint (a b : Z) : M Z :=
  if b <? a then raise ValueError
  else r ← randbelow (b - a + 1); ret (a + r).

(** [random()]: a multiple of 2^-53 in [0, 1) *)
Definition random : M spec_float :=
  k ← randbelow (2 ^ 53); ret (binary_normalize Float.prec Float.emax k (-53) false).

(** [uniform(a, b)], which is [a + (b - a) * random()] *)
Definition uniform (a b : spec_float) : M spec_float :=
  u ← random; ret (Float.add a (Float.mul (Float.sub b a) u)).

Definition swap {A} (x : list A) (i j : nat) : list A :=
  match x !! i, x !! j with
  | Some a, Some b => <[j:=a]> (<[i:=b]> x)
  | _, _ => x
  end.

(** [shuffle(x)]: for [i] from [len(x) - 1] down to 1, exchange [x[i]] with
    [x[j]] for a [j] drawn below [i + 1]. *)
Definition shuffle {A} (x : list A) : M (list A) :=
  foldM (λ x i, j ← randbelow (Z.of_nat i + 1); ret (swap x i (Z.to_nat j)))
        x (reverse (seq 1 (length x - 1))).

(** [sample(population, k)]: [k] picks at distinct positions, in the order
    they are drawn; each pick is taken out of the pool by moving the last
    pool element into its place. *)
Definition sample {A} (population : list A) (k : Z) : M (list A) :=
  let n := length population in
  if (k <? 0) || (Z.of_nat n <? k) then raise ValueError
  else
    '(_, result) ← foldM (λ '(pool, result) i,
        j ← randbelow (Z.of_nat (n - i));
        picked ← try (pool !! Z.to_nat j) IndexError;
        last ← try (pool !! (n - i - 1)%nat) IndexError;
        ret (<[Z.to_nat j := last]> pool, result ++ [picked]))
      (population, []) (seq 0 (Z.to_nat k));
    ret result.

End Random.

(** *** The output directory *)

Module Os.

(** [os.path.exists(output_dir)] *)
Definition path_exists : M bool := λ w, (Ok (bool_decide (is_Some (dir w))), w).

(** [os.makedirs(output_dir)] *)
Definition makedirs : M unit := λ w, (Ok tt, World (tape w) (Some ∅) (stdout w)).

(** [os.listdir(output_dir)]: the names, in no particular order. *)
Definition listdir : M (list string) := λ w,
  match dir w with
  | Some fs => (Ok (map_to_list fs).*1, w)
  | None => (Raise FileNotFoundError, w)
  end.

(** [open(path, "w")]: the file is created, or emptied when it exists. *)
Definition open_write (name : string) : M unit := λ w,
  match dir w with
  | Some fs => (Ok tt, World (tape w) (Some (<[name := EmptyString]> fs)) (stdout w))
  | None => (Raise FileNotFoundError, w)
  end.

(** [f.write(text)] on the file opened for writing under [name]. *)
Definition write (name text : string) : M unit := λ w,
  match dir w with
  | Some fs =>
      match fs !! name with
      | Some old => (Ok tt, World (tape w) (Some (<[name := old +:+ text]> fs)) (stdout w))
      | None => (Raise FileNotFoundError, w)
      end
  | None => (Raise FileNotFoundError, w)
  end.

(** The whole text of the file opened with [open(path, "r")]. *)
Definition read_text (name : string) : M string := λ w,
  match dir w with
  | Some fs =>
      match fs !! name with
      | Some text => (Ok text, w)
      | None => (Raise FileNotFoundError, w)
      end
  | None => (Raise FileNotFoundError, w)
  end.

Definition print (line : string) : M unit := λ w,
  (Ok tt, World (tape w) (dir w) (stdout w ++ [line])).

(** [os.path.join(a, b)] for a relative name [b], as used in messages. *)
Definition path_join (a b : string) : string :=
  if String.eqb a EmptyString then b
  else if Py.endswith a "/" then a +:+ b
  else a +:+ "/" +:+ b.

End Os.

(** ** The generator *)

Definition nl : string := String "010" EmptyString.

(** A [dict] with string keys, in insertion order. *)
Definition dict (V : Type) : Type := list (string * V).

(** [d[k] = v] *)
Fixpoint dict_set {V} (d : dict V) (k : string) (v : V) : dict V :=
  match d with
  | [] => [(k, v)]
  | (k', v') :: r => if String.eqb k' k then (k, v) :: r else (k', v') :: dict_set r k v
  end.

(** [d[k]] *)
Fixpoint dict_get {V} (d : dict V) (k : string) : option V :=
  match d with
  | [] => None
  | (k', v') :: r => if String.eqb k' k then Some v' else dict_get r k
  end.

(** [d[k].append(x)]; [KeyError] when [k] is not a key. *)
Definition dict_append {A} (d : dict (list A)) (k : string) (x : A) : M (dict (list A)) :=
  l ← try (dict_get d k) KeyError;
  mret (dict_set d k (l ++ [x])).

(** [range(n)] *)
Definition range (n : Z) : list Z := seqZ 0 n.

(** [enumerate(l)] *)
Definition enumerate {A} (l : list A) : list (nat * A) := zip (seq 0 (length l)) l.

(** The [while len(xs) < n] loops of steps 1 and 3: draw with
    [randint(lo, hi)] and keep the draw when it is new.  Every pass takes one
    draw from the tape, so the recursion is on the tape. *)
Fixpoint draw_distinct (lo hi n : Z) (xs : list Z) (tp : list Z) : outcome (list Z) * list Z :=
  if Z.of_nat (length xs) <? n then
    match tp with
    | [] => (Starved, [])
    | t :: tp' =>
        let new_id := lo + t mod (hi - lo + 1) in
        if bool_decide (new_id ∈ xs) then draw_distinct lo hi n xs tp'
        else draw_distinct lo hi n (xs ++ [new_id]) tp'
    end
  else (Ok xs, tp).

Definition distinct_randints (lo hi n : Z) : M (list Z) := λ w,
  let '(r, tp) := draw_distinct lo hi n [] (tape w) in
  (r, World tp (dir w) (stdout w)).

(** One course as step 6 leaves it. *)
Record withdrawal := Withdrawal {
  w_course : string;
  w_enrolled : list Z;
  w_rate : spec_float;
  w_count : Z;
  w_withdrawn : list Z;
  w_remaining : list Z
}.

(** The local variables of [generate_enrollment_data_v4] when it returns.
    (Python returns [None]; the model hands the locals back so that the
    statements below can speak about them.) *)
Record locals := Locals {
  student_ids : list Z;
  num_courses_taken : list Z;
  course_numbers : list Z;
  course_enrollments : dict (list Z);
  withdrawals : list withdrawal
}.

Definition summary_name : string := "student_courses_summary.txt".
Definition matrix_name : string := "student_course_matrix.csv".

(** The three reading lines shared by step 7 and by the matrix builder: the
    count on the first line, then every further line as an integer.  [None]
    is the [ValueError] of [int]. *)
Definition parse_course_text (text : string) : option (Z * list Z) :=
  let lines := Py.readlines text in
  num_withdrawals ← Py.int (Py.strip (hd EmptyString lines));
  all_students_in_file ← mapM (λ line, Py.int (Py.strip line)) (tail lines);
  Some (num_withdrawals, all_students_in_file).

Definition read_course_file (name : string) : M (Z * list Z) :=
  text ← Os.read_text name;
  try (parse_course_text text) ValueError.

(** The active segment: [all[:len(all) - num_withdrawals]] *)
Definition active_segment (num_withdrawals : Z) (all_students_in_file : list Z) : list Z :=
  Py.slice_to all_students_in_file (Z.of_nat (length all_students_in_file) - num_withdrawals).

(** [num_withdrawals = int(len(enrolled) * rate)] *)
Definition withdrawal_count (enrolled : nat) (rate : spec_float) : M Z :=
  match Float.mul (Float.of_int (Z.of_nat enrolled)) rate with
  | S754_nan => raise ValueError
  | S754_infinity _ => raise OverflowError
  | x => try (Float.trunc x) ValueError
  end.

(** Step 5, one student *)
Definition assign_student (program_name : string) (num_courses : Z)
    (num_courses_taken course_numbers : list Z)
    (course_enrollments : dict (list Z)) (i_student : nat * Z) : M (dict (list Z)) :=
  let '(i, student_id) := i_student in
  num_courses_for_student ← try (num_courses_taken !! i) IndexError;
  selected_course_indices ← Random.sample (range num_courses) num_courses_for_student;
  foldM (λ course_enrollments course_index,
      course_num ← try (course_numbers !! Z.to_nat course_index) IndexError;
      let course_name := program_name +:+ Py.str course_num in
      dict_append course_enrollments course_name student_id)
    course_enrollments selected_course_indices.

(** Step 6, one course *)
Definition withdraw_course (withdrawal_rate_range : spec_float * spec_float)
    (item : string * list Z) : M withdrawal :=
  let '(course_name, enrolled_students) := item in
  let filepath := course_name +:+ ".txt" in
  withdrawal_rate ← Random.uniform withdrawal_rate_range.1 withdrawal_rate_range.2;
  num_withdrawals ← withdrawal_count (length enrolled_students) withdrawal_rate;
  withdrawn_students ← Random.sample enrolled_students num_withdrawals;
  let remaining_students :=
    filter (λ sid, sid ∉ withdrawn_students) enrolled_students in
  Os.open_write filepath;;
  Os.write filepath (Py.str num_withdrawals +:+ nl);;
  for_each (Py.sorted remaining_students) (λ student_id,
    Os.write filepath (Py.str student_id +:+ nl));;
  for_each (Py.sorted withdrawn_students) (λ student_id,
    Os.write filepath (Py.str student_id +:+ nl));;
  mret (Withdrawal course_name enrolled_students withdrawal_rate num_withdrawals
          withdrawn_students remaining_students).

(** Step 7, one student *)
Definition summarise_student (course_enrollments : dict (list Z)) (student_id : Z) : M unit :=
  courses_taken ← foldM (λ courses_taken item,
      let course_name : string := item.1 in
      '(num_withdrawals, all_students_in_file) ← read_course_file (course_name +:+ ".txt");
      mret (if bool_decide (student_id ∈ active_segment num_withdrawals all_students_in_file)
            then courses_taken ++ [course_name] else courses_taken))
    [] course_enrollments;
  Os.write summary_name
    (Py.str student_id +:+ "," +:+ Py.join "," (Py.sorted_str courses_taken) +:+ nl).

Definition generate_enrollment_data_v4 (program_name : string) (num_courses num_students : Z)
    (courses_per_student_range : Z * Z) (withdrawal_rate_range : spec_float * spec_float)
    (output_dir : string) : M locals :=
  dir_exists ← Os.path_exists;
  (if negb dir_exists then Os.makedirs else mret tt);;
  (* 1. student IDs *)
  student_ids ← distinct_randints 10000000 99999999 num_students;
  student_ids ← Random.shuffle student_ids;
  (* 2. number of courses taken *)
  num_courses_taken ← mapM (λ _, Random.randint courses_per_student_range.1
                                                  courses_per_student_range.2)
                           (range num_students);
  (* 3. course numbers *)
  course_numbers ← distinct_randints 1000 9999 num_courses;
  let course_numbers := Py.sorted course_numbers in
  (* 4. empty enrollments *)
  let course_enrollments : dict (list Z) :=
    foldl (λ d course_num, dict_set d (program_name +:+ Py.str course_num) [])
          [] course_numbers in
  (* 5. assign students to courses *)
  course_enrollments ← foldM (assign_student program_name num_courses
                                 num_courses_taken course_numbers)
                             course_enrollments (enumerate student_ids);
  (* 6. withdrawals, course files *)
  withdrawals ← mapM (withdraw_course withdrawal_rate_range) course_enrollments;
  (* 7. summary *)
  Os.open_write summary_name;;
  Os.write summary_name ("StudentID,Courses" +:+ nl);;
  for_each student_ids (summarise_student course_enrollments);;
  Os.print ("Data generated and saved to: " +:+ output_dir);;
  mret (Locals student_ids num_courses_taken course_numbers course_enrollments withdrawals).

(** ** The matrix builder *)

(** Lines 95 to 99: the names that start with the program name and end with
    [.txt], cut to what lies between, read as integers, sorted. *)
Definition discover_courses (program_name : string) : M (list Z) :=
  filenames ← Os.listdir;
  let course_numbers :=
    (λ filename, Py.slice_mid filename (String.length program_name) 4) <$>
    filter (λ filename, Py.startswith filename program_name && Py.endswith filename ".txt")
           filenames in
  course_numbers ← mapM (λ c, try (Py.int c) ValueError) course_numbers;
  mret (Py.sorted course_numbers).

(** Lines 102 to 109: the student IDs of the summary, sorted. *)
Definition read_summary_ids : M (list Z) :=
  text ← Os.read_text summary_name;
  match Py.readlines text with
  | [] => raise StopIteration
  | _ :: lines =>
      student_ids ← mapM (λ line : string,
          match Py.split_comma1 (Py.strip line) with
          | (student_id, Some _) => try (Py.int student_id) ValueError
          | (_, None) => raise ValueError
          end) lines;
      mret (Py.sorted student_ids)
  end.

(** One cell of the matrix *)
Definition matrix_cell (program_name : string) (student_id course_num : Z) : M string :=
  '(num_withdrawals, all_students_in_file) ←
    read_course_file (program_name +:+ Py.str course_num +:+ ".txt");
  let remaining_students := active_segment num_withdrawals all_students_in_file in
  mret (if bool_decide (student_id ∈ remaining_students) then "1" else "0")%string.

Definition generate_student_course_matrix_v4 (program_name : string) (num_courses : Z)
    (output_dir : string) : M unit :=
  dir_exists ← Os.path_exists;
  if negb dir_exists then
    Os.print ("Error: Directory '" +:+ output_dir
              +:+ "' not found. Run generate_enrollment_data_v4 first.")
  else
    course_numbers ← discover_courses program_name;
    student_ids ← read_summary_ids;
    Os.open_write matrix_name;;
    let header := "StudentID," +:+
      Py.join "," ((λ c, program_name +:+ Py.str c) <$> course_numbers) in
    Os.write matrix_name (header +:+ nl);;
    for_each student_ids (λ student_id,
      cells ← mapM (matrix_cell program_name student_id) course_numbers;
      let row := Py.str student_id :: cells in
      Os.write matrix_name (Py.join "," row +:+ nl));;
    Os.print ("Student-course matrix saved to: " +:+ Os.path_join output_dir matrix_name).

(** ** Vocabulary of the statements *)

(** Every character of [s] passes the test [P]. *)
Fixpoint all_chars (P : ascii → bool) (s : string) : bool :=
  match s with
  | EmptyString => true
  | String c r => P c && all_chars P r
  end.

Definition is_newline (c : ascii) : bool := Ascii.eqb c "010" || Ascii.eqb c "013".

(** Text without a line break in it. *)
Definition one_line (s : string) : bool := all_chars (λ c, negb (is_newline c)) s.

(** The text of the lines [ls], each already ending in its line break. *)
Definition unlines (ls : list string) : string := foldr String.append EmptyString ls.

(** One integer per line. *)
Definition int_lines (l : list Z) : list string := (λ n, Py.str n +:+ nl) <$> l.


(** The course code [f"{program_name}{course_num}"] and the name of its
    file. *)
Definition course_code (program_name : string) (course_num : Z) : string :=
  program_name +:+ Py.str course_num.

Definition course_file (code : string) : string := code +:+ ".txt".

(** The last character of a text. *)
Fixpoint last_char (s : string) : option ascii :=
  match s with
  | EmptyString => None
  | String c EmptyString => Some c
  | String _ r => last_char r
  end.

(** The text step 6 writes for one course: the count, the active students
    in ascending order, the withdrawn students in ascending order. *)
Definition course_file_text (r : withdrawal) : string :=
  unlines (int_lines (w_count r :: Py.sorted (w_remaining r) ++ Py.sorted (w_withdrawn r))).

(** The active segment of the course file of [code] as it stands in the
    directory [fs]: the lines after the count line, without the last
    withdrawal-count lines.  Empty when the file is missing or unreadable. *)
Definition file_active (fs : gmap string string) (code : string) : list Z :=
  match fs !! course_file code ≫= parse_course_text with
  | Some (num_withdrawals, all_students_in_file) =>
      active_segment num_withdrawals all_students_in_file
  | None => []
  end.

(** The course codes, among [codes], whose file lists [student_id] as
    active. *)
Definition courses_taken_by (fs : gmap string string) (codes : list string)
    (student_id : Z) : list string :=
  filter (λ code, student_id ∈ file_active fs code) codes.

(** One line of the summary. *)
Definition summary_line (student_id : Z) (courses_taken : list string) : string :=
  Py.str student_id +:+ "," +:+ Py.join "," (Py.sorted_str courses_taken) +:+ nl.

Definition summary_header : string := "StudentID,Courses" +:+ nl.

(** Every list of the dictionary is free of repetition and holds students
    of [P] only. *)
Definition enrolment_inv (d : dict (list Z)) (P : list Z) : Prop :=
  ∀ k l, dict_get d k = Some l → NoDup l ∧ ∀ x, x ∈ l → x ∈ P.

(** The rate [uniform(lo, hi)] returns when [random()] is [k / 2^53]. *)
Definition uniform_value (lo hi : spec_float) (k : Z) : spec_float :=
  Float.add lo (Float.mul (Float.sub hi lo) (binary_normalize Float.prec Float.emax k (-53) false)).

(** What step 6 establishes for one dictionary item [(course, enrolled)]. *)
Record split_ok (rate_range : spec_float * spec_float) (item : string * list Z)
    (r : withdrawal) : Prop := {
  split_course : w_course r = item.1;
  split_enrolled : w_enrolled r = item.2;
  split_rate : ∃ k, 0 ≤ k < 2 ^ 53 ∧ w_rate r = uniform_value rate_range.1 rate_range.2 k;
  split_count :
    Float.trunc (Float.mul (Float.of_int (Z.of_nat (length item.2))) (w_rate r))
    = Some (w_count r);
  split_range : 0 ≤ w_count r ≤ Z.of_nat (length item.2);
  split_length : Z.of_nat (length (w_withdrawn r)) = w_count r;
  split_sample : ∃ rest, w_withdrawn r ++ rest ≡ₚ item.2;
  split_remaining : w_remaining r = filter (λ sid, sid ∉ w_withdrawn r) item.2
}.

(** The directory after the course files of [rs] have been written into
    [fs], in the order of [rs]. *)
Definition with_course_files (fs : gmap string string) (rs : list withdrawal)
    : gmap string string :=
  foldl (λ fs r, <[course_file (w_course r) := course_file_text r]> fs) fs rs.

(** The text of the summary for the students [ids], read off the course
    files of [codes] in [fs]. *)
Definition summary_text (fs : gmap string string) (codes : list string) (ids : list Z)
    : string :=
  summary_header +:+
  unlines ((λ student_id, summary_line student_id (courses_taken_by fs codes student_id)) <$> ids).

(** The directory a run starts from, empty when it does not exist yet. *)
Definition initial_files (w : world) : gmap string string := default ∅ (dir w).

(** What a completed run of the generator has established: about the
    values of its local variables [L] and about the world [w1] it leaves,
    having started in [w0]. *)
Record generated (program_name : string) (num_courses num_students : Z)
    (rate_range : spec_float * spec_float) (output_dir : string)
    (w0 : world) (L : locals) (w1 : world) : Prop := {
  gen_ids_NoDup : NoDup (student_ids L);
  gen_ids_range : Forall (λ x, 10000000 ≤ x ≤ 99999999) (student_ids L);
  gen_ids_length : Z.of_nat (length (student_ids L)) = Z.max 0 num_students;
  gen_courses_NoDup : NoDup (course_numbers L);
  gen_courses_sorted : Sorted Z.le (course_numbers L);
  gen_courses_range : Forall (λ x, 1000 ≤ x ≤ 9999) (course_numbers L);
  gen_courses_length : Z.of_nat (length (course_numbers L)) = Z.max 0 num_courses;
  gen_codes : (course_enrollments L).*1 = course_code program_name <$> course_numbers L;
  gen_enrolled : ∀ k l, (k, l) ∈ course_enrollments L →
                        NoDup l ∧ ∀ x, x ∈ l → x ∈ student_ids L;
  gen_splits : Forall2 (split_ok rate_range) (course_enrollments L) (withdrawals L);
  gen_dir :
    dir w1 = Some (<[summary_name :=
                      summary_text (with_course_files (initial_files w0) (withdrawals L))
                                   (course_enrollments L).*1 (student_ids L)]>
                   (with_course_files (initial_files w0) (withdrawals L)));
  gen_stdout : stdout w1 = stdout w0 ++ ["Data generated and saved to: " +:+ output_dir]
}.


(** ** A small run, for the statements to be tried on

    Three students, three courses, one or two courses per student, rates
    between 0.05 and 0.9.  The tape is spelled out draw by draw. *)
Definition example_rates : spec_float * spec_float :=
  (Float.of_ratio 5 100, Float.of_ratio 90 100).

Definition example_world : world :=
  World ([0; 1; 90000000; 2;        (* student IDs; the third draw repeats the first *)
          0; 0;                     (* shuffle *)
          1; 2; 1;                  (* courses per student *)
          5; 6; 7;                  (* course numbers *)
          0; 1; 0; 1; 0;            (* course picks of the three students *)
          4503599627370496; 0;      (* first course: rate, withdrawn student *)
          0; 0]                     (* rates of the other two courses *)
         ++ repeat 0 4) None [].

Definition example_run : outcome locals * world :=
  Eval vm_compute in
    generate_enrollment_data_v4 "INFO" 3 3 (1, 2) example_rates "out" example_world.

Definition example_locals : locals :=
  Eval vm_compute in
    match example_run.1 with Ok L => L | _ => Locals [] [] [] [] [] end.

Definition example_after : world := Eval vm_compute in example_run.2.

Definition example_files : gmap string string :=
  Eval vm_compute in default ∅ (dir example_after).


(** The first course of the small run. *)
Definition example_withdrawal : withdrawal :=
  Eval vm_compute in
    hd (Withdrawal EmptyString [] S754_nan 0 [] []) (withdrawals example_locals).


(** A name the matrix builder takes for a course file: it starts with the
    program name and ends with [.txt]. *)
Definition course_like (program_name name : string) : bool :=
  Py.startswith name program_name && Py.endswith name ".txt".

(** What the builder reads as the course number: [filename[len(program_name):-4]]. *)
Definition middle (program_name name : string) : string :=
  Py.slice_mid name (String.length program_name) 4.

(** The names in a directory, as [os.listdir] lists them. *)
Definition names_of (fs : gmap string string) : list string := (map_to_list fs).*1.

(** Text without a comma. *)
Definition comma_free (s : string) : bool := all_chars (λ c, negb (Ascii.eqb c ",")) s.

(** The matrix file: header, then one row per student. *)
Definition matrix_cell_text (fs : gmap string string) (program_name : string)
    (student_id course_num : Z) : string :=
  if bool_decide (student_id ∈ file_active fs (course_code program_name course_num))
  then "1" else "0".

Definition matrix_row (fs : gmap string string) (program_name : string) (cols : list Z)
    (student_id : Z) : string :=
  Py.join "," (Py.str student_id :: (matrix_cell_text fs program_name student_id <$> cols)) +:+ nl.

Definition matrix_header (program_name : string) (cols : list Z) : string :=
  ("StudentID," +:+ Py.join "," (course_code program_name <$> cols)) +:+ nl.

Definition matrix_text (fs : gmap string string) (program_name : string)
    (cols rows : list Z) : string :=
  matrix_header program_name cols +:+ unlines (matrix_row fs program_name cols <$> rows).

(** A directory that holds no name the builder would take for a course
    file of [program_name]. *)
Definition no_course_like (program_name : string) (fs : gmap string string) : Prop :=
  ∀ name, is_Some (fs !! name) → course_like program_name name = false.


(** The matrix builder run after the small run. *)
Definition example_matrix_run : outcome unit * world :=
  Eval vm_compute in generate_student_course_matrix_v4 "INFO" 3 "out" example_after.


(** The course codes a reader finds on a summary line: the fields of
    [line.strip().split(",")] after the first. *)
Definition line_courses (line : string) : list string :=
  tail (Py.split_commas (Py.strip line)).

(** A run in which the only student takes no course. *)
Definition lonely_world : world := World [0; 0; 0; 0] None [].

Definition lonely_run : outcome locals * world :=
  Eval vm_compute in
    generate_enrollment_data_v4 "INFO" 1 1 (0, 0) example_rates "out" lonely_world.

(** A directory with one stray text file next to nothing else. *)
Definition stray_world : world :=
  World [] (Some {[ "INFOabc.txt" := EmptyString ]}) [].

(** Modelled on the spec's words: the course columns are the numeric
    suffixes of the names of the shape [{program_name}{digits}.txt], in
    ascending order; names of any other shape are ignored. *)
Definition spec_course_columns (program_name : string) (names : list string) : list Z :=
  Py.sorted
    (omap (λ name,
       if course_like program_name name
          && all_chars Py.is_digit (middle program_name name)
          && negb (String.eqb (middle program_name name) EmptyString)
       then Py.int (middle program_name name) else None) names).


(** ** The scenario of the example usage

    Five courses, 150 students, one to five courses per student, rates
    between 0.05 and 0.15.  On the tape below every student takes one
    course, the first one. *)
Definition scenario_rates : spec_float * spec_float :=
  (Float.of_ratio 5 100, Float.of_ratio 15 100).

Definition scenario_tape : list Z :=
  seqZ 0 150          (* student IDs *)
  ++ repeat 0 149     (* shuffle *)
  ++ repeat 0 150     (* one course per student *)
  ++ seqZ 0 5         (* course numbers *)
  ++ repeat 0 150     (* every student picks the first course *)
  ++ repeat 0 12.     (* rates of the five courses, seven withdrawn students *)

Definition scenario_world : world := World scenario_tape None [].

Definition scenario_run : outcome locals * world :=
  Eval vm_compute in
    generate_enrollment_data_v4 "INFO" 5 150 (1, 5) scenario_rates "enrollment_data_v4"
      scenario_world.

(** The same run into a directory that still holds a course file of an
    earlier run. *)
Definition stale_world : world :=
  World scenario_tape (Some {[ "INFO2000.txt" := "0" +:+ nl ]}) [].

Definition stale_matrix_run : outcome unit * world :=
  Eval vm_compute in
    generate_student_course_matrix_v4 "INFO" 5 "enrollment_data_v4"
      (generate_enrollment_data_v4 "INFO" 5 150 (1, 5) scenario_rates "enrollment_data_v4"
         stale_world).2.


Definition scenario_locals : locals :=
  Eval vm_compute in
    match scenario_run.1 with Ok L => L | _ => Locals [] [] [] [] [] end.

Definition scenario_after : world := Eval vm_compute in scenario_run.2.

Definition scenario_files : gmap string string :=
  Eval vm_compute in default ∅ (dir scenario_after).

(** ** Values and bounds of floats *)

(** The rational [m * 2^e]. *)
Definition Zval (m e : Z) : Q := (inject_Z m * 2 ^ e)%Q.

(** A float that is [+0.0] or finite and positive, of exponent at most [E]
    and of value between [lo] and [hi]. *)
Definition between (r : spec_float) (lo hi : Q) (E : Z) : Prop :=
  match r with
  | S754_zero false => (lo <= 0)%Q ∧ (0 <= hi)%Q
  | S754_finite false m e => e ≤ E ∧ (lo <= Zval (Z.pos m) e)%Q ∧ (Zval (Z.pos m) e <= hi)%Q
  | _ => False
  end.

(** A positive finite float of binary64. *)
Definition representable (x : spec_float) : bool :=
  match x with
  | S754_finite false m e => (Z.pos m <? 2 ^ 53) && (-1074 <=? e) && (e <=? 971)
  | _ => false
  end.

Definition mantissa (x : spec_float) : Z :=
  match x with S754_finite _ m _ => Z.pos m | _ => 0 end.

Definition exponent (x : spec_float) : Z :=
  match x with S754_finite _ _ e => e | _ => 0 end.

(** After [n] single shifts the mantissa is the quotient by [2^n], and
    nothing is remembered of the bits shifted out when they were all zero. *)
Definition shifted (m0 : Z) (n : nat) (mrs : shr_record) : Prop :=
  shr_m mrs = m0 / 2 ^ Z.of_nat n
  ∧ (m0 mod 2 ^ Z.of_nat n = 0 → shr_r mrs = false ∧ shr_s mrs = false).

(** The parts of the world a statement leaves alone. *)
Definition same_files (w w' : world) : Prop := dir w' = dir w ∧ stdout w' = stdout w.
Definition same_tape (w w' : world) : Prop := tape w' = tape w.

(** ** Statements about every outcome *)

(** Whatever its outcome, the statement [m] leaves the world in the
    relation [R] to the world it started in; a value it returns satisfies
    [Φ], an exception it raises satisfies [E], and it can only starve when
    [S] holds. *)
Definition keeps {A} (R : world → world → Prop) (Φ : A → Prop) (E : exn → Prop) (S : Prop)
    (m : M A) : Prop :=
  ∀ w o w', m w = (o, w') →
    R w w' ∧ match o with Ok a => Φ a | Raise e => E e | Starved => S end.

(** Only the random tape is consumed. *)
Definition only_draws (w w' : world) : Prop :=
  dir w' = dir w ∧ stdout w' = stdout w ∧ ∃ used, tape w = used ++ tape w'.

(** Only the file [name] is created or changed, in a directory that
    exists. *)
Definition only_writes (name : string) (w w' : world) : Prop :=
  tape w' = tape w ∧ stdout w' = stdout w
  ∧ match dir w with
    | None => dir w' = None
    | Some fs => ∃ fs', dir w' = Some fs' ∧ ∀ n, n ≠ name → fs' !! n = fs !! n
    end.

(** What the matrix builder may do to the world: the tape is left alone,
    a missing directory stays missing, no file but the matrix is created or
    changed, and lines are only added to the standard output. *)
Definition builder_frame (w w' : world) : Prop :=
  tape w' = tape w
  ∧ stdout w `prefix_of` stdout w'
  ∧ match dir w with
    | None => dir w' = None
    | Some fs => ∃ fs', dir w' = Some fs' ∧ ∀ n, n ≠ matrix_name → fs' !! n = fs !! n
    end.

Definition builder_exn (e : exn) : Prop :=
  e = ValueError ∨ e = FileNotFoundError ∨ e = StopIteration.

(** Lines 107 and 108 on one line of the summary: the text before the
    first comma of the stripped line, read as an integer.  [None] is the
    [ValueError] of the unpacking (no comma) or of [int]. *)
Definition line_student_id (line : string) : option Z :=
  match Py.split_comma1 (Py.strip line) with
  | (student_id, Some _) => Py.int student_id
  | (_, None) => None
  end.

(** The names the generator writes under: the summary and the course
    files [{program_name}{n}.txt] with a four-digit [n]. *)
Definition generator_file (program_name name : string) : Prop :=
  name = summary_name
  ∨ ∃ n, 1000 ≤ n ≤ 9999 ∧ name = course_file (course_code program_name n).

(** Why step 6 ends in an exception for a course of [n] students and the
    rate [rate]: the product is not a number or infinite, so that [int]
    refuses it, or the count is not a valid sample size. *)
Definition count_error (n : nat) (rate : spec_float) (e : exn) : Prop :=
  match Float.mul (Float.of_int (Z.of_nat n)) rate with
  | S754_nan => e = ValueError
  | S754_infinity _ => e = OverflowError
  | x => e = ValueError ∧ ∃ c, Float.trunc x = Some c ∧ (c < 0 ∨ Z.of_nat n < c)
  end.

(** The three ways in which the generator ends in an exception: an empty
    [courses_per_student_range] (line 31), a number of courses for a student
    that is negative or larger than the number of courses (line 47), a
    withdrawal count that cannot be used (lines 56 and 57). *)
Definition generator_error (num_courses num_students : Z) (courses_per_student_range : Z * Z)
    (withdrawal_rate_range : spec_float * spec_float) (e : exn) : Prop :=
  (e = ValueError ∧ 0 < num_students
   ∧ courses_per_student_range.2 < courses_per_student_range.1)
  ∨ (e = ValueError
     ∧ ∃ k, courses_per_student_range.1 ≤ k ≤ courses_per_student_range.2
            ∧ (k < 0 ∨ Z.max 0 num_courses < k))
  ∨ (∃ (n : nat) k,
       Z.of_nat n ≤ Z.max 0 num_students ∧ Z.of_nat n ≤ 90000000 ∧ 0 ≤ k < 2 ^ 53
       ∧ count_error n (uniform_value withdrawal_rate_range.1 withdrawal_rate_range.2 k) e).

(** Rate ranges on which step 6 cannot fail: the lower end is [+0.0] or a
    positive float, the upper end a positive float that is at most 1, and
    [lo + (hi - lo)] does not exceed [hi]. *)
Definition rates_admissible (withdrawal_rate_range : spec_float * spec_float) : bool :=
  let '(lo, hi) := withdrawal_rate_range in
  representable hi && Qle_bool (Float.to_Q hi) 1
  && match lo with
     | S754_zero false => true
     | _ => representable lo && representable (Float.sub hi lo)
            && Qle_bool (Float.to_Q lo + Float.to_Q (Float.sub hi lo)) (Float.to_Q hi)
     end.

(** ** Further runs, for the statements to be tried on *)

(** A run without students: two courses, nobody enrolled. *)
Definition no_students_world : world := World [5; 6; 0; 0] None [].

Definition no_students_run : outcome locals * world :=
  Eval vm_compute in
    generate_enrollment_data_v4 "INFO" 2 0 (1, 2) example_rates "out" no_students_world.

Definition no_students_locals : locals :=
  Eval vm_compute in
    match no_students_run.1 with Ok L => L | _ => Locals [] [] [] [] [] end.

Definition no_students_files : gmap string string :=
  Eval vm_compute in default ∅ (dir no_students_run.2).

(** The small run asked for between 2 and 1 courses per student. *)
Definition invalid_range_run : outcome locals * world :=
  Eval vm_compute in
    generate_enrollment_data_v4 "INFO" 3 3 (2, 1) example_rates "out" example_world.

(** An existing directory without any file. *)
Definition empty_dir_world : world := World [] (Some ∅) [].

(** A directory with a summary of one student and a course file whose
    number is written with leading zeros. *)
Definition padded_files : gmap string string :=
  {[ "INFO007.txt" := "0" +:+ nl;
     summary_name := "StudentID,Courses" +:+ nl +:+ "10000000," +:+ nl ]}.

Definition padded_world : world := World [] (Some padded_files) [].

(** * Reasoning about runs *)

Arguments bind : simpl never.
Arguments ret : simpl never.
Arguments raise : simpl never.

Section RunLemmas.
Context {A B : Type}.

Lemma bind_Ok (m : M A) (f : A → M B) w b w' :
  bind m f w = (Ok b, w') ↔ ∃ a w1, m w = (Ok a, w1) ∧ f a w1 = (Ok b, w').
Proof.
  unfold bind. split.
  - destruct (m w) as [[a| |] w1]; try discriminate. eauto.
  - intros (a & w1 & -> & H). exact H.
Qed.

Lemma ret_Ok (a b : A) w w' : ret a w = (Ok b, w') ↔ a = b ∧ w = w'.
Proof. unfold ret. split; [intros [= -> ->]|intros [-> ->]]; done. Qed.

Lemma raise_Ok (e : exn) (a : A) w w' : raise e w = (Ok a, w') ↔ False.
Proof. unfold raise. split; [discriminate|done]. Qed.

Lemma try_Ok (o : option A) e a w w' : try o e w = (Ok a, w') ↔ o = Some a ∧ w = w'.
Proof.
  unfold try. destruct o as [a'|].
  - rewrite ret_Ok. split; [intros [-> ->]|intros [[= ->] ->]]; done.
  - rewrite raise_Ok. split; [done|intros [[=] _]].
Qed.

(** Forward: a first statement that succeeds hands over to the rest. *)
Lemma bind_step (m : M A) (f : A → M B) w a w1 :
  m w = (Ok a, w1) → bind m f w = f a w1.
Proof. unfold bind. by intros ->. Qed.
End RunLemmas.

(** Take the successful runs among the hypotheses apart, statement by
    statement. *)
Ltac run_inv :=
  repeat match goal with
  | H : mbind _ _ _ = (Ok _, _) |- _ =>
      let v := fresh "v" in let w := fresh "w" in let Hr := fresh "Hr" in
      apply bind_Ok in H as (v & w & Hr & H)
  | H : bind _ _ _ = (Ok _, _) |- _ =>
      let v := fresh "v" in let w := fresh "w" in let Hr := fresh "Hr" in
      apply bind_Ok in H as (v & w & Hr & H)
  | H : mret _ _ = (Ok _, _) |- _ => apply ret_Ok in H as [? ?]
  | H : ret _ _ = (Ok _, _) |- _ => apply ret_Ok in H as [? ?]
  | H : try _ _ _ = (Ok _, _) |- _ => apply try_Ok in H as [? ?]
  | H : raise _ _ = (Ok _, _) |- _ => apply raise_Ok in H; destruct H
  end.

Lemma same_files_refl w : same_files w w.
Proof. done. Qed.

Lemma same_files_trans w1 w2 w3 : same_files w1 w2 → same_files w2 w3 → same_files w1 w3.
Proof. intros [? ?] [? ?]. split; congruence. Qed.

Section Loops.
Context {S A B : Type}.

(** An invariant of the loop state and the world is kept by a loop whose
    every pass keeps it. *)
Lemma foldM_Ok_inv (body : S → A → M S) (I : S → world → Prop) xs :
  (∀ s x w s' w', x ∈ xs → I s w → body s x w = (Ok s', w') → I s' w') →
  ∀ s w s' w', I s w → foldM body s xs w = (Ok s', w') → I s' w'.
Proof.
  induction xs as [|x xs IH]; intros Hbody s w s' w' HI Hrun; simpl in Hrun.
  - apply ret_Ok in Hrun as [<- <-]. done.
  - apply bind_Ok in Hrun as (s1 & w1 & H1 & Hrun).
    eapply IH; [|eapply Hbody; [left|done..]|done].
    intros; eapply Hbody; [right|..]; done.
Qed.

Lemma mapM_Ok_inv (f : A → M B) (I : world → Prop) (R : A → B → Prop) xs :
  (∀ x w y w', x ∈ xs → I w → f x w = (Ok y, w') → I w' ∧ R x y) →
  ∀ w ys w', I w → mapM f xs w = (Ok ys, w') → I w' ∧ Forall2 R xs ys.
Proof.
  induction xs as [|x xs IH]; intros Hf w ys w' HI Hrun; simpl in Hrun.
  - apply ret_Ok in Hrun as [<- <-]. done.
  - apply bind_Ok in Hrun as (y & w1 & H1 & Hrun).
    apply bind_Ok in Hrun as (ys1 & w2 & H2 & Hrun).
    apply ret_Ok in Hrun as [<- <-].
    destruct (Hf x w y w1) as [HI1 HR]; [left|done..|].
    destruct (IH (λ x w y w' Hx, Hf x w y w' (list_elem_of_further _ _ _ Hx)) _ _ _ HI1 H2)
      as [HI2 HF].
    split; [done|by constructor].
Qed.

(** Reads: a comprehension whose function leaves the world alone and
    succeeds on every element succeeds with the mapped list. *)
Lemma mapM_pure (f : A → M B) (g : A → B) xs w :
  (∀ x, x ∈ xs → f x w = (Ok (g x), w)) → mapM f xs w = (Ok (g <$> xs), w).
Proof.
  induction xs as [|x xs IH]; intros Hf; simpl; [done|].
  unfold mbind, M_bind, mret, M_ret.
  rewrite (bind_step _ _ _ _ _ (Hf x ltac:(left))).
  rewrite (bind_step _ _ _ (g <$> xs) w); [done|].
  apply IH. intros; apply Hf; by right.
Qed.
End Loops.

(** ** Missing directory *)

(** C8: when the output directory does not exist, the matrix builder prints
    the error line and returns; the directory is still absent afterwards, so
    no matrix file and no other file has been written, and the random tape
    is untouched. *)
Theorem matrix_missing_directory (program_name : string) (num_courses : Z)
    (output_dir : string) (tp : list Z) (out : list string) :
  generate_student_course_matrix_v4 program_name num_courses output_dir (World tp None out)
  = (Ok tt,
     World tp None
       (out ++ ["Error: Directory '" +:+ output_dir
                +:+ "' not found. Run generate_enrollment_data_v4 first."])).
Proof. reflexivity. Qed.

(** * Text lemmas *)

Section StringLemmas.

Lemma app_nil_r_s (s : string) : s +:+ EmptyString = s.
Proof. induction s; simpl; [done|]. unfold String.app in *. simpl. by f_equal. Qed.

Lemma app_assoc_s (a b c : string) : (a +:+ b) +:+ c = a +:+ (b +:+ c).
Proof. induction a; [done|]. unfold String.app in *. simpl. by f_equal. Qed.

Lemma app_cons_s (c : ascii) (a b : string) : String c a +:+ b = String c (a +:+ b).
Proof. done. Qed.

Lemma length_app_s (a b : string) :
  String.length (a +:+ b) = (String.length a + String.length b)%nat.
Proof. induction a; [done|]. unfold String.app in *. simpl. by f_equal. Qed.

Lemma app_inj_r_s (a b c : string) : a +:+ c = b +:+ c → a = b.
Proof.
  revert b. induction a as [|x a IH]; intros [|y b] H; try done.
  - apply (f_equal String.length) in H. rewrite !length_app_s in H.
    simpl in H. lia.
  - apply (f_equal String.length) in H. rewrite !length_app_s in H.
    simpl in H. lia.
  - rewrite !app_cons_s in H. injection H as -> H. f_equal. by apply IH.
Qed.

Lemma all_chars_app P (a b : string) :
  all_chars P (a +:+ b) = all_chars P a && all_chars P b.
Proof.
  induction a; [done|]. rewrite app_cons_s. simpl. rewrite IHa.
  by rewrite andb_assoc.
Qed.

Lemma all_chars_impl (P Q : ascii → bool) (s : string) :
  (∀ c, P c = true → Q c = true) → all_chars P s = true → all_chars Q s = true.
Proof.
  intros HPQ. induction s; simpl; [done|].
  intros [? ?]%andb_true_iff. apply andb_true_iff. auto.
Qed.

Lemma rev_app_app (s a b : string) :
  String.rev_app (String.rev_app s a) b = String.rev_app a (s +:+ b).
Proof.
  revert a b. induction s as [|c s IH]; intros a b; [done|].
  simpl. rewrite IH. done.
Qed.

(** *** Decimal numerals *)

Lemma uint_string_digits (d : uint) :
  all_chars Py.is_digit (NilEmpty.string_of_uint d) = true.
Proof. induction d; simpl; done. Qed.

Lemma str_unsigned (n : Z) :
  0 ≤ n → ∃ d, d ≠ Nil ∧ Py.str n = NilEmpty.string_of_uint d ∧ Z.of_uint d = n.
Proof.
  intros Hn. destruct n as [|p|p]; [| |lia].
  - exists (D0 Nil). done.
  - exists (Pos.to_uint p). split; [apply DecimalPos.Unsigned.to_uint_nonnil|].
    split.
    + unfold Py.str. simpl. unfold NilZero.string_of_uint.
      pose proof (DecimalPos.Unsigned.to_uint_nonnil p).
      by destruct (Pos.to_uint p).
    + unfold Z.of_uint. by rewrite DecimalPos.Unsigned.of_to.
Qed.

Lemma str_digits (n : Z) : 0 ≤ n → all_chars Py.is_digit (Py.str n) = true.
Proof. intros (d & _ & -> & _)%str_unsigned. apply uint_string_digits. Qed.

Lemma str_nonempty (n : Z) : Py.str n ≠ EmptyString.
Proof.
  destruct n as [|p|p]; [done| |done].
  unfold Py.str. simpl. unfold NilZero.string_of_uint.
  pose proof (DecimalPos.Unsigned.to_uint_nonnil p).
  by destruct (Pos.to_uint p).
Qed.

Lemma digit_groups_digits (b : bool) (s : string) :
  all_chars Py.is_digit s = true → (s ≠ EmptyString ∨ b = true) →
  Py.digit_groups b s = Some s.
Proof.
  revert b. induction s as [|c s IH]; intros b Hd Hne; simpl.
  - destruct Hne as [?| ->]; done.
  - simpl in Hd. apply andb_true_iff in Hd as [Hc Hs]. rewrite Hc.
    rewrite IH; [done..|by right].
Qed.

Lemma int_of_digits_str (n : Z) : 0 ≤ n → Py.int_of_digits (Py.str n) = Some n.
Proof.
  intros Hn. unfold Py.int_of_digits.
  rewrite digit_groups_digits; [|by apply str_digits|left; apply str_nonempty].
  simpl. destruct (str_unsigned n Hn) as (d & Hd & -> & <-).
  by rewrite NilEmpty.usu.
Qed.

(** *** White space *)

Lemma digit_not_space (c : ascii) : Py.is_digit c = true → Py.is_space c = false.
Proof.
  unfold Py.is_digit, Py.is_space. generalize (N_of_ascii c). intros n.
  rewrite andb_true_iff, !orb_false_iff, !andb_false_iff, !N.leb_le, !N.leb_gt, !N.eqb_neq.
  lia.
Qed.

Lemma lstrip_head (c : ascii) (s : string) :
  Py.is_space c = false → Py.lstrip (String c s) = String c s.
Proof. intros H. simpl. by rewrite H. Qed.

Lemma rstrip_spaces (ws : string) :
  all_chars Py.is_space ws = true → Py.rstrip ws = EmptyString.
Proof.
  induction ws as [|c ws IH]; [done|]. simpl.
  intros [Hc Hws]%andb_true_iff. by rewrite IH, Hc.
Qed.

(** White space is only taken off after the last character that is not
    white space. *)
Lemma rstrip_app_cons (a : string) (c : ascii) (r : string) :
  Py.is_space c = false → Py.rstrip (a +:+ String c r) = a +:+ String c (Py.rstrip r).
Proof.
  intros Hc. induction a as [|x a IH].
  - change (EmptyString +:+ ?s) with s. simpl. rewrite Hc. by destruct (Py.rstrip r).
  - rewrite !app_cons_s. simpl. rewrite IH. by destruct a.
Qed.

Lemma rstrip_digits_spaces (s ws : string) :
  all_chars Py.is_digit s = true → all_chars Py.is_space ws = true →
  Py.rstrip (s +:+ ws) = s.
Proof.
  intros Hs Hws. induction s as [|c s IH].
  - by apply rstrip_spaces.
  - rewrite app_cons_s. simpl in *. apply andb_true_iff in Hs as [Hc Hs].
    rewrite (IH Hs). rewrite (digit_not_space c Hc). by destruct s.
Qed.

Lemma strip_digits_spaces (s ws : string) :
  all_chars Py.is_digit s = true → all_chars Py.is_space ws = true →
  Py.strip (s +:+ ws) = s.
Proof.
  intros Hs Hws. unfold Py.strip. rewrite rstrip_digits_spaces by done.
  destruct s as [|c s]; [done|]. simpl in Hs. apply andb_true_iff in Hs as [Hc _].
  by apply lstrip_head, digit_not_space.
Qed.

Lemma strip_digits (s : string) : all_chars Py.is_digit s = true → Py.strip s = s.
Proof.
  intros Hs. pose proof (strip_digits_spaces s EmptyString Hs eq_refl) as H.
  by rewrite app_nil_r_s in H.
Qed.

Lemma int_digits_head (c : ascii) (s : string) :
  Py.is_digit c = true → Py.strip (String c s) = String c s →
  Py.int (String c s) = Py.int_of_digits (String c s).
Proof.
  intros Hc Hs. unfold Py.int. rewrite Hs.
  destruct c as [[] [] [] [] [] [] [] []]; try done.
Qed.

(** Reading back a number that was written on a line of its own. *)
Lemma int_strip_str_nl (n : Z) : 0 ≤ n → Py.int (Py.strip (Py.str n +:+ nl)) = Some n.
Proof.
  intros Hn. rewrite strip_digits_spaces; [|by apply str_digits|done].
  pose proof (str_digits n Hn) as Hd. pose proof (str_nonempty n) as Hne.
  pose proof (int_of_digits_str n Hn) as Hi.
  destruct (Py.str n) as [|c s]; [done|].
  simpl in Hd. apply andb_true_iff in Hd as [Hc Hd].
  rewrite int_digits_head; [done..|].
  apply strip_digits. simpl. by rewrite Hc.
Qed.

Lemma int_str (n : Z) : 0 ≤ n → Py.int (Py.str n) = Some n.
Proof.
  intros Hn. pose proof (str_digits n Hn) as Hd. pose proof (str_nonempty n) as Hne.
  pose proof (int_of_digits_str n Hn) as Hi.
  destruct (Py.str n) as [|c s]; [done|].
  pose proof Hd as Hd'. simpl in Hd. apply andb_true_iff in Hd as [Hc Hd].
  rewrite int_digits_head; [done..|]. by apply strip_digits.
Qed.

Lemma str_inj (a b : Z) : 0 ≤ a → 0 ≤ b → Py.str a = Py.str b → a = b.
Proof.
  intros Ha Hb H. apply int_str in Ha, Hb. rewrite H in Ha. congruence.
Qed.

End StringLemmas.

(** * The random module *)

Section RandomLemmas.

Lemma draw_Ok t w w' :
  Random.draw w = (Ok t, w') → same_files w w' ∧ tape w = t :: tape w'.
Proof.
  unfold Random.draw. destruct w as [[|t' tp] d o]; simpl; [done|].
  intros [= -> <-]. done.
Qed.

Lemma randbelow_Ok n r w w' :
  Random.randbelow n w = (Ok r, w') → same_files w w' ∧ (0 < n → 0 ≤ r < n).
Proof.
  unfold Random.randbelow. intros H. run_inv. subst.
  apply draw_Ok in Hr as [? _]. split; [done|]. apply Z.mod_pos_bound.
Qed.

Lemma randint_Ok a b r w w' :
  Random.randint a b w = (Ok r, w') → same_files w w' ∧ a ≤ r ≤ b.
Proof.
  unfold Random.randint. destruct (Z.ltb_spec b a) as [Hlt|Hge]; intros H; run_inv.
  subst. apply randbelow_Ok in Hr as [? Hb]. split; [done|]. lia.
Qed.

Lemma uniform_Ok a b r w w' : Random.uniform a b w = (Ok r, w') → same_files w w'.
Proof.
  unfold Random.uniform, Random.random. intros H. run_inv. subst.
  by apply randbelow_Ok in Hr0 as [? _].
Qed.

(** The rejection loop: what it returns has no repetition, lies in the
    range, and has the length asked for. *)
Lemma draw_distinct_Ok lo hi n : lo ≤ hi →
  ∀ tp xs r tp',
    draw_distinct lo hi n xs tp = (Ok r, tp') →
    NoDup xs → Forall (λ x, lo ≤ x ≤ hi) xs → Z.of_nat (length xs) ≤ Z.max 0 n →
    NoDup r ∧ Forall (λ x, lo ≤ x ≤ hi) r ∧ Z.of_nat (length r) = Z.max 0 n.
Proof.
  intros Hlohi. induction tp as [|t tp IH]; intros xs r tp' H Hnd Hrange Hlen; simpl in H.
  - destruct (Z.ltb_spec (Z.of_nat (length xs)) n); [done|].
    injection H as <- <-. repeat split; [done..|lia].
  - destruct (Z.ltb_spec (Z.of_nat (length xs)) n).
    + case_bool_decide as Hin.
      * by apply IH in H.
      * apply IH in H; [done| | |].
        -- apply NoDup_app. repeat split; [done| |apply NoDup_singleton].
           intros x Hx ->%list_elem_of_singleton. done.
        -- apply Forall_app. split; [done|]. apply Forall_singleton.
           pose proof (Z.mod_pos_bound t (hi - lo + 1)). lia.
        -- rewrite length_app. simpl. lia.
    + injection H as <- <-. repeat split; [done..|lia].
Qed.

Lemma distinct_randints_Ok lo hi n r w w' : lo ≤ hi →
  distinct_randints lo hi n w = (Ok r, w') →
  same_files w w' ∧ NoDup r ∧ Forall (λ x, lo ≤ x ≤ hi) r ∧ Z.of_nat (length r) = Z.max 0 n.
Proof.
  intros Hlohi. unfold distinct_randints.
  destruct (draw_distinct lo hi n [] (tape w)) as [o tp] eqn:E.
  intros [= -> <-]. split; [done|].
  eapply draw_distinct_Ok; [done..|constructor|constructor|simpl; lia].
Qed.

(** The loop ends on every tape that still holds enough new values: here,
    the tape that counts upwards. *)
Lemma draw_distinct_cons lo hi n xs t tp :
  draw_distinct lo hi n xs (t :: tp) =
  if Z.of_nat (length xs) <? n then
    if bool_decide (lo + t mod (hi - lo + 1) ∈ xs) then draw_distinct lo hi n xs tp
    else draw_distinct lo hi n (xs ++ [lo + t mod (hi - lo + 1)]) tp
  else (Ok xs, t :: tp).
Proof. done. Qed.

Lemma draw_distinct_counting lo hi (k : nat) : ∀ (i : nat),
  Z.of_nat (i + k) ≤ hi - lo + 1 →
  draw_distinct lo hi (Z.of_nat (i + k)) ((λ j, lo + j) <$> seqZ 0 (Z.of_nat i))
                (seqZ (Z.of_nat i) (Z.of_nat k))
  = (Ok ((λ j, lo + j) <$> seqZ 0 (Z.of_nat (i + k))), []).
Proof.
  induction k as [|k IH]; intros i Hle.
  - rewrite Nat.add_0_r. simpl. rewrite length_fmap, length_seqZ.
    destruct (Z.ltb_spec (Z.of_nat (Z.to_nat (Z.of_nat i))) (Z.of_nat i)); [lia|done].
  - rewrite (seqZ_cons (Z.of_nat i) (Z.of_nat (S k))) by lia.
    rewrite draw_distinct_cons. rewrite length_fmap, length_seqZ.
    destruct (Z.ltb_spec (Z.of_nat (Z.to_nat (Z.of_nat i))) (Z.of_nat (i + S k))); [|lia].
    rewrite Z.mod_small by lia.
    rewrite bool_decide_eq_false_2.
    + replace (Z.pred (Z.of_nat (S k))) with (Z.of_nat k) by lia.
      replace (Z.succ (Z.of_nat i)) with (Z.of_nat (S i)) by lia.
      replace (i + S k)%nat with (S i + k)%nat in * by lia.
      rewrite <- IH by done. f_equal.
      replace (Z.of_nat (S i)) with (Z.of_nat i + 1) by lia.
      rewrite seqZ_app by lia. rewrite fmap_app. simpl. done.
    + intros (j & Hj & Hin)%list_elem_of_fmap. apply elem_of_seqZ in Hin. lia.
Qed.

Lemma swap_Permutation {A} (x : list A) i j : Random.swap x i j ≡ₚ x.
Proof.
  unfold Random.swap. destruct (x !! i) eqn:Hi; [|done]. destruct (x !! j) eqn:Hj; [|done].
  by apply Permutation_insert_swap.
Qed.

Lemma shuffle_Ok {A} (x r : list A) w w' :
  Random.shuffle x w = (Ok r, w') → same_files w w' ∧ r ≡ₚ x.
Proof.
  unfold Random.shuffle. intros H.
  eapply (foldM_Ok_inv _ (λ s w1, same_files w w1 ∧ s ≡ₚ x)) in H; [done| |done].
  intros s i w1 s' w1' _ [Hf Hp] Hrun. run_inv. subst.
  apply randbelow_Ok in Hr as [? _]. split; [by eapply same_files_trans|].
  by rewrite swap_Permutation.
Qed.

Lemma sample_loop {A} (population : list A) :
  let n := length population in
  ∀ m i pool result w s' w',
    length pool = n → length result = i → (i + m ≤ n)%nat →
    result ++ take (n - i) pool ≡ₚ population →
    foldM (λ '(pool, result) i,
        j ← Random.randbelow (Z.of_nat (n - i));
        picked ← try (pool !! Z.to_nat j) IndexError;
        last ← try (pool !! (n - i - 1)%nat) IndexError;
        mret (<[Z.to_nat j := last]> pool, result ++ [picked]))
      (pool, result) (seq i m) w = (Ok s', w') →
    same_files w w' ∧ length s'.2 = (i + m)%nat ∧
    s'.2 ++ take (n - (i + m)) s'.1 ≡ₚ population.
Proof.
  intros n. induction m as [|m IH]; intros i pool result w s' w' Hpool Hres Hle Hperm H.
  - simpl in H. run_inv. subst. simpl. rewrite Nat.add_0_r. done.
  - simpl in H. run_inv. subst. simpl in *.
    rename v0 into j, v1 into picked, v2 into last.
    assert (pool !! Z.to_nat j = Some picked) as Hpick by done.
    assert (pool !! (n - length result - 1)%nat = Some last) as Hlast by done.
    apply randbelow_Ok in Hr0 as [Hf Hj].
    specialize (Hj ltac:(lia)).
    apply IH in H as (Hf' & Hlen & Hp).
    + split; [by eapply same_files_trans|]. split; [lia|].
      by replace (length result + S m)%nat with (S (length result) + m)%nat by lia.
    + by rewrite length_insert.
    + rewrite length_app. simpl. lia.
    + lia.
    + rewrite <- Hperm. rewrite <- app_assoc. apply Permutation_app_head. simpl.
      replace (n - length result)%nat with (S (n - length result - 1)) by lia.
      replace (n - S (length result))%nat with (n - length result - 1)%nat by lia.
      rewrite (take_S_r _ _ last) by done.
      destruct (decide (Z.to_nat j = n - length result - 1)%nat) as [Heq|Hne].
      * rewrite take_insert_ge by lia. rewrite Heq in Hpick.
        replace picked with last by congruence.
        by rewrite Permutation_cons_append.
      * rewrite take_insert_lt by lia.
        assert (take (n - length result - 1) pool !! Z.to_nat j = Some picked) as Hpick'.
        { rewrite lookup_take_lt by lia. done. }
        rewrite insert_take_drop by (rewrite length_take; lia).
        rewrite <- (take_drop_middle _ _ _ Hpick') at 3.
        rewrite <- Permutation_cons_append, <- !Permutation_middle.
        apply Permutation_swap.
Qed.

(** [sample]: [k] elements of the population, taken at [k] different
    positions. *)
Lemma sample_Ok {A} (population r : list A) k w w' :
  Random.sample population k w = (Ok r, w') →
  same_files w w' ∧ 0 ≤ k ≤ Z.of_nat (length population) ∧
  Z.of_nat (length r) = k ∧ ∃ rest, r ++ rest ≡ₚ population.
Proof.
  unfold Random.sample.
  destruct (Z.ltb_spec k 0) as [?|Hk0]; [intros Hx; by run_inv|].
  destruct (Z.ltb_spec (Z.of_nat (length population)) k) as [?|Hkn];
    [intros Hx; by run_inv|].
  simpl. intros H. run_inv. destruct v as [pool result]. simpl in H. run_inv. subst.
  apply (sample_loop population) in Hr as (Hf & Hlen & Hp); [|done|done|lia|].
  - simpl in *. split; [done|]. split; [lia|]. split; [lia|]. eauto.
  - simpl. by rewrite Nat.sub_0_r, firstn_all.
Qed.

End RandomLemmas.

(** * Files *)

Section FileLemmas.

Lemma unlines_app (a b : list string) : unlines (a ++ b) = unlines a +:+ unlines b.
Proof.
  induction a as [|x a IH]; [done|]. simpl. rewrite IH. by rewrite app_assoc_s.
Qed.

Lemma unlines_cons (x : string) (a : list string) : unlines (x :: a) = x +:+ unlines a.
Proof. done. Qed.

Lemma digits_one_line (s : string) : all_chars Py.is_digit s = true → one_line s = true.
Proof.
  apply all_chars_impl. intros c Hc.
  destruct c as [[] [] [] [] [] [] [] []]; done.
Qed.

(** A line without line break, followed by a line feed, is read as that
    line. *)
Lemma lines_acc_line (s rest cur : string) :
  one_line s = true →
  Py.lines_acc cur (s +:+ String "010" rest)
  = String.rev (String "010" (String.rev_app s cur)) :: Py.lines_acc EmptyString rest.
Proof.
  revert cur. induction s as [|c s IH]; intros cur Hs.
  - done.
  - rewrite app_cons_s. simpl in Hs. apply andb_true_iff in Hs as [Hc Hs].
    unfold is_newline in Hc. apply negb_true_iff, orb_false_iff in Hc as [Hc1 Hc2].
    simpl. rewrite Hc1, Hc2. by rewrite IH.
Qed.

Lemma readlines_unlines (ls : list string) :
  Forall (λ l, ∃ s, l = s +:+ nl ∧ one_line s = true) ls →
  Py.readlines (unlines ls) = ls.
Proof.
  unfold Py.readlines. induction 1 as [|l ls (s & -> & Hs) _ IH]; [done|].
  rewrite unlines_cons, app_assoc_s. unfold nl at 1. rewrite app_cons_s.
  change (EmptyString +:+ ?x) with x.
  rewrite lines_acc_line by done. rewrite IH. f_equal.
  unfold String.rev. simpl. by rewrite rev_app_app.
Qed.

Lemma int_lines_one_line (l : list Z) :
  Forall (λ n, 0 ≤ n) l →
  Forall (λ l, ∃ s, l = s +:+ nl ∧ one_line s = true) (int_lines l).
Proof.
  intros H. apply Forall_fmap. eapply Forall_impl; [done|].
  intros n Hn. simpl. eexists; split; [done|]. by apply digits_one_line, str_digits.
Qed.

Lemma mapM_int_lines (l : list Z) :
  Forall (λ n, 0 ≤ n) l →
  mapM (λ line, Py.int (Py.strip line)) (int_lines l) = Some l.
Proof.
  induction 1 as [|n l Hn _ IH]; [done|].
  simpl. rewrite int_strip_str_nl by done. simpl. by rewrite IH.
Qed.

(** Reading back a course file: the count and the identifiers come out as
    they were written. *)
Lemma parse_course_text_written (nw : Z) (ids : list Z) :
  0 ≤ nw → Forall (λ n, 0 ≤ n) ids →
  parse_course_text (unlines (int_lines (nw :: ids))) = Some (nw, ids).
Proof.
  intros Hnw Hids. unfold parse_course_text.
  rewrite readlines_unlines by (apply int_lines_one_line; by constructor).
  simpl. rewrite int_strip_str_nl by done. simpl.
  by rewrite mapM_int_lines.
Qed.

Lemma open_write_eq name w fs :
  dir w = Some fs →
  Os.open_write name w = (Ok tt, World (tape w) (Some (<[name := EmptyString]> fs)) (stdout w)).
Proof. unfold Os.open_write. by intros ->. Qed.

Lemma write_eq name text w fs old :
  dir w = Some fs → fs !! name = Some old →
  Os.write name text w = (Ok tt, World (tape w) (Some (<[name := old +:+ text]> fs)) (stdout w)).
Proof. unfold Os.write. by intros -> ->. Qed.

Lemma open_write_Ok name w w' :
  Os.open_write name w = (Ok tt, w') → ∃ fs, dir w = Some fs.
Proof. unfold Os.open_write. destruct (dir w); [eauto|done]. Qed.

Lemma for_each_write {A} (name : string) (g : A → string) (xs : list A) w fs old :
  dir w = Some fs → fs !! name = Some old →
  for_each xs (λ x, Os.write name (g x)) w
  = (Ok tt, World (tape w) (Some (<[name := old +:+ unlines (g <$> xs)]> fs)) (stdout w)).
Proof.
  unfold for_each. revert w fs old. induction xs as [|x xs IH]; intros w fs old Hd Hf.
  - simpl. rewrite app_nil_r_s, insert_id by done. destruct w; simpl in *. by subst.
  - simpl. unfold mbind, M_bind.
    rewrite (bind_step _ _ _ _ _ (write_eq name (g x) w fs old Hd Hf)).
    erewrite IH; [|done|by rewrite lookup_insert_eq].
    simpl. by rewrite insert_insert_eq, app_assoc_s.
Qed.

Lemma read_text_eq name w fs text :
  dir w = Some fs → fs !! name = Some text → Os.read_text name w = (Ok text, w).
Proof. unfold Os.read_text. by intros -> ->. Qed.

Lemma read_course_file_eq name w fs text r :
  dir w = Some fs → fs !! name = Some text → parse_course_text text = Some r →
  read_course_file name w = (Ok r, w).
Proof.
  intros Hd Hf Hp. unfold read_course_file, mbind, M_bind.
  rewrite (bind_step _ _ _ _ _ (read_text_eq name w fs text Hd Hf)).
  by rewrite Hp.
Qed.

End FileLemmas.

(** * Course codes and file names *)

Section Names.

Lemma last_char_app (a b : string) : b ≠ EmptyString → last_char (a +:+ b) = last_char b.
Proof.
  intros Hb. induction a as [|c a IH]; [done|].
  rewrite app_cons_s. simpl. rewrite IH.
  destruct (a +:+ b) eqn:E; [|done].
  destruct a; [|done]. by destruct b.
Qed.

Lemma last_char_all (P : ascii → bool) (s : string) :
  all_chars P s = true → s ≠ EmptyString → ∃ c, last_char s = Some c ∧ P c = true.
Proof.
  induction s as [|c s IH]; [done|]. simpl.
  intros [Hc Hs]%andb_true_iff _. destruct s as [|d s]; [eauto|].
  apply IH; done.
Qed.

Lemma course_code_inj p (a b : Z) : 0 ≤ a → 0 ≤ b → course_code p a = course_code p b → a = b.
Proof.
  unfold course_code. intros Ha Hb H. apply String.app_inj in H. by apply str_inj.
Qed.

Lemma course_file_inj (a b : string) : course_file a = course_file b → a = b.
Proof. apply app_inj_r_s. Qed.

Lemma course_code_last_digit p (n : Z) :
  0 ≤ n → ∃ c, last_char (course_code p n) = Some c ∧ Py.is_digit c = true.
Proof.
  intros Hn. unfold course_code. rewrite last_char_app by apply str_nonempty.
  apply last_char_all; [by apply str_digits|apply str_nonempty].
Qed.

(** No course file is the summary file. *)
Lemma course_file_not_summary p (n : Z) : 0 ≤ n → course_file (course_code p n) ≠ summary_name.
Proof.
  intros Hn H. change summary_name with (course_file "student_courses_summary") in H.
  apply course_file_inj in H. destruct (course_code_last_digit p n Hn) as (c & Hc & Hd).
  rewrite H in Hc. simpl in Hc. injection Hc as <-. done.
Qed.

(** Nor the matrix file. *)
Lemma course_file_not_matrix (code : string) : course_file code ≠ matrix_name.
Proof.
  intros H. apply (f_equal last_char) in H. unfold course_file in H.
  rewrite last_char_app in H by done. done.
Qed.

End Names.

(** * Dictionaries *)

Section Dict.
Context {V : Type}.

Lemma dict_get_set (d : dict V) k v k' :
  dict_get (dict_set d k v) k' = if decide (k = k') then Some v else dict_get d k'.
Proof.
  induction d as [|[k0 v0] d IH]; simpl.
  - destruct (String.eqb_spec k k'); by case_decide.
  - destruct (String.eqb_spec k0 k) as [->|Hne]; simpl.
    + destruct (String.eqb_spec k k'); by case_decide.
    + destruct (String.eqb_spec k0 k'); [|done]. subst. by case_decide.
Qed.

Lemma dict_set_keys (d : dict V) k v :
  is_Some (dict_get d k) → (dict_set d k v).*1 = d.*1.
Proof.
  induction d as [|[k0 v0] d IH]; simpl; [by intros [? ?]|].
  destruct (String.eqb_spec k0 k) as [->|Hne]; simpl; [done|].
  intros H. f_equal. by apply IH.
Qed.

Lemma dict_set_fresh (d : dict V) k v : k ∉ d.*1 → dict_set d k v = d ++ [(k, v)].
Proof.
  induction d as [|[k0 v0] d IH]; simpl; [done|].
  intros Hk. apply not_elem_of_cons in Hk as [Hne Hk].
  destruct (String.eqb_spec k0 k); [congruence|]. f_equal. by apply IH.
Qed.

Lemma dict_get_elem (d : dict V) k v : NoDup d.*1 → (k, v) ∈ d → dict_get d k = Some v.
Proof.
  induction d as [|[k0 v0] d IH]; simpl; [by intros _ ?%elem_of_nil|].
  intros [Hk0 Hnd]%NoDup_cons [[= -> ->]|Hin]%elem_of_cons.
  - by rewrite String.eqb_refl.
  - destruct (String.eqb_spec k0 k) as [->|Hne]; [|by apply IH].
    destruct Hk0. apply list_elem_of_fmap. by exists (k, v).
Qed.

Lemma dict_get_Some (d : dict V) k v : dict_get d k = Some v → (k, v) ∈ d.
Proof.
  induction d as [|[k0 v0] d IH]; simpl; [done|].
  destruct (String.eqb_spec k0 k) as [->|Hne].
  - intros [= ->]. left.
  - intros H. right. by apply IH.
Qed.

End Dict.

(** Step 4: one empty list per course, in the order of the course numbers. *)
Lemma empty_enrollments p (course_numbers : list Z) :
  NoDup (course_code p <$> course_numbers) →
  foldl (λ d course_num, dict_set d (p +:+ Py.str course_num) ([] : list Z)) [] course_numbers
  = (λ n, (course_code p n, [])) <$> course_numbers.
Proof.
  intros Hnd.
  enough (∀ d : dict (list Z), NoDup (d.*1 ++ (course_code p <$> course_numbers)) →
    foldl (λ d course_num, dict_set d (p +:+ Py.str course_num) ([] : list Z)) d course_numbers
    = d ++ ((λ n, (course_code p n, [])) <$> course_numbers)) as H.
  { apply (H []). done. }
  induction course_numbers as [|n l IH]; intros d Hd; simpl.
  - by rewrite app_nil_r.
  - apply NoDup_app in Hd as (Hd1 & Hd2 & Hd3).
    apply NoDup_cons in Hnd as [Hn Hl]. simpl in Hd3.
    rewrite dict_set_fresh.
    + rewrite IH; [by rewrite <- app_assoc|done|].
      rewrite fmap_app. simpl. rewrite <- app_assoc. simpl.
      apply NoDup_app. repeat split; [done| |done].
      intros x Hx. by apply Hd2.
    + intros Hin. apply (Hd2 _ Hin). left.
Qed.

(** * Step 5: enrolment *)

Section Enrolment.
Variable program_name : string.
Variable num_courses : Z.
Variables num_courses_taken course_numbers : list Z.
Hypothesis course_numbers_NoDup : NoDup course_numbers.
Hypothesis course_numbers_nonneg : Forall (λ n, 0 ≤ n) course_numbers.

Lemma dict_append_Ok (d d' : dict (list Z)) k (x : Z) w w' :
  dict_append d k x w = (Ok d', w') →
  w' = w ∧ ∃ l, dict_get d k = Some l ∧ d' = dict_set d k (l ++ [x]).
Proof. unfold dict_append. intros H. run_inv. subst. eauto. Qed.

Lemma enrol_loop (student_id : Z) (P : list Z) (sel : list Z) :
  ∀ (visited : list string) d w d' w',
    NoDup sel → Forall (λ idx, 0 ≤ idx) sel →
    (∀ idx cn, idx ∈ sel → course_numbers !! Z.to_nat idx = Some cn →
               course_code program_name cn ∉ visited) →
    (∀ k l, dict_get d k = Some l →
            NoDup l ∧ (student_id ∈ l → k ∈ visited) ∧ ∀ x, x ∈ l → x = student_id ∨ x ∈ P) →
    foldM (λ course_enrollments course_index,
        course_num ← try (course_numbers !! Z.to_nat course_index) IndexError;
        let course_name := program_name +:+ Py.str course_num in
        dict_append course_enrollments course_name student_id) d sel w = (Ok d', w') →
    w' = w ∧ d'.*1 = d.*1 ∧ enrolment_inv d' (student_id :: P).
Proof.
  induction sel as [|idx sel IH]; intros visited d w d' w' Hnd Hpos Hfresh HJ H.
  - simpl in H. run_inv. subst. split; [done|]. split; [done|].
    intros k l Hk. destruct (HJ k l Hk) as (? & _ & Hx). split; [done|].
    intros x [->|?]%Hx; [left|by right].
  - simpl in H. run_inv. rename v0 into cn.
    assert (course_numbers !! Z.to_nat idx = Some cn) as Hcn by done.
    apply dict_append_Ok in Hr as (-> & l & Hl & ->). subst.
    apply NoDup_cons in Hnd as [Hidx Hnd]. apply Forall_cons in Hpos as [Hidx0 Hpos].
    apply (IH (course_code program_name cn :: visited)) in H as (-> & Hkeys & Hinv);
      [|done|done| |].
    + split; [done|]. split; [|done]. rewrite Hkeys. by apply dict_set_keys.
    + intros idx' cn' Hin Hcn'. apply not_elem_of_cons. split; [|eapply Hfresh; [by right|done]].
      intros Heq. apply course_code_inj in Heq; [subst cn'|..].
      * assert (Z.to_nat idx' = Z.to_nat idx) as Hi
          by (eapply NoDup_lookup; [apply course_numbers_NoDup|done..]).
        assert (idx' = idx) as -> by (rewrite Forall_forall in Hpos; specialize (Hpos _ Hin); lia).
        done.
      * rewrite Forall_forall in course_numbers_nonneg.
        by eapply course_numbers_nonneg, list_elem_of_lookup_2.
      * rewrite Forall_forall in course_numbers_nonneg.
        by eapply course_numbers_nonneg, list_elem_of_lookup_2.
    + intros k l1. rewrite dict_get_set. case_decide as Hk.
      * intros [= <-]. subst k. destruct (HJ _ _ Hl) as (Hndl & Hvis & Hx).
        split; [|split].
        -- apply NoDup_app. split; [done|]. split; [|apply NoDup_singleton].
           intros x Hxl Hx1. apply list_elem_of_singleton in Hx1. subst x.
           apply (Hfresh idx cn); [left|done|by apply Hvis].
        -- intros _. left.
        -- intros x [?|Hx1]%elem_of_app; [by apply Hx|].
           apply list_elem_of_singleton in Hx1. by left.
      * intros Hk1. destruct (HJ _ _ Hk1) as (? & Hvis & ?). split; [done|]. split; [|done].
        intros ?. right. by apply Hvis.
Qed.

Lemma assign_student_Ok (P : list Z) d (i : nat) (student_id : Z) w d' w' :
  student_id ∉ P → enrolment_inv d P →
  assign_student program_name num_courses num_courses_taken course_numbers d (i, student_id) w
  = (Ok d', w') →
  same_files w w' ∧ d'.*1 = d.*1 ∧ enrolment_inv d' (student_id :: P).
Proof.
  intros HP Hinv H. unfold assign_student in H. run_inv. subst.
  apply sample_Ok in Hr0 as (Hf & _ & _ & rest & Hperm).
  assert (NoDup (v0 ++ rest)) as Hnd by (rewrite Hperm; apply NoDup_seqZ).
  apply NoDup_app in Hnd as (Hnd & _ & _).
  assert (Forall (λ idx, 0 ≤ idx) v0) as Hpos.
  { apply Forall_forall. intros idx Hin.
    assert (idx ∈ range num_courses) as Hr
      by (unfold range; rewrite <- Hperm; apply elem_of_app; by left).
    apply elem_of_seqZ in Hr. lia. }
  apply (enrol_loop student_id P v0 []) in H as (-> & Hkeys & Hinv'); [done..| |].
  - intros idx cn _ _. apply not_elem_of_nil.
  - intros k l Hk. destruct (Hinv k l Hk) as [? Hx]. split; [done|]. split.
    + intros Hin. by apply Hx in Hin.
    + intros x ?. right. by apply Hx.
Qed.

Lemma assign_loop (xs : list (nat * Z)) :
  ∀ P d w d' w',
    NoDup xs.*2 → (∀ x, x ∈ xs.*2 → x ∉ P) → enrolment_inv d P →
    foldM (assign_student program_name num_courses num_courses_taken course_numbers) d xs w
    = (Ok d', w') →
    same_files w w' ∧ d'.*1 = d.*1 ∧ enrolment_inv d' (xs.*2 ++ P).
Proof.
  induction xs as [|[i sid] xs IH]; intros P d w d' w' Hnd HP Hinv H.
  - simpl in H. run_inv. by subst.
  - change (foldM ?f d ((i, sid) :: xs)) with (bind (f d (i, sid)) (λ s, foldM f s xs)) in H.
    apply bind_Ok in H as (d1 & w1 & Hr & H).
    simpl in Hnd. apply NoDup_cons in Hnd as [Hsid Hnd].
    apply (assign_student_Ok P) in Hr as (Hf & Hkeys & Hinv'); [|apply HP; left|done].
    apply (IH (sid :: P)) in H as (Hf' & Hkeys' & Hinv''); [|done| |done].
    + split; [by eapply same_files_trans|]. split; [congruence|].
      intros k l Hk. destruct (Hinv'' k l Hk) as [? Hx]. split; [done|].
      intros x Hxl. apply Hx in Hxl. simpl.
      apply elem_of_app in Hxl as [?|[->|?]%elem_of_cons].
      * right. apply elem_of_app. by left.
      * left.
      * right. apply elem_of_app. by right.
    + intros x Hx. apply not_elem_of_cons. split; [by intros ->|]. apply HP. by right.
Qed.

End Enrolment.

(** * Step 6: withdrawals and course files *)

Section Withdrawals.

Lemma withdrawal_count_Ok (n : nat) (rate : spec_float) c w w' :
  withdrawal_count n rate w = (Ok c, w') →
  w' = w ∧ Float.trunc (Float.mul (Float.of_int (Z.of_nat n)) rate) = Some c.
Proof.
  unfold withdrawal_count.
  destruct (Float.mul (Float.of_int (Z.of_nat n)) rate); intros H; run_inv; by subst.
Qed.

(** The four writing statements of step 6 leave the file with the count
    line followed by the two blocks. *)
Lemma write_course_block {B} (name first : string) (l1 l2 : list Z) (k : M B) w fs :
  dir w = Some fs →
  bind (Os.open_write name) (λ _,
    bind (Os.write name first) (λ _,
      bind (for_each l1 (λ x, Os.write name (Py.str x +:+ nl))) (λ _,
        bind (for_each l2 (λ x, Os.write name (Py.str x +:+ nl))) (λ _, k)))) w
  = k (World (tape w)
         (Some (<[name := first +:+ unlines (int_lines (l1 ++ l2))]> fs)) (stdout w)).
Proof.
  intros Hd.
  rewrite (bind_step _ _ _ _ _ (open_write_eq name w fs Hd)).
  erewrite bind_step; [|by eapply write_eq; [|apply lookup_insert_eq]].
  erewrite bind_step; [|by eapply for_each_write; [|apply lookup_insert_eq]].
  erewrite bind_step; [|by eapply for_each_write; [|apply lookup_insert_eq]].
  simpl. rewrite !insert_insert_eq. unfold int_lines. rewrite fmap_app, unlines_app.
  change (EmptyString +:+ first) with first. by rewrite !app_assoc_s.
Qed.

Lemma withdraw_course_Ok rate_range (item : string * list Z) r w w' fs :
  dir w = Some fs →
  withdraw_course rate_range item w = (Ok r, w') →
  split_ok rate_range item r ∧
  dir w' = Some (<[course_file item.1 := course_file_text r]> fs) ∧ stdout w' = stdout w.
Proof.
  intros Hd H. destruct item as [course_name enrolled]. unfold withdraw_course in H.
  unfold mbind, M_bind in H.
  apply bind_Ok in H as (rate & w1 & Hrate & H).
  apply bind_Ok in H as (c & w2 & Hc & H).
  apply bind_Ok in H as (withdrawn & w3 & Hs & H).
  apply withdrawal_count_Ok in Hc as [-> Hc].
  apply sample_Ok in Hs as ([Hd3 Ho3] & Hrange & Hlen & Hrest).
  assert (same_files w w1 ∧ ∃ k, 0 ≤ k < 2 ^ 53 ∧ rate = uniform_value rate_range.1 rate_range.2 k)
    as [[Hd1 Ho1] Hk].
  { unfold Random.uniform, Random.random, Random.randbelow in Hrate. run_inv. subst.
    apply draw_Ok in Hr1 as [? _]. split; [done|].
    eexists; split; [|done]. by apply Z.mod_pos_bound. }
  rewrite (write_course_block _ _ _ _ _ w3 fs) in H by congruence.
  apply ret_Ok in H as [<- <-]. simpl.
  split; [by constructor|]. split; [done|congruence].
Qed.

Lemma withdraw_all_Ok rate_range (items : list (string * list Z)) :
  ∀ rs w w' fs,
    dir w = Some fs →
    mapM (withdraw_course rate_range) items w = (Ok rs, w') →
    Forall2 (split_ok rate_range) items rs ∧
    dir w' = Some (with_course_files fs rs) ∧ stdout w' = stdout w.
Proof.
  induction items as [|item items IH]; intros rs w w' fs Hd H.
  - simpl in H. run_inv. subst. done.
  - change (mapM ?f (item :: items)) with
      (bind (f item) (λ y, bind (mapM f items) (λ ys, ret (y :: ys)))) in H.
    apply bind_Ok in H as (r & w1 & Hr & H).
    apply bind_Ok in H as (rs' & w2 & Hrs & H).
    apply ret_Ok in H as [<- <-].
    eapply withdraw_course_Ok in Hr as (Hok & Hd1 & Ho1); [|done].
    eapply IH in Hrs as (Hoks & Hd2 & Ho2); [|done].
    split; [by constructor|]. split; [|congruence].
    rewrite Hd2. unfold with_course_files. simpl. by rewrite (split_course _ _ _ Hok).
Qed.

Lemma with_course_files_lookup (rs : list withdrawal) :
  NoDup (w_course <$> rs) →
  ∀ fs,
    (∀ r, r ∈ rs → with_course_files fs rs !! course_file (w_course r) = Some (course_file_text r))
    ∧ (∀ name, name ∉ (course_file ∘ w_course) <$> rs → with_course_files fs rs !! name = fs !! name).
Proof.
  induction rs as [|r rs IH]; intros Hnd fs.
  - split; [by intros r ?%elem_of_nil|done].
  - apply NoDup_cons in Hnd as [Hr Hnd]. destruct (IH Hnd
      (<[course_file (w_course r) := course_file_text r]> fs)) as [IH1 IH2].
    split.
    + intros r' [->|Hin]%elem_of_cons; [|by apply IH1].
      unfold with_course_files. simpl. fold (with_course_files
        (<[course_file (w_course r) := course_file_text r]> fs) rs).
      rewrite IH2; [apply lookup_insert_eq|].
      intros (r' & Heq & Hin)%list_elem_of_fmap. simpl in Heq.
      apply course_file_inj in Heq. apply Hr. apply list_elem_of_fmap. eauto.
    + intros name Hname. apply not_elem_of_cons in Hname as [Hne Hname].
      unfold with_course_files. simpl. fold (with_course_files
        (<[course_file (w_course r) := course_file_text r]> fs) rs).
      rewrite IH2 by done. by rewrite lookup_insert_ne.
Qed.

End Withdrawals.

(** * Step 7: the summary *)

Section Summary.

Lemma sorted_Permutation (l : list Z) : Py.sorted l ≡ₚ l.
Proof. apply merge_sort_Permutation. Qed.

Lemma sorted_Sorted (l : list Z) : Sorted Z.le (Py.sorted l).
Proof. apply Sorted_merge_sort. intros x y. lia. Qed.

Lemma sorted_length (l : list Z) : length (Py.sorted l) = length l.
Proof. by rewrite sorted_Permutation. Qed.

Lemma sorted_id (l : list Z) : Sorted Z.le l → Py.sorted l = l.
Proof.
  intros Hl. apply (Sorted_unique Z.le); [apply sorted_Sorted|done|apply sorted_Permutation].
Qed.

Lemma Forall_filter_keep {A} (P Q : A → Prop) `{∀ x, Decision (Q x)} (l : list A) :
  Forall P l → Forall P (filter Q l).
Proof.
  rewrite !Forall_forall. intros Hl x Hx. apply list_elem_of_filter in Hx as [_ Hx]. auto.
Qed.

Lemma filter_ext_elem_of {A} (P Q : A → Prop) `{∀ x, Decision (P x)} `{∀ x, Decision (Q x)}
    (l : list A) :
  (∀ x, x ∈ l → P x ↔ Q x) → filter P l = filter Q l.
Proof.
  induction l as [|x l IH]; intros HPQ; [done|].
  rewrite !filter_cons. rewrite IH by (intros; apply HPQ; by right).
  specialize (HPQ x ltac:(left)). repeat case_decide; tauto.
Qed.

(** The file of a course reads back as its count and its two blocks, and
    the active segment cut out of it is the block of active students. *)
Lemma course_file_reads_back rate_range (item : string * list Z) (r : withdrawal) :
  split_ok rate_range item r → Forall (λ n, 0 ≤ n) item.2 →
  parse_course_text (course_file_text r)
  = Some (w_count r, Py.sorted (w_remaining r) ++ Py.sorted (w_withdrawn r))
  ∧ active_segment (w_count r) (Py.sorted (w_remaining r) ++ Py.sorted (w_withdrawn r))
    = Py.sorted (w_remaining r).
Proof.
  intros [_ _ _ _ Hrange Hlen [rest Hrest] Hrem] Hpos. split.
  - apply parse_course_text_written; [lia|].
    apply Forall_app. split.
    + rewrite sorted_Permutation, Hrem. by apply Forall_filter_keep.
    + rewrite sorted_Permutation. rewrite <- Hrest in Hpos. by apply Forall_app in Hpos as [? _].
  - unfold active_segment, Py.slice_to. rewrite length_app, !sorted_length.
    destruct (Z.ltb_spec (Z.of_nat (length (w_remaining r) + length (w_withdrawn r))
                          - w_count r) 0) as [?|_]; [lia|].
    replace (Z.to_nat _) with (length (Py.sorted (w_remaining r)))
      by (rewrite sorted_length; lia).
    apply take_app_length.
Qed.

Lemma courses_taken_by_ext fs fs' (codes : list string) sid :
  (∀ k, k ∈ codes → fs' !! course_file k = fs !! course_file k) →
  courses_taken_by fs' codes sid = courses_taken_by fs codes sid.
Proof.
  intros H. unfold courses_taken_by. apply filter_ext_elem_of.
  intros k Hk. unfold file_active. by rewrite H.
Qed.

Lemma taken_loop (d : dict (list Z)) sid w fs :
  dir w = Some fs →
  (∀ k, k ∈ d.*1 → ∃ text r, fs !! course_file k = Some text ∧ parse_course_text text = Some r) →
  ∀ acc,
    foldM (λ courses_taken item,
        let course_name : string := item.1 in
        bind (read_course_file (course_name +:+ ".txt")) (λ '(num_withdrawals, all_students_in_file),
        ret (if bool_decide (sid ∈ active_segment num_withdrawals all_students_in_file)
              then courses_taken ++ [course_name] else courses_taken)))
      acc d w
    = (Ok (acc ++ courses_taken_by fs d.*1 sid), w).
Proof.
  intros Hd. induction d as [|[k l] d IH]; intros Hfiles acc.
  - simpl. by rewrite app_nil_r.
  - destruct (Hfiles k ltac:(left)) as (text & [nw all] & Hk & Hp).
    change (foldM ?f acc ((k, l) :: d)) with (bind (f acc (k, l)) (λ s, foldM f s d)).
    simpl. erewrite bind_step; [|erewrite bind_step; [|by eapply read_course_file_eq]; done].
    rewrite IH by (intros; apply Hfiles; by right).
    f_equal. f_equal. unfold courses_taken_by. rewrite filter_cons.
    assert (file_active fs k = active_segment nw all) as ->.
    { unfold file_active. rewrite Hk. simpl. by rewrite Hp. }
    case_bool_decide; case_decide; try done. by rewrite <- app_assoc.
Qed.

Lemma summarise_student_eq (d : dict (list Z)) sid w fs old :
  dir w = Some fs → fs !! summary_name = Some old →
  (∀ k, k ∈ d.*1 → ∃ text r, fs !! course_file k = Some text ∧ parse_course_text text = Some r) →
  summarise_student d sid w
  = (Ok tt, World (tape w)
              (Some (<[summary_name := old +:+ summary_line sid (courses_taken_by fs d.*1 sid)]> fs))
              (stdout w)).
Proof.
  intros Hd Hold Hfiles. unfold summarise_student, mbind, M_bind, mret, M_ret.
  erewrite bind_step; [|by apply taken_loop].
  by apply write_eq.
Qed.

Lemma summary_loop (d : dict (list Z)) (ids : list Z) :
  (∀ k, k ∈ d.*1 → course_file k ≠ summary_name) →
  ∀ w fs old,
    dir w = Some fs → fs !! summary_name = Some old →
    (∀ k, k ∈ d.*1 → ∃ text r, fs !! course_file k = Some text ∧ parse_course_text text = Some r) →
    for_each ids (summarise_student d) w
    = (Ok tt, World (tape w)
         (Some (<[summary_name :=
                   old +:+ unlines ((λ sid, summary_line sid (courses_taken_by fs d.*1 sid)) <$> ids)]> fs))
         (stdout w)).
Proof.
  intros Hne. unfold for_each. induction ids as [|sid ids IH]; intros w fs old Hd Hold Hfiles.
  - simpl. rewrite app_nil_r_s, insert_id by done. destruct w; simpl in *. by subst.
  - change (foldM ?f tt (sid :: ids)) with (bind (f tt sid) (λ s, foldM f s ids)).
    erewrite bind_step; [|by apply summarise_student_eq].
    erewrite IH; [|done|apply lookup_insert_eq|].
    + simpl. rewrite insert_insert_eq. rewrite app_assoc_s.
      rewrite (list_fmap_ext _ (λ sid0, summary_line sid0 (courses_taken_by fs d.*1 sid0)) ids);
        [done|].
      intros _ x _. f_equal.
      apply courses_taken_by_ext. intros k Hk. apply lookup_insert_ne. by apply not_eq_sym, Hne.
    + intros k Hk. rewrite lookup_insert_ne by (by apply not_eq_sym, Hne). by apply Hfiles.
Qed.

End Summary.

(** * A completed run of the generator *)

Section Generator.

Lemma split_ok_courses rate_range (items : list (string * list Z)) (rs : list withdrawal) :
  Forall2 (split_ok rate_range) items rs → w_course <$> rs = items.*1.
Proof.
  induction 1 as [|item r items rs Hok _ IH]; [done|].
  rewrite !fmap_cons, IH. by rewrite (split_course _ _ _ Hok).
Qed.

Lemma split_ok_of_key rate_range (items : list (string * list Z)) (rs : list withdrawal) k :
  Forall2 (split_ok rate_range) items rs → k ∈ items.*1 →
  ∃ l r, (k, l) ∈ items ∧ r ∈ rs ∧ split_ok rate_range (k, l) r.
Proof.
  intros HF ([k' l] & -> & Hin)%list_elem_of_fmap.
  apply list_elem_of_lookup in Hin as [i Hi].
  destruct (Forall2_lookup_l _ _ _ _ _ HF Hi) as (r & Hr & Hok).
  exists l, r. split; [by eapply list_elem_of_lookup_2|].
  split; [by eapply list_elem_of_lookup_2|done].
Qed.

Lemma split_ok_of_withdrawal rate_range (items : list (string * list Z))
    (rs : list withdrawal) r :
  Forall2 (split_ok rate_range) items rs → r ∈ rs →
  ∃ item, item ∈ items ∧ split_ok rate_range item r.
Proof.
  intros HF Hin. apply list_elem_of_lookup in Hin as [i Hi].
  destruct (Forall2_lookup_r _ _ _ _ _ HF Hi) as (item & Hitem & Hok).
  exists item. split; [by eapply list_elem_of_lookup_2|done].
Qed.

Lemma enumerate_snd {A} (l : list A) : (enumerate l).*2 = l.
Proof. unfold enumerate. apply snd_zip. by rewrite length_seq. Qed.

Lemma course_codes_NoDup p (cns : list Z) :
  NoDup cns → Forall (λ n, 0 ≤ n) cns → NoDup (course_code p <$> cns).
Proof.
  intros Hnd Hpos. apply NoDup_fmap_2_strong; [|done].
  rewrite Forall_forall in Hpos. intros x y Hx Hy. apply course_code_inj; auto.
Qed.

Lemma empty_enrollments_inv p (cns : list Z) :
  enrolment_inv ((λ n, (course_code p n, ([] : list Z))) <$> cns) [].
Proof.
  intros k l Hk. apply dict_get_Some in Hk.
  apply list_elem_of_fmap in Hk as (n & [= -> ->] & _).
  split; [constructor|]. by intros x ?%elem_of_nil.
Qed.

Theorem generate_Ok p nc ns cps rate_range od w0 L w1 :
  generate_enrollment_data_v4 p nc ns cps rate_range od w0 = (Ok L, w1) →
  generated p nc ns rate_range od w0 L w1.
Proof.
  intros H. unfold generate_enrollment_data_v4, mbind, M_bind, mret, M_ret in H.
  apply bind_Ok in H as (ex & wa & H1 & H).
  apply bind_Ok in H as ([] & wb & H2 & H).
  apply bind_Ok in H as (ids0 & wc & H3 & H).
  apply bind_Ok in H as (ids & wd & H4 & H).
  apply bind_Ok in H as (nct & we & H5 & H).
  apply bind_Ok in H as (cns0 & wf & H6 & H).
  cbv zeta in H.
  apply bind_Ok in H as (ce & wg & H7 & H).
  apply bind_Ok in H as (rs & wh & H8 & H).
  (* the directory exists from here on *)
  assert (dir wb = Some (initial_files w0) ∧ stdout wb = stdout w0) as [Hdb Hob].
  { unfold Os.path_exists in H1. injection H1 as <- <-. unfold initial_files.
    destruct w0 as [tp [fs|] out]; simpl in *.
    - by apply ret_Ok in H2 as [_ <-].
    - unfold Os.makedirs in H2. by injection H2 as <-. }
  apply distinct_randints_Ok in H3 as ([Hdc Hoc] & Hnd0 & Hrg0 & Hlen0); [|done].
  apply shuffle_Ok in H4 as ([Hdd Hod] & Hperm).
  apply (mapM_Ok_inv _ (same_files wd) (λ _ _, True)) in H5 as [[Hde Hoe] _]; [| |done].
  2:{ intros x w y w' _ Hs Hr. apply randint_Ok in Hr as [? _].
      split; [by eapply same_files_trans|done]. }
  apply distinct_randints_Ok in H6 as ([Hdf Hof] & Hndc & Hrgc & Hlenc); [|done].
  set (cns := Py.sorted cns0) in *.
  assert (NoDup cns) as Hcns by (unfold cns; by rewrite sorted_Permutation).
  assert (Forall (λ x, 1000 ≤ x ≤ 9999) cns) as Hcrange
    by (unfold cns; by rewrite sorted_Permutation).
  assert (Forall (λ n, 0 ≤ n) cns) as Hcpos
    by (eapply Forall_impl; [exact Hcrange|]; simpl; lia).
  assert (NoDup ids) as Hids by (by rewrite Hperm).
  assert (Forall (λ x, 10000000 ≤ x ≤ 99999999) ids) as Hirange by (by rewrite Hperm).
  pose proof (course_codes_NoDup p cns Hcns Hcpos) as Hcodes.
  rewrite (empty_enrollments p cns Hcodes) in H7.
  apply (assign_loop p nc nct cns Hcns Hcpos _ []) in H7 as ([Hdg Hog] & Hkeys & Hinv);
    [|rewrite enumerate_snd; done|intros x _; apply not_elem_of_nil
     |apply empty_enrollments_inv].
  rewrite enumerate_snd, app_nil_r in Hinv.
  rewrite <- list_fmap_compose in Hkeys. change (fst ∘ _) with (course_code p) in Hkeys.
  eapply withdraw_all_Ok in H8 as (Hsplits & Hdh & Hoh); [|by rewrite Hdg, Hdf, Hde, Hdd, Hdc].
  set (fsC := with_course_files (initial_files w0) rs) in *.
  assert (∀ k l, (k, l) ∈ ce → NoDup l ∧ ∀ x, x ∈ l → x ∈ ids) as Henr.
  { intros k l Hin. apply (Hinv k l). apply dict_get_elem; [by rewrite Hkeys|done]. }
  assert (∀ k, k ∈ ce.*1 → course_file k ≠ summary_name) as Hnames.
  { intros k Hk. rewrite Hkeys in Hk. apply list_elem_of_fmap in Hk as (n & -> & Hn).
    apply course_file_not_summary. rewrite Forall_forall in Hcpos. auto. }
  assert (∀ k, k ∈ ce.*1 → ∃ text r, fsC !! course_file k = Some text
                                      ∧ parse_course_text text = Some r) as Hfiles.
  { intros k Hk. destruct (split_ok_of_key _ _ _ _ Hsplits Hk) as (l & r & Hin & Hr & Hok).
    exists (course_file_text r). eexists. split.
    - rewrite <- (split_course _ _ _ Hok : w_course r = k).
      apply with_course_files_lookup; [|done].
      rewrite (split_ok_courses _ _ _ Hsplits). by rewrite Hkeys.
    - eapply course_file_reads_back; [done|]. simpl.
      apply Forall_forall. intros x Hx. apply (Henr k l Hin) in Hx.
      rewrite Forall_forall in Hirange. specialize (Hirange _ Hx). lia. }
  rewrite (bind_step _ _ _ _ _ (open_write_eq summary_name wh fsC Hdh)) in H.
  erewrite bind_step in H; [|by eapply write_eq; [|apply lookup_insert_eq]].
  erewrite bind_step in H; [|eapply (summary_loop ce ids Hnames); [done|apply lookup_insert_eq|]].
  2:{ intros k Hk. rewrite !lookup_insert_ne by (by apply not_eq_sym, Hnames). by apply Hfiles. }
  unfold Os.print in H. simpl in H. apply ret_Ok in H as [<- <-]. simpl.
  constructor; simpl; try done.
  - by rewrite Hperm.
  - unfold cns. apply sorted_Sorted.
  - unfold cns. by rewrite sorted_length.
  - f_equal. rewrite !insert_insert_eq. f_equal. unfold summary_text.
    change (EmptyString +:+ ?x) with x. f_equal. apply (f_equal unlines).
    apply list_fmap_ext. intros _ x _. f_equal. apply courses_taken_by_ext.
    intros k Hk. rewrite !lookup_insert_ne by (by apply not_eq_sym, Hnames). done.
  - congruence.
Qed.

End Generator.

(** * Floats: the withdrawal count is a floor *)

Section FloatLemmas.

Lemma pos_pow_1_l (p : positive) : (1 ^ p)%positive = 1%positive.
Proof. apply Pos2Z.inj. rewrite Pos2Z.inj_pow. apply Z.pow_1_l. lia. Qed.

Lemma to_Q_floor (m : positive) (e : Z) :
  Qfloor (Qmult (inject_Z (Z.pos m)) (Qpower 2 e)) = Z.shiftl (Z.pos m) e.
Proof.
  destruct e as [|p|p].
  - simpl Qpower. rewrite Qmult_1_r. by rewrite Qfloor_Z.
  - rewrite Z.shiftl_mul_pow2 by lia.
    rewrite <- Qfloor_Z. apply Qfloor_comp.
    rewrite inject_Z_mult. apply Qmult_comp; [reflexivity|].
    symmetry. apply (Zpower_Qpower 2 (Z.pos p)). lia.
  - rewrite Z.shiftl_div_pow2 by lia. simpl Z.opp.
    unfold Qpower. rewrite Qpower_decomp_positive.
    rewrite pos_pow_1_l. rewrite <- Pos2Z.inj_pow.
    unfold Qinv, inject_Z, Qmult, Qfloor. simpl Qnum. simpl Qden.
    change (- Z.neg p) with (Z.pos p).
    by rewrite Z.mul_1_r, Pos.mul_1_l, Pos2Z.inj_pow.
Qed.

(** Rounding keeps the sign it is given. *)
Lemma binary_round_aux_sign prec emax sx mx ex lx s m e :
  binary_round_aux prec emax sx mx ex lx = S754_finite s m e → s = sx.
Proof.
  unfold binary_round_aux.
  destruct (shr_fexp prec emax mx ex lx) as [mrs' e'].
  destruct (shr_fexp prec emax _ e' loc_Exact) as [mrs'' e''].
  destruct (shr_m mrs''); [done| |done].
  destruct (Z.leb e'' (Z.sub emax prec)); [|done]. by intros [= -> _ _].
Qed.

Lemma of_nat_sign (n : nat) s m e : Float.of_int (Z.of_nat n) = S754_finite s m e → s = false.
Proof.
  unfold Float.of_int, binary_normalize. destruct (Z.of_nat n) eqn:E; [done| |lia].
  unfold binary_round. destruct (shl_align _ _ _) as [mz ez].
  apply binary_round_aux_sign.
Qed.

Lemma mul_of_nat_sign (n : nat) (rate : spec_float) s m e :
  Float.nonneg rate = true →
  Float.mul (Float.of_int (Z.of_nat n)) rate = S754_finite s m e → s = false.
Proof.
  intros Hr H. pose proof (of_nat_sign n) as Hn.
  destruct (Float.of_int (Z.of_nat n)) as [sx|sx| |sx mx ex], rate as [sy|sy| |sy my ey];
    try done.
  unfold Float.mul, SFmul in H. apply binary_round_aux_sign in H.
  rewrite (Hn sx mx ex eq_refl) in H. simpl in Hr. apply negb_true_iff in Hr. by subst.
Qed.

(** For a rate that is not negative, [int(len * rate)] is the floor of the
    product. *)
Lemma trunc_mul_floor (n : nat) (rate : spec_float) (c : Z) :
  Float.nonneg rate = true →
  Float.trunc (Float.mul (Float.of_int (Z.of_nat n)) rate) = Some c →
  c = Qfloor (Float.to_Q (Float.mul (Float.of_int (Z.of_nat n)) rate)).
Proof.
  intros Hr H. pose proof (mul_of_nat_sign n rate) as Hs.
  destruct (Float.mul (Float.of_int (Z.of_nat n)) rate) as [s|s| |s m e]; try done.
  - by injection H as <-.
  - rewrite (Hs s m e Hr eq_refl) in *. injection H as <-.
    symmetry. apply to_Q_floor.
Qed.

Lemma shr_1_nonneg (mrs : shr_record) : 0 ≤ shr_m mrs → 0 ≤ shr_m (shr_1 mrs).
Proof.
  destruct mrs as [m r s]. simpl. intros Hm.
  destruct m as [|[p|p|]|[p|p|]]; simpl; lia.
Qed.

Lemma iter_pos_preserves {A} (P : A → Prop) (f : A → A) :
  (∀ x, P x → P (f x)) → ∀ p x, P x → P (SpecFloat.iter_pos f p x).
Proof.
  intros Hf. induction p as [p IH|p IH|]; intros x Hx; simpl; auto.
Qed.

Lemma shr_fexp_nonneg prec emax m e l :
  0 ≤ m → 0 ≤ shr_m (shr_fexp prec emax m e l).1.
Proof.
  intros Hm. unfold shr_fexp, shr.
  assert (0 ≤ shr_m (shr_record_of_loc m l)) as H0 by (by destruct l as [|[]]).
  destruct (Z.sub _ _); simpl; [done| |done].
  by apply iter_pos_preserves; [apply shr_1_nonneg|].
Qed.

Lemma round_nearest_even_nonneg m l : 0 ≤ m → 0 ≤ round_nearest_even m l.
Proof.
  intros Hm. unfold round_nearest_even. destruct l as [|[]]; try lia.
  destruct (Z.even m); lia.
Qed.

(** Rounding a magnitude under a clear sign bit gives a float with a clear
    sign bit. *)
Lemma binary_round_aux_nonneg prec emax mx ex lx :
  0 ≤ mx → Float.nonneg (binary_round_aux prec emax false mx ex lx) = true.
Proof.
  intros Hm. unfold binary_round_aux.
  pose proof (shr_fexp_nonneg prec emax mx ex lx Hm) as H1.
  destruct (shr_fexp prec emax mx ex lx) as [mrs' e']. simpl in H1.
  pose proof (shr_fexp_nonneg prec emax _ e' loc_Exact
                (round_nearest_even_nonneg _ (loc_of_shr_record mrs') H1)) as H2.
  destruct (shr_fexp prec emax _ e' loc_Exact) as [mrs'' e'']. simpl in H2.
  destruct (shr_m mrs''); [done| |lia]. by destruct (Z.leb _ _).
Qed.

Lemma binary_normalize_nonneg prec emax m e : 0 ≤ m →
  Float.nonneg (binary_normalize prec emax m e false) = true.
Proof.
  intros Hm. unfold binary_normalize. destruct m as [|p|p]; [done| |lia].
  unfold binary_round. destruct (shl_align _ _ _). by apply binary_round_aux_nonneg.
Qed.

(** Drawn from a range that does not start below zero and has no negative
    width, a rate has a clear sign bit, unless it is not a number. *)
Lemma uniform_value_sign (lo hi : spec_float) (k : Z) :
  Float.nonneg lo = true → Float.nonneg (Float.sub hi lo) = true → 0 ≤ k →
  Float.nonneg (uniform_value lo hi k) = true ∨ uniform_value lo hi k = S754_nan.
Proof.
  intros Hlo Hd Hk. unfold uniform_value.
  pose proof (binary_normalize_nonneg Float.prec Float.emax k (-53) Hk) as Hu.
  destruct (binary_normalize Float.prec Float.emax k (-53) false) as [[]|[]| |[] mu eu];
    try done;
    destruct (Float.sub hi lo) as [[]|[]| |[] md ed]; try done;
    destruct lo as [[]|[]| |[] ml el]; try done; simpl; auto.
  all: pose proof (binary_round_aux_nonneg Float.prec Float.emax
                     (Z.pos (md * mu)) (ed + eu) loc_Exact ltac:(lia)) as Hp;
    destruct (binary_round_aux _ _ _ _ _ _) as [[]|[]| |[] mp ep]; try done; simpl; auto.
  left.
  apply (binary_normalize_nonneg Float.prec Float.emax
           (Z.pos ((shl_align ml el (Z.min el ep)).1 + (shl_align mp ep (Z.min el ep)).1))).
  lia.
Qed.

(** For a rate drawn from such a range, [int(len * rate)] is the floor of
    the product. *)
Lemma trunc_mul_uniform_floor (n : nat) (lo hi : spec_float) (k c : Z) :
  Float.nonneg lo = true → Float.nonneg (Float.sub hi lo) = true → 0 ≤ k →
  Float.trunc (Float.mul (Float.of_int (Z.of_nat n)) (uniform_value lo hi k)) = Some c →
  c = Qfloor (Float.to_Q (Float.mul (Float.of_int (Z.of_nat n)) (uniform_value lo hi k))).
Proof.
  intros Hlo Hd Hk H.
  destruct (uniform_value_sign lo hi k Hlo Hd Hk) as [Hnn|Hnan];
    [by apply trunc_mul_floor|].
  rewrite Hnan in H. by destruct (Float.of_int (Z.of_nat n)).
Qed.

End FloatLemmas.

(** * The split of a course into withdrawn and active students *)

Section Split.

Lemma filter_none {A} (P : A → Prop) `{∀ x, Decision (P x)} (l : list A) :
  (∀ x, x ∈ l → ¬ P x) → filter P l = [].
Proof.
  induction l as [|x l IH]; intros Hl; [done|].
  rewrite filter_cons_False by (apply Hl; left). apply IH. intros; apply Hl; by right.
Qed.

Lemma filter_all {A} (P : A → Prop) `{∀ x, Decision (P x)} (l : list A) :
  (∀ x, x ∈ l → P x) → filter P l = l.
Proof.
  induction l as [|x l IH]; intros Hl; [done|].
  rewrite filter_cons_True by (apply Hl; left). f_equal. apply IH. intros; apply Hl; by right.
Qed.

(** Taken at distinct positions out of a list without repetition, the
    withdrawn students and the others make up the enrolment. *)
Lemma split_partition (enrolled withdrawn rest : list Z) :
  NoDup enrolled → withdrawn ++ rest ≡ₚ enrolled →
  withdrawn ++ filter (λ sid, sid ∉ withdrawn) enrolled ≡ₚ enrolled.
Proof.
  intros Hnd Hperm. rewrite <- Hperm at 2. apply Permutation_app_head.
  rewrite <- Hperm. rewrite <- Hperm in Hnd. apply NoDup_app in Hnd as (_ & Hdisj & _).
  rewrite filter_app, filter_none, filter_all; [done| |].
  - intros x Hx Hw. by apply (Hdisj x).
  - intros x Hx Hw. by apply Hw.
Qed.

End Split.

(** * Properties of the generated data *)

Section GeneratedData.

Lemma generated_files p nc ns rr od w0 L w1 fs :
  generated p nc ns rr od w0 L w1 → dir w1 = Some fs →
  (∀ r, r ∈ withdrawals L → fs !! course_file (w_course r) = Some (course_file_text r))
  ∧ w_course <$> withdrawals L = course_code p <$> course_numbers L
  ∧ ∀ r, r ∈ withdrawals L →
      NoDup (w_enrolled r) ∧ Forall (λ x, 10000000 ≤ x ≤ 99999999) (w_enrolled r)
      ∧ (w_course r, w_enrolled r) ∈ course_enrollments L
      ∧ split_ok rr (w_course r, w_enrolled r) r.
Proof.
  intros G Hfs. rewrite (gen_dir _ _ _ _ _ _ _ _ G) in Hfs. injection Hfs as <-.
  pose proof (split_ok_courses _ _ _ (gen_splits _ _ _ _ _ _ _ _ G)) as Hcourses.
  rewrite (gen_codes _ _ _ _ _ _ _ _ G) in Hcourses.
  assert (Forall (λ n, 0 ≤ n) (course_numbers L)) as Hpos.
  { eapply Forall_impl; [apply (gen_courses_range _ _ _ _ _ _ _ _ G)|]. simpl. lia. }
  split; [|split; [done|]].
  - intros r Hr. rewrite lookup_insert_ne.
    + apply with_course_files_lookup; [|done]. rewrite Hcourses.
      apply course_codes_NoDup; [apply (gen_courses_NoDup _ _ _ _ _ _ _ _ G)|done].
    + assert (w_course r ∈ course_code p <$> course_numbers L) as Hc
        by (rewrite <- Hcourses; apply list_elem_of_fmap; eauto).
      apply list_elem_of_fmap in Hc as (n & -> & Hn). apply not_eq_sym.
      apply course_file_not_summary. rewrite Forall_forall in Hpos. auto.
  - intros r Hr.
    destruct (split_ok_of_withdrawal _ _ _ _ (gen_splits _ _ _ _ _ _ _ _ G) Hr)
      as ([k l] & Hin & Hok).
    rewrite (split_course _ _ _ Hok), (split_enrolled _ _ _ Hok). simpl.
    destruct (gen_enrolled _ _ _ _ _ _ _ _ G k l Hin) as [Hnd Hsub].
    split; [done|]. split; [|done].
    apply Forall_forall. intros x Hx. apply Hsub in Hx.
    pose proof (gen_ids_range _ _ _ _ _ _ _ _ G) as Hr'. rewrite Forall_forall in Hr'. auto.
Qed.

(** The tape that counts upwards lets the loop of step 1 end, whenever the
    number of students fits the space of 8-digit identifiers. *)
Lemma student_id_loop_terminates (ns : Z) d out :
  0 ≤ ns ≤ 90000000 →
  ∃ ids w', distinct_randints 10000000 99999999 ns (World (seqZ 0 ns) d out) = (Ok ids, w').
Proof.
  intros Hns. unfold distinct_randints.
  pose proof (draw_distinct_counting 10000000 99999999 (Z.to_nat ns) 0 ltac:(lia)) as H.
  rewrite Nat.add_0_l, Z2Nat.id in H by lia.
  change (Z.of_nat 0) with 0 in H. change (_ <$> seqZ 0 0) with (@nil Z) in H.
  cbn [tape]. rewrite H. eauto.
Qed.

(** C5: every completed run of the generator leaves a list of student
    identifiers that has exactly [num_students] entries, all of them 8-digit
    numbers between 10,000,000 and 99,999,999, no two of them equal. *)
Theorem student_ids_generated p nc ns cps rr od w0 L w1 :
  0 ≤ ns →
  generate_enrollment_data_v4 p nc ns cps rr od w0 = (Ok L, w1) →
  Z.of_nat (length (student_ids L)) = ns
  ∧ Forall (λ x, 10000000 ≤ x ≤ 99999999) (student_ids L)
  ∧ NoDup (student_ids L).
Proof.
  intros Hns G%generate_Ok. split; [|split].
  - rewrite (gen_ids_length _ _ _ _ _ _ _ _ G). lia.
  - apply (gen_ids_range _ _ _ _ _ _ _ _ G).
  - apply (gen_ids_NoDup _ _ _ _ _ _ _ _ G).
Qed.

Lemma student_ids_generated_witness :
  Z.of_nat (length (student_ids example_locals)) = 3
  ∧ Forall (λ x, 10000000 ≤ x ≤ 99999999) (student_ids example_locals)
  ∧ NoDup (student_ids example_locals).
Proof.
  apply (student_ids_generated "INFO" 3 3 (1, 2) example_rates "out"
           example_world example_locals example_after); [lia|].
  vm_compute. reflexivity.
Defined.

(** C10: in every completed run, the enrolment list of every course holds
    each student at most once; hence the withdrawn students together with
    the remaining ones are a rearrangement of the enrolment, and the
    identifier lines of every course file are free of repetition. *)
Theorem enrollment_lists_unique p nc ns cps rr od w0 L w1 fs :
  generate_enrollment_data_v4 p nc ns cps rr od w0 = (Ok L, w1) →
  dir w1 = Some fs →
  (∀ course enrolled, (course, enrolled) ∈ course_enrollments L → NoDup enrolled)
  ∧ (∀ r, r ∈ withdrawals L → w_withdrawn r ++ w_remaining r ≡ₚ w_enrolled r)
  ∧ (∀ r, r ∈ withdrawals L →
       ∃ count ids, fs !! course_file (w_course r) ≫= parse_course_text = Some (count, ids)
                    ∧ NoDup ids).
Proof.
  intros G%generate_Ok Hfs. destruct (generated_files _ _ _ _ _ _ _ _ _ G Hfs) as (Hf & _ & Hr).
  assert (∀ r, r ∈ withdrawals L → w_withdrawn r ++ w_remaining r ≡ₚ w_enrolled r) as Hpart.
  { intros r Hin. destruct (Hr r Hin) as (Hnd & _ & _ & Hok).
    destruct (split_sample _ _ _ Hok) as [rest Hrest].
    rewrite (split_remaining _ _ _ Hok). by eapply split_partition. }
  split; [|split; [done|]].
  - intros course enrolled Hin. by apply (gen_enrolled _ _ _ _ _ _ _ _ G course enrolled).
  - intros r Hin. destruct (Hr r Hin) as (Hnd & Hrange & _ & Hok).
    exists (w_count r), (Py.sorted (w_remaining r) ++ Py.sorted (w_withdrawn r)).
    rewrite (Hf r Hin). simpl. split.
    + eapply course_file_reads_back; [done|]. simpl.
      eapply Forall_impl; [done|]. simpl. lia.
    + rewrite !sorted_Permutation. rewrite Permutation_app_comm. by rewrite (Hpart r Hin).
Qed.

Lemma enrollment_lists_unique_witness :
  (∀ course enrolled, (course, enrolled) ∈ course_enrollments example_locals → NoDup enrolled)
  ∧ (∀ r, r ∈ withdrawals example_locals → w_withdrawn r ++ w_remaining r ≡ₚ w_enrolled r)
  ∧ (∀ r, r ∈ withdrawals example_locals →
       ∃ count ids,
         example_files !! course_file (w_course r) ≫= parse_course_text = Some (count, ids)
         ∧ NoDup ids).
Proof.
  apply (enrollment_lists_unique "INFO" 3 3 (1, 2) example_rates "out"
           example_world example_locals example_after example_files).
  - vm_compute. reflexivity.
  - reflexivity.
Defined.





End GeneratedData.

(** * File names as the matrix builder sees them *)

Section Discovery.

Lemma startswith_app (p x : string) : Py.startswith (p +:+ x) p = true.
Proof.
  unfold Py.startswith. induction p as [|c p IH]; [by destruct x|].
  rewrite app_cons_s. simpl. by destruct (ascii_dec c c).
Qed.

Lemma substring_skip (a s : string) (n m : nat) :
  String.substring (String.length a + n) m (a +:+ s) = String.substring n m s.
Proof. induction a as [|c a IH]; [done|]. rewrite app_cons_s. simpl. apply IH. Qed.

Lemma substring_prefix (a b : string) : String.substring 0 (String.length a) (a +:+ b) = a.
Proof.
  induction a as [|c a IH]; [by destruct b|]. rewrite app_cons_s. simpl. by rewrite IH.
Qed.

Lemma endswith_app (x s : string) : Py.endswith (x +:+ s) s = true.
Proof.
  unfold Py.endswith. rewrite length_app_s. apply andb_true_iff. split.
  - apply Nat.leb_le. lia.
  - replace (String.length x + String.length s - String.length s)%nat
      with (String.length x + 0)%nat by lia.
    rewrite substring_skip. rewrite <- (app_nil_r_s s) at 2.
    rewrite substring_prefix. apply String.eqb_refl.
Qed.

Lemma course_file_like p (n : Z) : course_like p (course_file (course_code p n)) = true.
Proof.
  unfold course_like, course_file, course_code. rewrite app_assoc_s.
  by rewrite startswith_app, <- app_assoc_s, endswith_app.
Qed.

Lemma course_file_middle p (n : Z) : middle p (course_file (course_code p n)) = Py.str n.
Proof.
  unfold middle, Py.slice_mid, course_file, course_code. rewrite app_assoc_s.
  rewrite !length_app_s. simpl String.length.
  replace (String.length p + (String.length (Py.str n) + 4) - 4 - String.length p)%nat
    with (String.length (Py.str n)) by lia.
  rewrite <- (Nat.add_0_r (String.length p)) at 1.
  rewrite substring_skip. apply substring_prefix.
Qed.

Lemma elem_of_names_of (fs : gmap string string) name :
  name ∈ names_of fs ↔ is_Some (fs !! name).
Proof.
  unfold names_of. rewrite list_elem_of_fmap. split.
  - intros ([k v] & -> & Hin). apply elem_of_map_to_list in Hin. eauto.
  - intros [v Hv]. exists (name, v). split; [done|]. by apply elem_of_map_to_list.
Qed.

Lemma mapM_try {A B} (f : A → option B) (e : exn) (l : list A) w :
  mapM (λ x, try (f x) e) l w
  = match mapM f l with Some ys => (Ok ys, w) | None => (Raise e, w) end.
Proof.
  induction l as [|x l IH]; [done|].
  change (mapM (λ x, try (f x) e) (x :: l))
    with (bind (try (f x) e) (λ y, bind (mapM (λ x, try (f x) e) l) (λ ys, ret (y :: ys)))).
  simpl. destruct (f x) as [y|]; simpl; [|done].
  unfold bind at 1. unfold ret at 1. unfold bind. rewrite IH.
  by destruct (mapM f l).
Qed.

(** Lines 95 to 99 in one equation. *)
Lemma discover_courses_eq p w fs :
  dir w = Some fs →
  discover_courses p w
  = match mapM Py.int (middle p <$> filter (λ name, course_like p name) (names_of fs)) with
    | Some cols => (Ok (Py.sorted cols), w)
    | None => (Raise ValueError, w)
    end.
Proof.
  intros Hd. unfold discover_courses, mbind, M_bind, mret, M_ret.
  erewrite bind_step; [|unfold Os.listdir; by rewrite Hd].
  unfold bind. rewrite mapM_try. fold (names_of fs).
  change (λ filename : string, Py.slice_mid filename (String.length p) 4) with (middle p).
  change (λ filename : string, Is_true (Py.startswith filename p && Py.endswith filename ".txt"))
    with (λ name : string, Is_true (course_like p name)).
  by destruct (mapM Py.int _).
Qed.

End Discovery.

(** * The matrix builder on a generated directory *)

Section Builder.

Lemma mapM_total {A B} (f : A → option B) (d : B) (l : list A) :
  Forall (λ x, is_Some (f x)) l → mapM f l = Some ((λ x, default d (f x)) <$> l).
Proof.
  intros H. apply mapM_Some_2. induction H as [|x l [y Hy] _ IH]; [constructor|].
  rewrite fmap_cons. constructor; [|done]. by rewrite Hy.
Qed.

Lemma fmap_id_Forall {A} (g : A → A) (l : list A) : Forall (λ x, g x = x) l → g <$> l = l.
Proof. induction 1 as [|x l Hx _ IH]; [done|]. by rewrite fmap_cons, Hx, IH. Qed.

Lemma generated_names p nc ns rr od w0 L w1 fs name :
  generated p nc ns rr od w0 L w1 → dir w1 = Some fs →
  is_Some (fs !! name) →
  name = summary_name
  ∨ name ∈ (course_file ∘ course_code p) <$> course_numbers L
  ∨ is_Some (initial_files w0 !! name).
Proof.
  intros G Hfs Hname. rewrite (gen_dir _ _ _ _ _ _ _ _ G) in Hfs. injection Hfs as <-.
  destruct (decide (name = summary_name)) as [|Hne]; [by left|right].
  rewrite lookup_insert_ne in Hname by done.
  pose proof (split_ok_courses _ _ _ (gen_splits _ _ _ _ _ _ _ _ G)) as Hcourses.
  rewrite (gen_codes _ _ _ _ _ _ _ _ G) in Hcourses.
  destruct (decide (name ∈ (course_file ∘ course_code p) <$> course_numbers L)) as [|Hnc];
    [by left|right].
  rewrite list_fmap_compose, <- Hcourses, <- list_fmap_compose in Hnc.
  destruct (with_course_files_lookup (withdrawals L)) with (fs := initial_files w0) as [_ H2].
  - rewrite Hcourses. apply course_codes_NoDup; [apply (gen_courses_NoDup _ _ _ _ _ _ _ _ G)|].
    eapply Forall_impl; [apply (gen_courses_range _ _ _ _ _ _ _ _ G)|]. simpl. lia.
  - by rewrite <- H2.
Qed.

Lemma generated_course_file p nc ns rr od w0 L w1 fs n :
  generated p nc ns rr od w0 L w1 → dir w1 = Some fs → n ∈ course_numbers L →
  ∃ r, r ∈ withdrawals L ∧ w_course r = course_code p n
       ∧ fs !! course_file (course_code p n) = Some (course_file_text r)
       ∧ parse_course_text (course_file_text r)
         = Some (w_count r, Py.sorted (w_remaining r) ++ Py.sorted (w_withdrawn r))
       ∧ file_active fs (course_code p n) = Py.sorted (w_remaining r).
Proof.
  intros G Hfs Hn. destruct (generated_files _ _ _ _ _ _ _ _ _ G Hfs) as (Hf & Hcourses & Hr).
  assert (course_code p n ∈ w_course <$> withdrawals L) as Hc
    by (rewrite Hcourses; apply list_elem_of_fmap; eauto).
  apply list_elem_of_fmap in Hc as (r & Hcode & Hin).
  destruct (Hr r Hin) as (_ & Hrange & _ & Hok).
  destruct (course_file_reads_back _ _ _ Hok) as [Hparse Hact].
  { simpl. eapply Forall_impl; [done|]. simpl. lia. }
  exists r. split; [done|]. split; [done|]. rewrite Hcode, (Hf r Hin).
  split; [done|]. split; [done|]. unfold file_active. rewrite (Hf r Hin). simpl.
  by rewrite Hparse.
Qed.

(** On a directory written by the generator, with nothing else in it that
    looks like a course file, the builder finds the course numbers of the
    run. *)
Lemma discover_generated p nc ns rr od w0 L w1 fs :
  generated p nc ns rr od w0 L w1 → dir w1 = Some fs →
  Py.startswith summary_name p = false →
  no_course_like p (initial_files w0) →
  discover_courses p w1 = (Ok (course_numbers L), w1).
Proof.
  intros G Hfs Hsum Hfresh. rewrite (discover_courses_eq p w1 fs Hfs).
  pose proof (gen_courses_NoDup _ _ _ _ _ _ _ _ G) as Hnd.
  assert (Forall (λ n, 0 ≤ n) (course_numbers L)) as Hpos.
  { eapply Forall_impl; [apply (gen_courses_range _ _ _ _ _ _ _ _ G)|]. simpl. lia. }
  assert (filter (λ name, course_like p name) (names_of fs)
          ≡ₚ (course_file ∘ course_code p) <$> course_numbers L) as Hsel.
  { apply NoDup_Permutation.
    - apply NoDup_filter, NoDup_fst_map_to_list.
    - rewrite list_fmap_compose. apply NoDup_fmap_2; [intros ??; apply course_file_inj|].
      by apply course_codes_NoDup.
    - intros name. rewrite list_elem_of_filter, elem_of_names_of. split.
      + intros [Hlike Hsome].
        destruct (generated_names _ _ _ _ _ _ _ _ _ _ G Hfs Hsome) as [->|[?|Hinit]]; [|done|].
        * unfold course_like in Hlike. rewrite Hsum in Hlike. done.
        * rewrite (Hfresh name Hinit) in Hlike. done.
      + intros (n & -> & Hn)%list_elem_of_fmap. simpl. split.
        * by rewrite course_file_like.
        * destruct (generated_course_file _ _ _ _ _ _ _ _ _ _ G Hfs Hn) as (r & _ & _ & -> & _).
          eauto. }
  assert (middle p <$> filter (λ name, course_like p name) (names_of fs)
          ≡ₚ Py.str <$> course_numbers L) as Hmid.
  { rewrite Hsel, <- list_fmap_compose.
    erewrite list_fmap_ext; [reflexivity|]. intros _ n _. apply course_file_middle. }
  rewrite (mapM_total _ 0).
  - do 2 f_equal. apply (Sorted_unique Z.le);
      [apply sorted_Sorted|apply (gen_courses_sorted _ _ _ _ _ _ _ _ G)|].
    rewrite sorted_Permutation, Hmid, <- list_fmap_compose.
    rewrite fmap_id_Forall; [done|]. eapply Forall_impl; [exact Hpos|].
    intros n Hn. simpl. by rewrite int_str.
  - rewrite Hmid. apply Forall_fmap. eapply Forall_impl; [exact Hpos|].
    intros n Hn. simpl. rewrite int_str by done. eauto.
Qed.

Lemma join_all_chars (P : ascii → bool) (sep : string) (l : list string) :
  all_chars P sep = true → Forall (λ s, all_chars P s = true) l →
  all_chars P (Py.join sep l) = true.
Proof.
  intros Hsep. induction 1 as [|x l Hx Hl IH]; [done|].
  destruct l as [|y l]; [done|].
  change (Py.join sep (x :: y :: l)) with (x +:+ sep +:+ Py.join sep (y :: l)).
  rewrite !all_chars_app, Hx, Hsep, IH. done.
Qed.

Lemma course_code_all_chars (P : ascii → bool) p (n : Z) :
  all_chars P p = true → (∀ c, Py.is_digit c = true → P c = true) → 0 ≤ n →
  all_chars P (course_code p n) = true.
Proof.
  intros Hp HP Hn. unfold course_code. rewrite all_chars_app, Hp. simpl.
  eapply all_chars_impl; [exact HP|]. by apply str_digits.
Qed.

Lemma split_comma1_digits (s rest : string) :
  all_chars Py.is_digit s = true →
  Py.split_comma1 (s +:+ String "," rest) = (s, Some rest).
Proof.
  induction s as [|c s IH]; intros Hs; [done|].
  rewrite app_cons_s. simpl in *. apply andb_true_iff in Hs as [Hc Hs].
  rewrite IH by done. destruct c as [[] [] [] [] [] [] [] []]; done.
Qed.

(** The builder recovers the student of a summary line. *)
Lemma summary_line_id (student_id : Z) (courses_taken : list string) :
  0 ≤ student_id →
  ∃ rest, Py.split_comma1 (Py.strip (summary_line student_id courses_taken))
          = (Py.str student_id, Some rest).
Proof.
  intros Hid. unfold summary_line, Py.strip.
  change ("," +:+ ?x) with (String "," x).
  rewrite rstrip_app_cons by done.
  pose proof (str_digits _ Hid) as Hd. pose proof (str_nonempty student_id) as Hne.
  destruct (Py.str student_id) as [|c s] eqn:E; [done|].
  rewrite app_cons_s, lstrip_head.
  - rewrite <- app_cons_s. eexists. by apply split_comma1_digits.
  - simpl in Hd. apply andb_true_iff in Hd as [Hc _]. by apply digit_not_space.
Qed.

Lemma summary_line_one_line p (codes : list string) (student_id : Z) (courses_taken : list string) :
  one_line p = true → 0 ≤ student_id →
  (∀ c, c ∈ courses_taken → ∃ n, 0 ≤ n ∧ c = course_code p n) →
  ∃ body, summary_line student_id courses_taken = body +:+ nl ∧ one_line body = true.
Proof.
  intros Hp Hid Hcodes. unfold summary_line.
  exists (Py.str student_id +:+ "," +:+ Py.join "," (Py.sorted_str courses_taken)).
  split; [by rewrite !app_assoc_s|].
  unfold one_line. rewrite !all_chars_app. fold (one_line (Py.str student_id)).
  rewrite digits_one_line by (by apply str_digits). simpl.
  apply join_all_chars; [done|]. apply Forall_forall. intros c Hc.
  unfold Py.sorted_str in Hc. rewrite merge_sort_Permutation in Hc.
  destruct (Hcodes c Hc) as (n & Hn & ->).
  apply course_code_all_chars; [done| |done].
  intros ch Hch. destruct ch as [[] [] [] [] [] [] [] []]; done.
Qed.

Lemma read_summary_generated p nc ns rr od w0 L w1 fs :
  generated p nc ns rr od w0 L w1 → dir w1 = Some fs →
  one_line p = true →
  read_summary_ids w1 = (Ok (Py.sorted (student_ids L)), w1).
Proof.
  intros G Hfs Hp. pose proof Hfs as Hfs'.
  rewrite (gen_dir _ _ _ _ _ _ _ _ G) in Hfs'. injection Hfs' as Hfs'.
  set (lines := (λ sid, summary_line sid
     (courses_taken_by (with_course_files (initial_files w0) (withdrawals L))
                       (course_enrollments L).*1 sid)) <$> student_ids L).
  assert (fs !! summary_name = Some (unlines (summary_header :: lines))) as Hsum.
  { rewrite <- Hfs'. apply lookup_insert_eq. }
  assert (Forall (λ n, 0 ≤ n) (student_ids L)) as Hpos.
  { eapply Forall_impl; [apply (gen_ids_range _ _ _ _ _ _ _ _ G)|]. simpl. lia. }
  assert (Py.readlines (unlines (summary_header :: lines)) = summary_header :: lines) as Hread.
  { apply readlines_unlines. constructor; [by exists "StudentID,Courses"|].
    unfold lines. apply Forall_fmap. eapply Forall_impl; [exact Hpos|].
    intros sid Hsid. simpl.
    apply (summary_line_one_line p (course_enrollments L).*1); [done..|].
    intros c [_ Hc]%list_elem_of_filter.
    rewrite (gen_codes _ _ _ _ _ _ _ _ G) in Hc.
    apply list_elem_of_fmap in Hc as (n & -> & Hn). exists n. split; [|done].
    pose proof (gen_courses_range _ _ _ _ _ _ _ _ G) as Hr. rewrite Forall_forall in Hr.
    specialize (Hr n Hn). lia. }
  unfold read_summary_ids, mbind, M_bind, mret, M_ret.
  rewrite (bind_step _ _ _ _ _ (read_text_eq _ _ _ _ Hfs Hsum)). rewrite Hread.
  erewrite bind_step.
  2:{ apply (mapM_pure _ (λ line, default 0 (Py.int (Py.split_comma1 (Py.strip line)).1))).
      intros line Hline. unfold lines in Hline.
      apply list_elem_of_fmap in Hline as (sid & -> & Hsid).
      rewrite Forall_forall in Hpos. specialize (Hpos sid Hsid).
      destruct (summary_line_id sid (courses_taken_by
        (with_course_files (initial_files w0) (withdrawals L))
        (course_enrollments L).*1 sid) Hpos) as [rest ->].
      simpl. by rewrite int_str. }
  unfold ret, lines. rewrite <- list_fmap_compose.
  rewrite fmap_id_Forall; [done|]. eapply Forall_impl; [exact Hpos|].
  intros sid Hsid. simpl.
  destruct (summary_line_id sid (courses_taken_by
    (with_course_files (initial_files w0) (withdrawals L))
    (course_enrollments L).*1 sid) Hsid) as [rest ->].
  simpl. by rewrite int_str.
Qed.

Lemma matrix_cell_eq p sid n w fs text r :
  dir w = Some fs → fs !! course_file (course_code p n) = Some text →
  parse_course_text text = Some r →
  matrix_cell p sid n w = (Ok (matrix_cell_text fs p sid n), w).
Proof.
  intros Hd Hf Hp. unfold matrix_cell, mbind, M_bind, mret, M_ret.
  rewrite <- app_assoc_s. fold (course_code p n). fold (course_file (course_code p n)).
  rewrite (bind_step _ _ _ _ _ (read_course_file_eq _ _ _ _ _ Hd Hf Hp)).
  destruct r as [nw all]. unfold matrix_cell_text, file_active. rewrite Hf. simpl. by rewrite Hp.
Qed.

Lemma matrix_cell_text_ext fs fs' p sid n :
  fs' !! course_file (course_code p n) = fs !! course_file (course_code p n) →
  matrix_cell_text fs' p sid n = matrix_cell_text fs p sid n.
Proof. intros H. unfold matrix_cell_text, file_active. by rewrite H. Qed.

Lemma matrix_loop p (cols rows : list Z) (fsr : gmap string string) :
  (∀ n, n ∈ cols → ∃ text r, fsr !! course_file (course_code p n) = Some text
                             ∧ parse_course_text text = Some r) →
  ∀ w fs old,
    dir w = Some fs → fs !! matrix_name = Some old →
    (∀ n, n ∈ cols → fs !! course_file (course_code p n) = fsr !! course_file (course_code p n)) →
    for_each rows (λ student_id,
      bind (mapM (matrix_cell p student_id) cols) (λ cells,
        Os.write matrix_name (Py.join "," (Py.str student_id :: cells) +:+ nl))) w
    = (Ok tt, World (tape w)
         (Some (<[matrix_name := old +:+ unlines (matrix_row fsr p cols <$> rows)]> fs))
         (stdout w)).
Proof.
  intros Hparse. unfold for_each.
  induction rows as [|sid rows IH]; intros w fs old Hd Hold Hsame.
  - simpl. rewrite app_nil_r_s, insert_id by done. destruct w; simpl in *. by subst.
  - change (foldM ?f tt (sid :: rows)) with (bind (f tt sid) (λ s, foldM f s rows)).
    erewrite bind_step.
    2:{ erewrite bind_step.
        - by apply write_eq.
        - apply (mapM_pure _ (matrix_cell_text fs p sid)). intros n Hn.
          destruct (Hparse n Hn) as (text & r & Hf & Hp).
          eapply matrix_cell_eq; [done| |done]. by rewrite Hsame. }
    assert (matrix_cell_text fs p sid <$> cols = matrix_cell_text fsr p sid <$> cols) as Hcells.
    { apply list_fmap_ext. intros i n Hn.
      apply matrix_cell_text_ext, Hsame. by eapply list_elem_of_lookup_2. }
    erewrite IH; [|done|apply lookup_insert_eq|].
    + cbn [tape dir stdout]. rewrite insert_insert_eq, app_assoc_s, Hcells. done.
    + intros n Hn. rewrite lookup_insert_ne by apply not_eq_sym, course_file_not_matrix.
      by apply Hsame.
Qed.

(** The builder, run on the directory a completed run of the generator
    has left. *)
Lemma matrix_generated p nc ns rr od w0 L w1 fs nc' od' :
  generated p nc ns rr od w0 L w1 → dir w1 = Some fs →
  one_line p = true →
  Py.startswith summary_name p = false →
  no_course_like p (initial_files w0) →
  generate_student_course_matrix_v4 p nc' od' w1
  = (Ok tt,
     World (tape w1)
       (Some (<[matrix_name := matrix_text fs p (course_numbers L) (Py.sorted (student_ids L))]> fs))
       (stdout w1 ++ ["Student-course matrix saved to: " +:+ Os.path_join od' matrix_name])).
Proof.
  intros G Hfs Hp Hsum Hfresh.
  unfold generate_student_course_matrix_v4, mbind, M_bind, mret, M_ret.
  erewrite bind_step; [|unfold Os.path_exists; by rewrite Hfs].
  rewrite bool_decide_eq_true_2 by eauto. cbn [negb].
  rewrite (bind_step _ _ _ _ _ (discover_generated _ _ _ _ _ _ _ _ _ G Hfs Hsum Hfresh)).
  rewrite (bind_step _ _ _ _ _ (read_summary_generated _ _ _ _ _ _ _ _ _ G Hfs Hp)).
  rewrite (bind_step _ _ _ _ _ (open_write_eq matrix_name w1 fs Hfs)).
  erewrite bind_step; [|by eapply write_eq; [|apply lookup_insert_eq]].
  erewrite bind_step.
  2:{ apply (matrix_loop p (course_numbers L) (Py.sorted (student_ids L)) fs).
      - intros n Hn.
        destruct (generated_course_file _ _ _ _ _ _ _ _ _ _ G Hfs Hn) as (r & _ & _ & ? & ? & _).
        eauto.
      - done.
      - apply lookup_insert_eq.
      - intros n Hn. rewrite !lookup_insert_ne by apply not_eq_sym, course_file_not_matrix.
        done. }
  unfold Os.print. cbn [tape dir stdout]. rewrite !insert_insert_eq.
  unfold matrix_text, matrix_header. change (EmptyString +:+ ?x) with x. done.
Qed.

Lemma matrix_row_one_line fs p (cols : list Z) (sid : Z) :
  0 ≤ sid →
  ∃ body, matrix_row fs p cols sid = body +:+ nl ∧ one_line body = true.
Proof.
  intros Hsid. unfold matrix_row. eexists. split; [done|].
  apply join_all_chars; [done|]. constructor.
  - by apply digits_one_line, str_digits.
  - apply Forall_fmap, Forall_forall. intros n _. simpl. unfold matrix_cell_text.
    by case_bool_decide.
Qed.

Lemma matrix_text_lines fs p (cols rows : list Z) :
  one_line p = true → Forall (λ n, 0 ≤ n) cols → Forall (λ n, 0 ≤ n) rows →
  Py.readlines (matrix_text fs p cols rows)
  = matrix_header p cols :: (matrix_row fs p cols <$> rows).
Proof.
  intros Hp Hcols Hrows. unfold matrix_text. rewrite <- unlines_cons.
  apply readlines_unlines. constructor.
  - unfold matrix_header. eexists. split; [done|].
    unfold one_line. rewrite all_chars_app. simpl.
    apply join_all_chars; [done|]. apply Forall_fmap.
    eapply Forall_impl; [exact Hcols|]. intros n Hn. simpl.
    apply course_code_all_chars; [done| |done].
    intros ch Hch. destruct ch as [[] [] [] [] [] [] [] []]; done.
  - apply Forall_fmap. eapply Forall_impl; [exact Hrows|].
    intros sid Hsid. by apply matrix_row_one_line.
Qed.



End Builder.

(** * The summary file *)

Section SummaryFile.

Lemma split_commas_acc_field (s rest cur : string) :
  comma_free s = true →
  Py.split_commas_acc cur (s +:+ String "," rest)
  = String.rev (String.rev_app s cur) :: Py.split_commas_acc EmptyString rest.
Proof.
  revert cur. induction s as [|c s IH]; intros cur Hs; [done|].
  rewrite app_cons_s. simpl in *. apply andb_true_iff in Hs as [Hc Hs].
  apply negb_true_iff in Hc. rewrite Hc. by apply IH.
Qed.

Lemma split_commas_acc_last (s cur : string) :
  comma_free s = true →
  Py.split_commas_acc cur s = [String.rev (String.rev_app s cur)].
Proof.
  revert cur. induction s as [|c s IH]; intros cur Hs; [done|].
  simpl in *. apply andb_true_iff in Hs as [Hc Hs].
  apply negb_true_iff in Hc. rewrite Hc. by apply IH.
Qed.

Lemma rev_rev_app (s : string) : String.rev (String.rev_app s EmptyString) = s.
Proof.
  unfold String.rev. rewrite rev_app_app. simpl. apply app_nil_r_s.
Qed.

(** Splitting undoes joining, for fields without comma. *)
Lemma split_commas_join (l : list string) :
  l ≠ [] → Forall (λ s, comma_free s = true) l →
  Py.split_commas (Py.join "," l) = l.
Proof.
  intros Hne Hl. unfold Py.split_commas. induction Hl as [|x l Hx Hl IH]; [done|].
  destruct l as [|y l].
  - simpl. rewrite split_commas_acc_last by done. by rewrite rev_rev_app.
  - change (Py.join "," (x :: y :: l)) with (x +:+ String "," (Py.join "," (y :: l))).
    rewrite split_commas_acc_field by done. rewrite rev_rev_app. f_equal. by apply IH.
Qed.

Lemma last_char_decompose (s : string) (c : ascii) :
  last_char s = Some c → ∃ a, s = a +:+ String c EmptyString.
Proof.
  induction s as [|x s IH]; [done|]. simpl. destruct s as [|y s].
  - intros [= ->]. by exists EmptyString.
  - intros (a & Ha)%IH. exists (String x a). rewrite app_cons_s. by rewrite <- Ha.
Qed.

Lemma rstrip_last (s ws : string) (c : ascii) :
  last_char s = Some c → Py.is_space c = false → all_chars Py.is_space ws = true →
  Py.rstrip (s +:+ ws) = s.
Proof.
  intros (a & ->)%last_char_decompose Hc Hws. rewrite app_assoc_s, app_cons_s.
  change (EmptyString +:+ ws) with ws. rewrite rstrip_app_cons by done.
  by rewrite rstrip_spaces.
Qed.

Lemma last_char_None (s : string) : last_char s = None → s = EmptyString.
Proof.
  induction s as [|c s IH]; [done|]. simpl. destruct s; [done|]. intros H. by apply IH in H.
Qed.

Lemma join_last_char (sep : string) (l : list string) (x : string) :
  x ≠ EmptyString → last_char (Py.join sep (l ++ [x])) = last_char x.
Proof.
  intros Hx. induction l as [|y l IH]; [done|].
  destruct (l ++ [x]) as [|z k] eqn:E; [by destruct l|].
  change (Py.join sep ((y :: l) ++ [x])) with (Py.join sep (y :: l ++ [x])). rewrite E.
  change (Py.join sep (y :: z :: k)) with (y +:+ sep +:+ Py.join sep (z :: k)).
  assert (Py.join sep (z :: k) ≠ EmptyString) as Hj.
  { intros H0. rewrite H0 in IH. simpl in IH. symmetry in IH. by apply last_char_None in IH. }
  rewrite !last_char_app; [done|done|].
  intros H0. apply (f_equal String.length) in H0. rewrite length_app_s in H0.
  destruct (Py.join sep (z :: k)); [done|]. simpl in H0. lia.
Qed.

(** What a reader finds on a summary line whose course codes carry no
    comma. *)
Lemma line_courses_summary_line (sid : Z) (taken : list string) :
  0 ≤ sid →
  Forall (λ c, comma_free c = true ∧ ∃ d, last_char c = Some d ∧ Py.is_digit d = true) taken →
  line_courses (Py.str sid +:+ "," +:+ Py.join "," taken +:+ nl)
  = match taken with [] => [EmptyString] | _ => taken end.
Proof.
  intros Hsid Htaken. unfold line_courses, Py.strip.
  pose proof (str_digits _ Hsid) as Hd. pose proof (str_nonempty sid) as Hne.
  assert (comma_free (Py.str sid) = true) as Hcf.
  { eapply all_chars_impl; [|exact Hd]. intros c Hc.
    destruct c as [[] [] [] [] [] [] [] []]; done. }
  assert (Py.lstrip (Py.str sid +:+ String "," (Py.join "," taken))
          = Py.str sid +:+ String "," (Py.join "," taken)) as Hl.
  { destruct (Py.str sid) as [|c s]; [done|]. rewrite app_cons_s. apply lstrip_head.
    simpl in Hd. apply andb_true_iff in Hd as [Hc _]. by apply digit_not_space. }
  change ("," +:+ ?x) with (String "," x).
  rewrite rstrip_app_cons by done.
  assert (Py.rstrip (Py.join "," taken +:+ nl) = Py.join "," taken) as ->.
  { destruct (decide (taken = [])) as [->|Hnil]; [done|].
    destruct (exists_last Hnil) as (l & x & ->).
    apply Forall_app in Htaken as [_ Hx]. apply Forall_singleton in Hx as (_ & d & Hd1 & Hd2).
    apply (rstrip_last _ _ d); [|by apply digit_not_space|done].
    rewrite join_last_char; [done|]. intros ->. done. }
  rewrite Hl. unfold Py.split_commas. rewrite split_commas_acc_field by done.
  rewrite rev_rev_app. simpl.
  destruct taken as [|c k]; [done|].
  apply split_commas_join; [done|]. eapply Forall_impl; [exact Htaken|]. by intros ? [? _].
Qed.

Lemma summary_generated p nc ns rr od w0 L w1 fs :
  generated p nc ns rr od w0 L w1 → dir w1 = Some fs →
  fs !! summary_name
  = Some (summary_text fs (course_code p <$> course_numbers L) (student_ids L)).
Proof.
  intros G Hfs. rewrite (gen_dir _ _ _ _ _ _ _ _ G) in Hfs. injection Hfs as <-.
  rewrite lookup_insert_eq, (gen_codes _ _ _ _ _ _ _ _ G). f_equal.
  unfold summary_text. f_equal. apply (f_equal unlines). apply list_fmap_ext.
  intros _ sid _. f_equal. symmetry. apply courses_taken_by_ext.
  intros k (n & -> & Hn)%list_elem_of_fmap. apply lookup_insert_ne, not_eq_sym.
  apply course_file_not_summary.
  pose proof (gen_courses_range _ _ _ _ _ _ _ _ G) as Hr. rewrite Forall_forall in Hr.
  specialize (Hr n Hn). lia.
Qed.

Lemma course_code_nonempty p (n : Z) : course_code p n ≠ EmptyString.
Proof.
  unfold course_code. intros H. apply (f_equal String.length) in H.
  rewrite length_app_s in H. pose proof (str_nonempty n).
  destruct (Py.str n); [done|]. simpl in H. lia.
Qed.



(** C6, as the code has it: every data line of the summary is the student
    identifier, a comma, and the course codes of the student in ascending
    order joined by commas; a student without active course gets the
    identifier followed by the comma alone. *)
Theorem summary_line_shape p nc ns cps rr od w0 L w1 fs :
  generate_enrollment_data_v4 p nc ns cps rr od w0 = (Ok L, w1) →
  dir w1 = Some fs →
  ∃ lines,
    fs !! summary_name = Some (summary_header +:+ unlines lines)
    ∧ Forall2 (λ sid line,
        ∃ taken,
          line = Py.str sid +:+ "," +:+ Py.join "," taken +:+ nl
          ∧ Sorted String.le taken
          ∧ taken ≡ₚ courses_taken_by fs (course_code p <$> course_numbers L) sid
          ∧ (courses_taken_by fs (course_code p <$> course_numbers L) sid = [] →
             line = Py.str sid +:+ "," +:+ nl))
        (student_ids L) lines.
Proof.
  intros G%generate_Ok Hfs.
  set (codes := course_code p <$> course_numbers L).
  exists ((λ sid, summary_line sid (courses_taken_by fs codes sid)) <$> student_ids L).
  split; [by apply (summary_generated p nc ns rr od w0 L w1)|].
  apply Forall2_fmap_r, Forall_Forall2_diag. apply Forall_forall. intros sid Hsid.
  exists (Py.sorted_str (courses_taken_by fs codes sid)). split; [done|].
  split; [apply Sorted_merge_sort, _|]. split; [apply merge_sort_Permutation|].
  intros Hnone. unfold summary_line. by rewrite Hnone.
Qed.

Lemma summary_line_shape_witness :
  ∃ lines,
    example_files !! summary_name = Some (summary_header +:+ unlines lines)
    ∧ Forall2 (λ sid line,
        ∃ taken,
          line = Py.str sid +:+ "," +:+ Py.join "," taken +:+ nl
          ∧ Sorted String.le taken
          ∧ taken ≡ₚ courses_taken_by example_files
                       (course_code "INFO" <$> course_numbers example_locals) sid
          ∧ (courses_taken_by example_files
               (course_code "INFO" <$> course_numbers example_locals) sid = [] →
             line = Py.str sid +:+ "," +:+ nl))
        (student_ids example_locals) lines.
Proof.
  apply (summary_line_shape "INFO" 3 3 (1, 2) example_rates "out"
           example_world example_locals example_after example_files).
  - vm_compute. reflexivity.
  - reflexivity.
Defined.

(** C6 as the spec words it fails: in the run whose only student takes no
    course, the student's line is the identifier followed by a comma, and
    the identifier alone is no line of the file. *)
Lemma summary_bare_id_counterexample :
  ∃ L w1 fs text,
    generate_enrollment_data_v4 "INFO" 1 1 (0, 0) example_rates "out" lonely_world = (Ok L, w1)
    ∧ dir w1 = Some fs
    ∧ student_ids L = [10000000]
    ∧ courses_taken_by fs (course_code "INFO" <$> course_numbers L) 10000000 = []
    ∧ fs !! summary_name = Some text
    ∧ Py.readlines text = [summary_header; "10000000," +:+ nl]
    ∧ (Py.str 10000000 +:+ nl) ∉ Py.readlines text.
Proof.
  destruct lonely_run as [o w1] eqn:E.
  assert (generate_enrollment_data_v4 "INFO" 1 1 (0, 0) example_rates "out" lonely_world
          = lonely_run) as Hrun by (vm_compute; reflexivity).
  rewrite E in Hrun. unfold lonely_run in E. injection E as <- <-.
  eexists _, _, _, _. split; [exact Hrun|].
  split; [reflexivity|]. split; [reflexivity|]. split; [vm_compute; reflexivity|].
  split; [vm_compute; reflexivity|]. split; [vm_compute; reflexivity|].
  vm_compute. intros H. inversion H as [|? ? ? H1]; subst. inversion H1 as [|? ? ? H2]; subst.
  inversion H2.
Qed.

End SummaryFile.

(** * Course discovery on any directory *)

Section CourseDiscovery.

Lemma bind_Raise {A B} (m : M A) (f : A → M B) w e w' :
  m w = (Raise e, w') → bind m f w = (Raise e, w').
Proof. unfold bind. by intros ->. Qed.




End CourseDiscovery.

(** * Rounding to nearest, against representable bounds

    [binary_round_aux] shifts the exact mantissa right, rounds it to nearest
    even and shifts once more after a carry.  The result cannot pass a
    float that the exact value does not pass. *)

Section Rounding.

Lemma pow2_pos (e : Z) : (0 < 2 ^ e)%Q.
Proof. by apply Qpower_0_lt. Qed.

Lemma Zval_shift (m e k : Z) : 0 ≤ k → (Zval (m * 2 ^ k) e == Zval m (e + k))%Q.
Proof.
  intros Hk. unfold Zval.
  rewrite inject_Z_mult, Zpower_Qpower, Qpower_plus by done.
  change (inject_Z 2) with 2%Q. ring.
Qed.

Lemma Zval_le (m m' e : Z) : (Zval m e <= Zval m' e)%Q ↔ m ≤ m'.
Proof.
  unfold Zval. rewrite Zle_Qle. apply Qmult_le_r, pow2_pos.
Qed.

Lemma Zval_lt (m m' e : Z) : (Zval m e < Zval m' e)%Q ↔ m < m'.
Proof.
  unfold Zval. rewrite Zlt_Qlt. apply Qmult_lt_r, pow2_pos.
Qed.

Lemma Zval_one_mono (e e' : Z) : e ≤ e' → (Zval 1 e <= Zval 1 e')%Q.
Proof.
  intros H. unfold Zval. rewrite !Qmult_1_l. by apply Qpower_le_compat_l.
Qed.

Lemma Zval_pow (k e : Z) : 0 ≤ k → (Zval (2 ^ k) e == Zval 1 (e + k))%Q.
Proof. intros Hk. by rewrite <- Zval_shift, Z.mul_1_l. Qed.


Lemma digits2_size (m : positive) : digits2_pos m = Pos.size m.
Proof. induction m; simpl; congruence. Qed.

Lemma digits_bounds (m : positive) :
  2 ^ (Z.pos (digits2_pos m) - 1) ≤ Z.pos m < 2 ^ Z.pos (digits2_pos m).
Proof.
  rewrite digits2_size. split.
  - pose proof (Pos.size_le m) as H.
    assert (Z.pos (2 ^ Pos.size m) ≤ Z.pos m~0) as H' by lia.
    rewrite Pos2Z.inj_pow in H'.
    replace (Z.pos (Pos.size m)) with (Z.pos (Pos.size m) - 1 + 1) in H' by lia.
    rewrite Z.pow_add_r in H' by lia. lia.
  - pose proof (Pos.size_gt m) as H.
    assert (Z.pos m < Z.pos (2 ^ Pos.size m)) as H' by lia.
    by rewrite Pos2Z.inj_pow in H'.
Qed.

Lemma iter_pos_count {A} (Q : nat → A → Prop) (f : A → A) :
  (∀ n x, Q n x → Q (S n) (f x)) →
  ∀ p n x, Q n x → Q (n + Pos.to_nat p)%nat (SpecFloat.iter_pos f p x).
Proof.
  intros Hf. induction p as [p IH|p IH|]; intros n x Hx; simpl.
  - replace (n + Pos.to_nat p~1)%nat with (S n + Pos.to_nat p + Pos.to_nat p)%nat by lia.
    apply IH, IH, Hf, Hx.
  - replace (n + Pos.to_nat p~0)%nat with (n + Pos.to_nat p + Pos.to_nat p)%nat by lia.
    apply IH, IH, Hx.
  - replace (n + Pos.to_nat 1)%nat with (S n) by lia. by apply Hf.
Qed.

Lemma div2_xI (p : positive) : Z.pos p~1 / 2 = Z.pos p ∧ Z.pos p~1 mod 2 = 1.
Proof.
  pose proof (Z.div_mod (Z.pos p~1) 2 ltac:(lia)) as H.
  pose proof (Z.mod_pos_bound (Z.pos p~1) 2 ltac:(lia)).
  rewrite Pos2Z.inj_xI in *. lia.
Qed.

Lemma div2_xO (p : positive) : Z.pos p~0 / 2 = Z.pos p ∧ Z.pos p~0 mod 2 = 0.
Proof.
  pose proof (Z.div_mod (Z.pos p~0) 2 ltac:(lia)) as H.
  pose proof (Z.mod_pos_bound (Z.pos p~0) 2 ltac:(lia)).
  rewrite Pos2Z.inj_xO in *. lia.
Qed.

Lemma shr_1_shifted (m0 : Z) (n : nat) (mrs : shr_record) :
  0 ≤ m0 → shifted m0 n mrs → shifted m0 (S n) (shr_1 mrs).
Proof.
  intros Hm0 [Hm Hex]. destruct mrs as [m r s]. simpl in *.
  assert (0 < 2 ^ Z.of_nat n) as Hpow by (apply Z.pow_pos_nonneg; lia).
  assert (2 ^ Z.of_nat (S n) = 2 ^ Z.of_nat n * 2) as HS
    by (rewrite Nat2Z.inj_succ, Z.pow_succ_r; lia).
  assert (m0 / 2 ^ Z.of_nat (S n) = m / 2) as Hdiv
    by (rewrite HS, <- Z.div_div, <- Hm by lia; done).
  assert (m0 mod 2 ^ Z.of_nat (S n) = 0 → m0 mod 2 ^ Z.of_nat n = 0 ∧ m mod 2 = 0) as Hmod.
  { rewrite HS. intros H0. rewrite Z.rem_mul_r in H0 by lia. rewrite <- Hm in H0.
    pose proof (Z.mod_pos_bound m0 (2 ^ Z.of_nat n) Hpow).
    pose proof (Z.mod_pos_bound m 2 ltac:(lia)).
    set (a := m0 mod 2 ^ Z.of_nat n) in *. set (b := m mod 2) in *. nia. }
  assert (0 ≤ m) as Hmpos by (rewrite Hm; apply Z.div_pos; lia).
  unfold shifted. rewrite Hdiv.
  destruct m as [|[p|p|]|p]; simpl; [| | | |lia].
  - split; [done|]. intros [H1 H2]%Hmod. by destruct (Hex H1) as [-> ->].
  - destruct (div2_xI p) as [-> Hodd]. split; [done|].
    intros [H1 H2]%Hmod. rewrite Hodd in H2. done.
  - destruct (div2_xO p) as [-> _]. split; [done|].
    intros [H1 H2]%Hmod. by destruct (Hex H1) as [-> ->].
  - split; [done|]. intros [H1 H2]%Hmod. done.
Qed.

Lemma shr_exact (m e n : Z) :
  0 ≤ m →
  ∃ mrs e', shr (shr_record_of_loc m loc_Exact) e n = (mrs, e')
    ∧ ((n ≤ 0 ∧ e' = e ∧ mrs = Build_shr_record m false false)
       ∨ (0 < n ∧ e' = e + n ∧ shr_m mrs = m / 2 ^ n
          ∧ (m mod 2 ^ n = 0 → shr_r mrs = false ∧ shr_s mrs = false))).
Proof.
  intros Hm. destruct n as [|p|p]; simpl.
  - eexists _, _. split; [done|]. left. split; [lia|done].
  - eexists _, _. split; [done|]. right. split; [lia|]. split; [done|].
    assert (shifted m (0 + Pos.to_nat p) (SpecFloat.iter_pos shr_1 p (Build_shr_record m false false)))
      as [H1 H2].
    { apply (iter_pos_count (shifted m)).
      - intros n x. by apply shr_1_shifted.
      - split; simpl; [by rewrite Z.div_1_r|done]. }
    rewrite Nat.add_0_l, positive_nat_Z in H1, H2. done.
  - eexists _, _. split; [done|]. left. split; [lia|done].
Qed.

Lemma round_nearest_even_cases (mrs : shr_record) :
  let m2 := round_nearest_even (shr_m mrs) (loc_of_shr_record mrs) in
  (m2 = shr_m mrs ∨ m2 = shr_m mrs + 1)
  ∧ (shr_r mrs = false ∧ shr_s mrs = false → m2 = shr_m mrs).
Proof.
  destruct mrs as [m [] []]; simpl; split; try (intros [? ?]; done); try tauto.
  destruct (Z.even m); tauto.
Qed.

Lemma pow2_le_inv (a b : Z) : 0 ≤ b → 2 ^ a < 2 ^ b → a < b.
Proof. intros Hb H. by apply (Z.pow_lt_mono_r_iff 2) in H; [|lia|]. Qed.

Lemma digits_le (m : positive) (k : Z) :
  0 ≤ k → Z.pos m < 2 ^ k → Z.pos (digits2_pos m) ≤ k.
Proof.
  intros Hk Hm. destruct (digits_bounds m) as [Hlo _].
  assert (Z.pos (digits2_pos m) - 1 < k); [|lia].
  apply pow2_le_inv; lia.
Qed.

(** The second shift of [binary_round_aux] only acts after a carry. *)
Lemma second_stage (m2 e' : Z) :
  0 ≤ m2 ≤ 2 ^ 53 → -1074 ≤ e' →
  ∃ mrs e3, shr_fexp Float.prec Float.emax m2 e' loc_Exact = (mrs, e3)
    ∧ ((m2 < 2 ^ 53 ∧ shr_m mrs = m2 ∧ e3 = e')
       ∨ (m2 = 2 ^ 53 ∧ shr_m mrs = 2 ^ 52 ∧ e3 = e' + 1)).
Proof.
  intros Hm He. destruct (decide (m2 = 2 ^ 53)) as [->|Hne].
  - unfold shr_fexp, fexp, emin, Float.prec, Float.emax.
    change (Zdigits2 (2 ^ 53)) with 54.
    replace (Z.max (54 + e' - 53) (3 - 1024 - 53) - e') with 1 by lia.
    eexists _, _. split; [done|]. right. done.
  - unfold shr_fexp.
    destruct (shr_exact m2 e'
      (fexp Float.prec Float.emax (Zdigits2 m2 + e') - e') ltac:(lia))
      as (mrs & e3 & -> & [(Hn & -> & ->)|(Hn & _)]).
    + eexists _, _. split; [done|]. left. simpl. split; [lia|done].
    + exfalso. revert Hn. unfold fexp, emin, Float.prec, Float.emax.
      destruct m2 as [|p|p]; simpl Zdigits2; [lia| |lia].
      pose proof (digits_le p 53 ltac:(lia) ltac:(lia)). lia.
Qed.

(** The first shift of [binary_round_aux] on an exact product or sum
    [mx * 2^ex], followed by the rounding of the mantissa. *)
Lemma first_stage (mx : positive) (ex : Z) :
  ∃ mrs e' n, shr_fexp Float.prec Float.emax (Z.pos mx) ex loc_Exact = (mrs, e')
    ∧ let m1 := shr_m mrs in
      let m2 := round_nearest_even m1 (loc_of_shr_record mrs) in
      (0 ≤ n ∧ e' = ex + n ∧ m1 = Z.pos mx / 2 ^ n)
      ∧ ((m2 = m1 ∨ m2 = m1 + 1) ∧ (Z.pos mx mod 2 ^ n = 0 → m2 = m1))
      ∧ (-1074 ≤ e' ∧ m1 < 2 ^ 53)
      ∧ (n = 0 ∨ e' = -1074 ∨ 2 ^ 52 ≤ m1).
Proof.
  unfold shr_fexp. simpl Zdigits2.
  pose proof (digits_bounds mx) as [Hlo Hhi].
  set (D := Z.pos (digits2_pos mx)) in *.
  assert (fexp Float.prec Float.emax (D + ex) = Z.max (D + ex - 53) (-1074)) as -> by done.
  destruct (shr_exact (Z.pos mx) ex (Z.max (D + ex - 53) (-1074) - ex) ltac:(lia))
    as (mrs & e' & -> & [(Hn & -> & ->)|(Hn & -> & Hm1 & Hex)]).
  - exists (Build_shr_record (Z.pos mx) false false), ex, 0. split; [done|]. simpl.
    rewrite Z.div_1_r. repeat split; try lia; try tauto.
    assert (2 ^ D ≤ 2 ^ 53) by (apply Z.pow_le_mono_r; lia). lia.
  - set (n := Z.max (D + ex - 53) (-1074) - ex) in *.
    exists mrs, (ex + n), n. split; [done|]. cbv zeta.
    destruct (round_nearest_even_cases mrs) as [Hc He]. cbv zeta in Hc, He.
    split; [split; [lia|done]|]. split; [split; [done|]|].
    { intros H0. apply He, Hex, H0. }
    assert (0 < 2 ^ n) by (apply Z.pow_pos_nonneg; lia).
    split; [split; [lia|]|].
    + rewrite Hm1. apply Z.div_lt_upper_bound; [done|].
      rewrite <- Z.pow_add_r by lia.
      assert (2 ^ D ≤ 2 ^ (n + 53)) by (apply Z.pow_le_mono_r; lia). lia.
    + destruct (decide (ex + n = -1074)) as [|Hne]; [tauto|]. right. right.
      assert (n = D - 53) as Hn' by lia.
      rewrite Hm1. apply Z.div_le_lower_bound; [done|].
      rewrite <- Z.pow_add_r by lia.
      replace (n + 52) with (D - 1) by lia. done.
Qed.

Lemma Zval_0 (e : Z) : (Zval 0 e == 0)%Q.
Proof. unfold Zval. ring. Qed.

Lemma Zval_rescale (m e e' : Z) : e' ≤ e → (Zval m e == Zval (m * 2 ^ (e - e')) e')%Q.
Proof.
  intros H. rewrite Zval_shift by lia. by replace (e' + (e - e')) with e by lia.
Qed.

Lemma Zval_below_pow (m e k : Z) : 0 ≤ k → m < 2 ^ k → (Zval m e < Zval 1 (e + k))%Q.
Proof. intros Hk Hm. rewrite <- Zval_pow by done. by apply Zval_lt. Qed.

(** Rounding to nearest is monotone against representable bounds. *)
Lemma binary_round_aux_between (mx : positive) (ex ml el mh eh : Z) :
  0 ≤ ml < 2 ^ 53 → -1074 ≤ el →
  0 ≤ mh < 2 ^ 53 → -1074 ≤ eh →
  ex ≤ 971 → eh ≤ 971 →
  (Zval ml el <= Zval (Z.pos mx) ex)%Q →
  (Zval (Z.pos mx) ex <= Zval mh eh)%Q →
  between (binary_round_aux Float.prec Float.emax false (Z.pos mx) ex loc_Exact)
    (Zval ml el) (Zval mh eh) (Z.max ex eh).
Proof.
  intros Hml Hel Hmh Heh Hex Heh' Hlo Hhi.
  unfold binary_round_aux.
  destruct (first_stage mx ex) as (mrs & e' & n & -> & Hfacts). cbv zeta in Hfacts.
  set (m1 := shr_m mrs) in *.
  set (m2 := round_nearest_even m1 (loc_of_shr_record mrs)) in *.
  destruct Hfacts as ((Hn & He' & Hm1) & (Hc & Hexact) & (Hemin & Hm1lt) & Hgrid).
  clearbody m2 m1.
  assert (0 < 2 ^ n) as Hpow by (apply Z.pow_pos_nonneg; lia).
  assert (0 ≤ m1) as Hm1pos by (rewrite Hm1; apply Z.div_pos; lia).
  assert (m1 * 2 ^ n ≤ Z.pos mx) as Hfloor.
  { rewrite Hm1, Z.mul_comm. apply Z.mul_div_le. done. }
  assert (n = 0 → m2 = m1) as Hn0.
  { intros ->. apply Hexact. by rewrite Z.pow_0_r, Z.mod_1_r. }
  (* the rounded mantissa stays below the upper bound *)
  assert ((Zval m2 e' <= Zval mh eh)%Q ∧ (m2 = 2 ^ 53 → e' < eh) ∧ (e' ≤ Z.max ex eh))
    as (Hup & Hcarry & Hexp).
  { destruct (Z.le_gt_cases e' eh) as [Hle|Hgt].
    - rewrite (Zval_rescale mh eh e') in Hhi |- * by done.
      set (Y := mh * 2 ^ (eh - e')) in *.
      assert (Z.pos mx ≤ Y * 2 ^ n) as HY.
      { apply (Zval_le _ _ ex). rewrite Zval_shift by done. by rewrite <- He'. }
      assert (m1 ≤ Y) as Hm1Y.
      { rewrite Hm1. apply Z.div_le_upper_bound; [done|]. lia. }
      assert (m2 ≤ Y) as Hm2Y.
      { destruct Hc as [Hc|Hc]; [lia|].
        destruct (decide (m1 = Y)) as [HeqY|]; [|lia].
        assert (Z.pos mx = m1 * 2 ^ n) as Heq by (subst Y; lia).
        assert (m2 = m1); [|lia]. apply Hexact. rewrite Heq. apply Z.mod_mul. lia. }
      split; [by apply Zval_le|]. split; [|lia].
      intros H53. destruct (decide (e' = eh)) as [->|]; [|lia].
      unfold Y in Hm2Y. rewrite Z.sub_diag, Z.pow_0_r in Hm2Y. lia.
    - destruct Hgrid as [->|[->|H52]]; [| lia |].
      + rewrite Hn0 by done. replace e' with ex by lia.
        rewrite Z.pow_0_r, Z.mul_1_r in Hfloor.
        rewrite Z.pow_0_r, Z.div_1_r in Hm1. rewrite Hm1.
        split; [done|]. split; lia.
      + exfalso. apply (Qlt_irrefl (Zval mh eh)).
        eapply Qlt_le_trans; [apply (Zval_below_pow mh eh 53); lia|].
        eapply Qle_trans; [apply (Zval_one_mono _ (e' + 52)); lia|].
        rewrite <- Zval_pow by lia.
        eapply Qle_trans; [apply Zval_le, H52|].
        eapply Qle_trans; [|apply Hhi].
        rewrite He', <- Zval_shift by done. by apply Zval_le. }
  (* and above the lower bound *)
  assert ((Zval ml el <= Zval m1 e')%Q) as Hlow1.
  { destruct (Z.le_gt_cases e' el) as [Hle|Hgt].
    - rewrite (Zval_rescale ml el e') in Hlo |- * by done.
      set (Y := ml * 2 ^ (el - e')) in *.
      assert (Y * 2 ^ n ≤ Z.pos mx) as HY.
      { apply (Zval_le _ _ ex). rewrite Zval_shift by done. by rewrite <- He'. }
      apply Zval_le. rewrite Hm1. apply Z.div_le_lower_bound; [done|]. lia.
    - destruct Hgrid as [->|[->|H52]]; [| lia |].
      + replace e' with ex by lia.
        rewrite Z.pow_0_r, Z.div_1_r in Hm1. by rewrite Hm1.
      + eapply Qle_trans; [apply Qlt_le_weak, (Zval_below_pow ml el 53); lia|].
        eapply Qle_trans; [apply (Zval_one_mono _ (e' + 52)); lia|].
        rewrite <- Zval_pow by lia. by apply Zval_le. }
  assert ((Zval ml el <= Zval m2 e')%Q) as Hlow.
  { eapply Qle_trans; [apply Hlow1|]. apply Zval_le. lia. }
  destruct (second_stage m2 e' ltac:(lia) Hemin)
    as (mrs2 & e3 & -> & [(Hlt & -> & ->)|(H53 & -> & ->)]).
  - destruct m2 as [|p|p]; [| |lia].
    + rewrite Zval_0 in Hlow, Hup. done.
    + replace (e' <=? Float.emax - Float.prec) with true
        by (symmetry; apply Z.leb_le; unfold Float.emax, Float.prec; lia).
      done.
  - specialize (Hcarry H53).
    change (2 ^ 52) with (Z.pos (2 ^ 52)).
    replace (e' + 1 <=? Float.emax - Float.prec) with true
      by (symmetry; apply Z.leb_le; unfold Float.emax, Float.prec; lia).
    assert (Zval (Z.pos (2 ^ 52)) (e' + 1) == Zval m2 e')%Q as Heq.
    { rewrite H53. change (Z.pos (2 ^ 52)) with (2 ^ 52).
      rewrite !Zval_pow by lia. by replace (e' + 1 + 52) with (e' + 53) by lia. }
    simpl. rewrite Heq. split; [lia|done].
Qed.

Lemma iter_xO (d mx : positive) : Z.pos (Pos.iter xO mx d) = Z.pos mx * 2 ^ Z.pos d.
Proof.
  induction d as [|d IH] using Pos.peano_ind.
  - simpl. lia.
  - rewrite Pos.iter_succ, Pos2Z.inj_succ, Z.pow_succ_r, Pos2Z.inj_xO, IH by lia. lia.
Qed.

(** Aligning a mantissa to a smaller exponent keeps the value. *)
Lemma shl_align_value (mx : positive) (ex ex' : Z) :
  (Zval (Z.pos (shl_align mx ex ex').1) (shl_align mx ex ex').2 == Zval (Z.pos mx) ex)%Q
  ∧ (shl_align mx ex ex').2 ≤ ex
  ∧ (ex' ≤ ex → (shl_align mx ex ex').2 = ex').
Proof.
  unfold shl_align. destruct (ex' - ex) as [|d|d] eqn:E; simpl.
  - split; [reflexivity|]. lia.
  - split; [reflexivity|]. lia.
  - split; [|lia]. rewrite iter_xO, Zval_shift by lia.
    by replace (ex' + Z.pos d) with ex by lia.
Qed.

Lemma between_weaken (r : spec_float) (lo hi lo' hi' : Q) (E E' : Z) :
  between r lo hi E → (lo' <= lo)%Q → (hi <= hi')%Q → E ≤ E' → between r lo' hi' E'.
Proof.
  destruct r as [[]|[]| |[] m e]; simpl; try done.
  - intros [? ?] ? ?. split; lra.
  - intros (? & ? & ?) ? ? ?. split; [lia|]. split; lra.
Qed.

Lemma binary_round_between (mx : positive) (ex ml el mh eh : Z) :
  0 ≤ ml < 2 ^ 53 → -1074 ≤ el →
  0 ≤ mh < 2 ^ 53 → -1074 ≤ eh →
  ex ≤ 971 → eh ≤ 971 →
  (Zval ml el <= Zval (Z.pos mx) ex)%Q →
  (Zval (Z.pos mx) ex <= Zval mh eh)%Q →
  between (binary_round Float.prec Float.emax false mx ex)
    (Zval ml el) (Zval mh eh) (Z.max ex eh).
Proof.
  intros Hml Hel Hmh Heh Hex Heh' Hlo Hhi. unfold binary_round.
  pose proof (shl_align_value mx ex
    (fexp Float.prec Float.emax (Z.pos (digits2_pos mx) + ex))) as (Hv & He & _).
  destruct (shl_align mx ex _) as [mz ez]. simpl in Hv, He.
  eapply between_weaken;
    [apply (binary_round_aux_between mz ez ml el mh eh); try done; try lia
    |apply Qle_refl|apply Qle_refl|lia].
  - by rewrite Hv.
  - by rewrite Hv.
Qed.

Lemma Zval_mul (a b e f : Z) : (Zval (a * b) (e + f) == Zval a e * Zval b f)%Q.
Proof. unfold Zval. rewrite inject_Z_mult, Qpower_plus by done. ring. Qed.

Lemma Zval_add (a b e : Z) : (Zval (a + b) e == Zval a e + Zval b e)%Q.
Proof. unfold Zval. rewrite inject_Z_plus. ring. Qed.

Lemma Zval_nonneg (m e : Z) : 0 ≤ m → (0 <= Zval m e)%Q.
Proof. intros H. rewrite <- (Zval_0 e). by apply Zval_le. Qed.

Lemma normalize_between (m e ml el mh eh : Z) :
  0 ≤ m →
  0 ≤ ml < 2 ^ 53 → -1074 ≤ el →
  0 ≤ mh < 2 ^ 53 → -1074 ≤ eh →
  e ≤ 971 → eh ≤ 971 →
  (Zval ml el <= Zval m e)%Q → (Zval m e <= Zval mh eh)%Q →
  between (binary_normalize Float.prec Float.emax m e false)
    (Zval ml el) (Zval mh eh) (Z.max e eh).
Proof.
  intros Hm Hml Hel Hmh Heh He Heh' Hlo Hhi. destruct m as [|p|p]; [| |lia].
  - simpl. by rewrite Zval_0 in Hlo, Hhi.
  - by apply binary_round_between.
Qed.

Lemma mul_between (a b : spec_float) (la ha lb hb : Q) (Ea Eb ml el mh eh : Z) :
  between a la ha Ea → between b lb hb Eb →
  (0 <= la)%Q → (0 <= lb)%Q →
  0 ≤ ml < 2 ^ 53 → -1074 ≤ el →
  0 ≤ mh < 2 ^ 53 → -1074 ≤ eh →
  Ea + Eb ≤ 971 → eh ≤ 971 →
  (Zval ml el <= la * lb)%Q → (ha * hb <= Zval mh eh)%Q →
  between (Float.mul a b) (Zval ml el) (Zval mh eh) (Z.max (Ea + Eb) eh).
Proof.
  intros Ha Hb Hla Hlb Hml Hel Hmh Heh HE Heh' Hlo Hhi.
  pose proof (Zval_nonneg mh eh ltac:(lia)) as Hhi0.
  destruct a as [[]|[]| |[] ma ea]; try done;
    destruct b as [[]|[]| |[] mb eb]; try done; simpl in Ha, Hb.
  - simpl. destruct Ha as [Ha _]. assert (la == 0)%Q as H0 by lra.
    rewrite H0 in Hlo. split; [lra|done].
  - simpl. destruct Ha as [Ha _]. assert (la == 0)%Q as H0 by lra.
    rewrite H0 in Hlo. split; [lra|done].
  - simpl. destruct Hb as [Hb _]. assert (lb == 0)%Q as H0 by lra.
    rewrite H0 in Hlo. split; [lra|done].
  - destruct Ha as (Hea & Ha1 & Ha2), Hb as (Heb & Hb1 & Hb2).
    unfold Float.mul, SFmul. simpl xorb.
    pose proof (Zval_mul (Z.pos ma) (Z.pos mb) ea eb) as Hv.
    change (Z.pos ma * Z.pos mb) with (Z.pos (ma * mb)) in Hv.
    eapply between_weaken;
      [apply (binary_round_aux_between (ma * mb) (ea + eb) ml el mh eh); try done; try lia
      |apply Qle_refl|apply Qle_refl|lia].
    + rewrite Hv. nra.
    + rewrite Hv. nra.
Qed.

Lemma add_between (a b : spec_float) (la ha lb hb : Q) (Ea Eb ml el mh eh : Z) :
  between a la ha Ea → between b lb hb Eb →
  0 ≤ ml < 2 ^ 53 → -1074 ≤ el →
  0 ≤ mh < 2 ^ 53 → -1074 ≤ eh →
  Ea ≤ 971 → Eb ≤ 971 → eh ≤ 971 →
  (Zval ml el <= la + lb)%Q → (ha + hb <= Zval mh eh)%Q →
  between (Float.add a b) (Zval ml el) (Zval mh eh) (Z.max (Z.max Ea Eb) eh).
Proof.
  intros Ha Hb Hml Hel Hmh Heh HEa HEb Heh' Hlo Hhi.
  destruct a as [[]|[]| |[] ma ea]; try done;
    destruct b as [[]|[]| |[] mb eb]; try done; simpl in Ha, Hb.
  - simpl. split; lra.
  - simpl. destruct Ha as [? ?], Hb as (? & ? & ?). split; [lia|]. split; lra.
  - simpl. destruct Hb as [? ?], Ha as (? & ? & ?). split; [lia|]. split; lra.
  - destruct Ha as (Hea & Ha1 & Ha2), Hb as (Heb & Hb1 & Hb2).
    unfold Float.add, SFadd. cbv zeta. simpl cond_Zopp.
    pose proof (shl_align_value ma ea (Z.min ea eb)) as (HvA & _ & HeA).
    pose proof (shl_align_value mb eb (Z.min ea eb)) as (HvB & _ & HeB).
    rewrite HeA in HvA by lia. rewrite HeB in HvB by lia.
    set (A := (shl_align ma ea (Z.min ea eb)).1) in *.
    set (B := (shl_align mb eb (Z.min ea eb)).1) in *.
    change (Z.pos A + Z.pos B) with (Z.pos (A + B)).
    pose proof (Zval_add (Z.pos A) (Z.pos B) (Z.min ea eb)) as Hv.
    change (Z.pos A + Z.pos B) with (Z.pos (A + B)) in Hv.
    eapply between_weaken;
      [apply (normalize_between (Z.pos (A + B)) (Z.min ea eb) ml el mh eh);
         try done; try lia
      |apply Qle_refl|apply Qle_refl|lia].
    + rewrite Hv, HvA, HvB. lra.
    + rewrite Hv, HvA, HvB. lra.
Qed.

Lemma representable_between (x : spec_float) :
  representable x = true →
  Float.to_Q x = Zval (mantissa x) (exponent x)
  ∧ 0 ≤ mantissa x < 2 ^ 53 ∧ -1074 ≤ exponent x ≤ 971
  ∧ between x (Float.to_Q x) (Float.to_Q x) (exponent x).
Proof.
  destruct x as [| | |[] m e]; try done. simpl.
  intros [[H1%Z.ltb_lt H2%Z.leb_le]%andb_true_iff H3%Z.leb_le]%andb_true_iff.
  repeat split; try lia; apply Qle_refl.
Qed.

Lemma between_to_Q (r : spec_float) (lo hi : Q) (E : Z) :
  between r lo hi E → (lo <= Float.to_Q r)%Q ∧ (Float.to_Q r <= hi)%Q.
Proof. destruct r as [[]|[]| |[] m e]; simpl; try done. tauto. Qed.

Lemma random_between (k : Z) :
  0 ≤ k < 2 ^ 53 →
  between (binary_normalize Float.prec Float.emax k (-53) false) 0 1 0.
Proof.
  intros Hk.
  eapply between_weaken;
    [apply (normalize_between k (-53) 0 0 1 0); try done; try lia| | |done].
  - rewrite Zval_0. apply Zval_nonneg. lia.
  - apply Qlt_le_weak. apply (Zval_below_pow k (-53) 53); lia.
  - by rewrite Zval_0.
  - done.
Qed.

(** [uniform(lo, hi)] stays between its bounds when [lo + (hi - lo)] does
    not exceed [hi]. *)
Lemma uniform_value_between (lo hi : spec_float) (k : Z) :
  representable lo = true → representable hi = true →
  representable (Float.sub hi lo) = true →
  (Float.to_Q lo + Float.to_Q (Float.sub hi lo) <= Float.to_Q hi)%Q →
  0 ≤ k < 2 ^ 53 →
  between (uniform_value lo hi k) (Float.to_Q lo) (Float.to_Q hi)
    (Z.max (Z.max (exponent lo) (exponent (Float.sub hi lo))) (exponent hi)).
Proof.
  intros (Hvl & Hml & Hel & Hlo)%representable_between
         (Hvh & Hmh & Heh & Hhi)%representable_between
         (Hvd & Hmd & Hed & Hd)%representable_between Hsum Hk.
  unfold uniform_value. set (d := Float.sub hi lo) in *.
  pose proof (random_between k Hk) as Hu.
  set (u := binary_normalize Float.prec Float.emax k (-53) false) in *.
  assert (between (Float.mul d u) (Zval 0 0) (Zval (mantissa d) (exponent d)) (exponent d))
    as Hp.
  { eapply between_weaken;
      [apply (mul_between d u _ _ 0 1 (exponent d) 0 0 0 (mantissa d) (exponent d) Hd Hu);
         try done; try lia
      |apply Qle_refl|apply Qle_refl|lia].
    - rewrite Hvd. apply Zval_nonneg. lia.
    - rewrite Zval_0. lra.
    - rewrite Hvd. lra. }
  rewrite Hvl, Hvh.
  eapply between_weaken;
    [apply (add_between lo (Float.mul d u) _ _ _ _ _ _
              (mantissa lo) (exponent lo) (mantissa hi) (exponent hi) Hlo Hp);
       try done; try lia
    |apply Qle_refl|apply Qle_refl|lia].
  - rewrite Zval_0, Hvl. lra.
  - rewrite <- Hvh, <- Hvd. done.
Qed.

End Rounding.

(** * The scenario of the example usage *)

Section Scenario.

Lemma scenario_rate_between (k : Z) :
  0 ≤ k < 2 ^ 53 →
  between (uniform_value scenario_rates.1 scenario_rates.2 k) (5 # 100) (15 # 100) (-55).
Proof.
  intros Hk.
  eapply between_weaken;
    [apply (uniform_value_between scenario_rates.1 scenario_rates.2 k)| | |].
  1-3: vm_compute; reflexivity.
  1: vm_compute; discriminate.
  1: done.
  all: vm_compute; discriminate.
Qed.

Lemma of_int_between (n : Z) :
  0 ≤ n < 2 ^ 53 →
  between (Float.of_int n) (inject_Z n) (inject_Z n) 0.
Proof.
  intros Hn. unfold Float.of_int.
  assert (Zval n 0 == inject_Z n)%Q as Hv by (unfold Zval; simpl; ring).
  eapply between_weaken;
    [apply (normalize_between n 0 n 0 n 0); try done; try lia; apply Qle_refl
    | | |done]; rewrite Hv; apply Qle_refl.
Qed.

(** With a rate between 5% and 15%, [int(len * rate)] lies between 5% and
    15% of the length, both rounded down. *)
Lemma count_between (n : nat) (rate : spec_float) (E : Z) :
  between rate (5 # 100) (15 # 100) E → E ≤ 0 → Z.of_nat n < 2 ^ 40 →
  5 * Z.of_nat n / 100
  ≤ Qfloor (Float.to_Q (Float.mul (Float.of_int (Z.of_nat n)) rate))
  ≤ 15 * Z.of_nat n / 100.
Proof.
  intros Hrate HE Hn. set (N := Z.of_nat n) in *.
  assert (0 ≤ N) as HN by lia.
  set (lo := 5 * N / 100). set (hi := 15 * N / 100).
  assert (100 * lo ≤ 5 * N) as Hlo by (apply Z.mul_div_le; lia).
  assert (3 * N ≤ 20 * hi + 19) as Hhi.
  { pose proof (Z.mul_succ_div_gt (15 * N) 100 ltac:(lia)). unfold hi. lia. }
  assert (0 ≤ lo) by (apply Z.div_pos; lia).
  assert (0 ≤ hi) by (apply Z.div_pos; lia).
  assert (hi ≤ N) by (apply Z.div_le_upper_bound; lia).
  assert (lo ≤ N) by (apply Z.div_le_upper_bound; lia).
  assert (2 ^ 40 * 2 ^ 6 < 2 ^ 53) as Hpow by done.
  rewrite Zle_Qle in Hlo, Hhi, HN.
  rewrite !inject_Z_mult in Hlo. rewrite inject_Z_plus, !inject_Z_mult in Hhi.
  change (inject_Z 100) with (100 # 1)%Q in Hlo.
  change (inject_Z 5) with (5 # 1)%Q in Hlo.
  change (inject_Z 3) with (3 # 1)%Q in Hhi.
  change (inject_Z 20) with (20 # 1)%Q in Hhi.
  change (inject_Z 19) with (19 # 1)%Q in Hhi.
  change (inject_Z 0) with 0%Q in HN.
  assert (Zval lo 0 == inject_Z lo)%Q as Hvlo by (unfold Zval; simpl; ring).
  assert (Zval (32 * hi + 31) (-5) == inject_Z hi + (31 # 32))%Q as Hvhi.
  { unfold Zval. rewrite inject_Z_plus, inject_Z_mult.
    change (2 ^ (-5))%Q with (1 # 32)%Q. change (inject_Z 31) with (31 # 1)%Q.
    change (inject_Z 32) with (32 # 1)%Q. ring. }
  pose proof (mul_between (Float.of_int N) rate _ _ _ _ 0 E lo 0 (32 * hi + 31) (-5)
    (of_int_between N ltac:(lia)) Hrate) as Hb.
  destruct (between_to_Q _ _ _ _ (Hb ltac:(lra) ltac:(lra) ltac:(lia) ltac:(lia)
    ltac:(lia) ltac:(lia) ltac:(lia) ltac:(lia)
    ltac:(rewrite Hvlo; lra) ltac:(rewrite Hvhi; lra)))
    as [Hge Hle].
  split.
  - rewrite <- (Qfloor_Z lo). apply Qfloor_resp_le. by rewrite <- Hvlo.
  - assert (Qfloor (Float.to_Q (Float.mul (Float.of_int N) rate)) < hi + 1); [|lia].
    rewrite Zlt_Qlt. eapply Qle_lt_trans; [apply Qfloor_le|].
    eapply Qle_lt_trans; [apply Hle|]. rewrite Hvhi, inject_Z_plus.
    change (inject_Z 1) with (1 # 1)%Q. lra.
Qed.

Lemma between_nonneg (r : spec_float) (lo hi : Q) (E : Z) :
  between r lo hi E → Float.nonneg r = true.
Proof. by destruct r as [[]|[]| |[] m e]. Qed.

Lemma summary_text_lines p nc ns rr od w0 L w1 fs :
  generated p nc ns rr od w0 L w1 → dir w1 = Some fs → one_line p = true →
  ∃ lines, fs !! summary_name = Some (summary_header +:+ unlines lines)
           ∧ Py.readlines (summary_header +:+ unlines lines) = summary_header :: lines
           ∧ length lines = length (student_ids L).
Proof.
  intros G Hfs Hp. eexists. split; [by apply (summary_generated p nc ns rr od w0 L w1)|].
  split; [|by rewrite length_fmap].
  rewrite <- unlines_cons. apply readlines_unlines.
  constructor; [by exists "StudentID,Courses"|].
  apply Forall_fmap, Forall_forall. intros sid Hsid. simpl.
  pose proof (gen_ids_range _ _ _ _ _ _ _ _ G) as Hr. rewrite Forall_forall in Hr.
  specialize (Hr sid Hsid).
  apply (summary_line_one_line p (course_code p <$> course_numbers L)); [done|lia|].
  intros c [_ (n & -> & Hn)%list_elem_of_fmap]%list_elem_of_filter.
  exists n. split; [|done].
  pose proof (gen_courses_range _ _ _ _ _ _ _ _ G) as Hc. rewrite Forall_forall in Hc.
  specialize (Hc n Hn). lia.
Qed.




End Scenario.

(** * Further properties of the generator *)

Section GeneratorFacts.

(** Numbers without repetition out of a range are at most as many as the
    range holds. *)
Lemma NoDup_range_length (l : list Z) (lo hi : Z) :
  NoDup l → Forall (λ x, lo ≤ x ≤ hi) l → Z.of_nat (length l) ≤ Z.max 0 (hi - lo + 1).
Proof.
  intros Hnd Hr.
  assert (l ⊆+ seqZ lo (hi - lo + 1)) as Hsub.
  { apply NoDup_submseteq; [done|]. intros x Hx. rewrite Forall_forall in Hr.
    specialize (Hr x Hx). apply elem_of_seqZ. lia. }
  apply submseteq_length in Hsub. rewrite length_seqZ in Hsub. lia.
Qed.

(** The two rejection loops (lines 22 to 25 and 35 to 38) can only end
    when the range holds enough numbers: a run that completes was asked for
    at most 90,000,000 students and at most 9,000 courses. *)
Theorem generator_sizes_bounded p nc ns cps rr od w0 L w1 :
  generate_enrollment_data_v4 p nc ns cps rr od w0 = (Ok L, w1) →
  ns ≤ 90000000 ∧ nc ≤ 9000.
Proof.
  intros G%generate_Ok. split.
  - pose proof (NoDup_range_length _ _ _ (gen_ids_NoDup _ _ _ _ _ _ _ _ G)
                  (gen_ids_range _ _ _ _ _ _ _ _ G)) as H.
    rewrite (gen_ids_length _ _ _ _ _ _ _ _ G) in H. lia.
  - pose proof (NoDup_range_length _ _ _ (gen_courses_NoDup _ _ _ _ _ _ _ _ G)
                  (gen_courses_range _ _ _ _ _ _ _ _ G)) as H.
    rewrite (gen_courses_length _ _ _ _ _ _ _ _ G) in H. lia.
Qed.

Lemma generator_sizes_bounded_witness : 3 ≤ 90000000 ∧ 3 ≤ 9000.
Proof.
  apply (generator_sizes_bounded "INFO" 3 3 (1, 2) example_rates "out"
           example_world example_locals example_after).
  vm_compute. reflexivity.
Defined.



End GeneratorFacts.

Section GeneratorReadsBack.



(** The slice [all[:len(all) - num_withdrawals]] of lines 80 and 124: for a
    count between 0 and the number of lines it drops the last [count]
    lines; a negative count keeps every line; a count above the number of
    lines makes the stop negative, which Python counts from the end, so
    that the first [2 * len - count] lines are kept. *)
Theorem active_segment_regimes (num_withdrawals : Z) (all_students_in_file : list Z) :
  let len := Z.of_nat (length all_students_in_file) in
  (0 ≤ num_withdrawals ≤ len →
     active_segment num_withdrawals all_students_in_file
       ++ drop (Z.to_nat (len - num_withdrawals)) all_students_in_file
     = all_students_in_file
     ∧ Z.of_nat (length (active_segment num_withdrawals all_students_in_file))
       = len - num_withdrawals)
  ∧ (num_withdrawals ≤ 0 →
     active_segment num_withdrawals all_students_in_file = all_students_in_file)
  ∧ (len < num_withdrawals →
     active_segment num_withdrawals all_students_in_file
     = take (Z.to_nat (2 * len - num_withdrawals)) all_students_in_file).
Proof.
  intros len. unfold active_segment, Py.slice_to. fold len. split; [|split].
  - intros Hc. destruct (Z.ltb_spec (len - num_withdrawals) 0); [lia|].
    split; [apply take_drop|]. rewrite length_take. lia.
  - intros Hc. destruct (Z.ltb_spec (len - num_withdrawals) 0); [lia|].
    apply take_ge. lia.
  - intros Hc. destruct (Z.ltb_spec (len - num_withdrawals) 0); [|lia].
    f_equal. lia.
Qed.

Lemma active_segment_regimes_witness :
  active_segment 1 [7; 8; 9] = [7; 8]
  ∧ active_segment (-1) [7; 8; 9] = [7; 8; 9]
  ∧ active_segment 4 [7; 8; 9] = [7; 8].
Proof.
  destruct (active_segment_regimes 1 [7; 8; 9]) as ([_ _] & _ & _); [simpl; lia|].
  destruct (active_segment_regimes (-1) [7; 8; 9]) as (_ & H2 & _).
  destruct (active_segment_regimes 4 [7; 8; 9]) as (_ & _ & H3).
  split; [reflexivity|]. split; [apply H2; lia|apply H3; simpl; lia].
Defined.

End GeneratorReadsBack.

(** * Step 5 once more: how many courses a student gets *)

Section CoursesPerStudent.
Variable program_name : string.
Variable num_courses : Z.
Variables num_courses_taken course_numbers : list Z.
Hypothesis course_numbers_NoDup : NoDup course_numbers.
Hypothesis course_numbers_nonneg : Forall (λ n, 0 ≤ n) course_numbers.

(** The inner loop appends the student to the list of every selected
    course and to no other list. *)
Lemma enrol_loop_get (student_id : Z) (sel : list Z) :
  ∀ d w d' w',
    NoDup sel → Forall (λ idx, 0 ≤ idx) sel →
    foldM (λ course_enrollments course_index,
        course_num ← try (course_numbers !! Z.to_nat course_index) IndexError;
        let course_name := program_name +:+ Py.str course_num in
        dict_append course_enrollments course_name student_id) d sel w = (Ok d', w') →
    ∃ codes,
      length codes = length sel ∧ NoDup codes
      ∧ (∀ code, code ∈ codes →
           is_Some (dict_get d code)
           ∧ ∃ idx cn, idx ∈ sel ∧ course_numbers !! Z.to_nat idx = Some cn
                       ∧ code = course_code program_name cn)
      ∧ ∀ key, dict_get d' key
               = if decide (key ∈ codes) then (λ l, l ++ [student_id]) <$> dict_get d key
                 else dict_get d key.
Proof.
  induction sel as [|idx sel IH]; intros d w d' w' Hnd Hpos H.
  - simpl in H. run_inv. subst. exists []. split; [done|]. split; [constructor|].
    split; [by intros code ?%elem_of_nil|]. intros key. by rewrite decide_False by apply not_elem_of_nil.
  - simpl in H. run_inv. rename v0 into cn.
    assert (course_numbers !! Z.to_nat idx = Some cn) as Hcn by done.
    apply dict_append_Ok in Hr as (-> & l & Hl & ->). subst.
    apply NoDup_cons in Hnd as [Hidx Hnd]. apply Forall_cons in Hpos as [Hidx0 Hpos].
    apply IH in H as (codes & Hlen & Hcodes & Hfrom & Hget); [|done..].
    assert (course_code program_name cn ∉ codes) as Hfresh.
    { intros Hin. destruct (Hfrom _ Hin) as (_ & idx' & cn' & Hin' & Hcn' & Heq).
      rewrite Forall_forall in course_numbers_nonneg.
      apply course_code_inj in Heq;
        [|by eapply course_numbers_nonneg, list_elem_of_lookup_2..].
      subst cn'.
      assert (Z.to_nat idx = Z.to_nat idx') as Hi
        by (eapply NoDup_lookup; [apply course_numbers_NoDup|done..]).
      rewrite Forall_forall in Hpos. specialize (Hpos _ Hin').
      assert (idx = idx') as -> by lia. done. }
    exists (course_code program_name cn :: codes).
    split; [simpl; by rewrite Hlen|]. split; [by constructor|]. split.
    + intros code [->|Hin]%elem_of_cons.
      * split; [by exists l|]. exists idx, cn. split; [left|done].
      * destruct (Hfrom _ Hin) as (Hsome & idx' & cn' & Hin' & Hcn' & Heq). split.
        -- rewrite dict_get_set in Hsome. case_decide; [subst; by exists l|done].
        -- exists idx', cn'. split; [by right|done].
    + intros key. rewrite Hget, dict_get_set.
      destruct (decide (key ∈ codes)) as [Hk|Hk],
        (decide (key ∈ course_code program_name cn :: codes)) as [Hk'|Hk'],
        (decide (program_name +:+ Py.str cn = key)) as [Heq|Hne]; try done.
      * subst key. done.
      * destruct Hk'. by apply elem_of_cons; right.
      * destruct Hk'. by apply elem_of_cons; right.
      * subst key. by rewrite Hl.
      * apply elem_of_cons in Hk' as [->|?]; done.
      * destruct Hk'. apply elem_of_cons. by left.
Qed.

(** One student: the number drawn for the student lies between 0 and the
    number of courses, and so many lists get the student appended. *)
Lemma assign_student_get d (i : nat) (student_id : Z) w d' w' :
  assign_student program_name num_courses num_courses_taken course_numbers d (i, student_id) w
  = (Ok d', w') →
  ∃ k codes,
    num_courses_taken !! i = Some k ∧ 0 ≤ k ≤ Z.max 0 num_courses
    ∧ Z.of_nat (length codes) = k ∧ NoDup codes
    ∧ (∀ code, code ∈ codes → is_Some (dict_get d code))
    ∧ ∀ key, dict_get d' key
             = if decide (key ∈ codes) then (λ l, l ++ [student_id]) <$> dict_get d key
               else dict_get d key.
Proof.
  intros H. unfold assign_student in H. run_inv. subst.
  rename v into k, v0 into sel.
  assert (num_courses_taken !! i = Some k) as Hk by done.
  apply sample_Ok in Hr0 as (_ & Hrange & Hlen & rest & Hperm).
  assert (NoDup (sel ++ rest)) as Hnd by (rewrite Hperm; apply NoDup_seqZ).
  apply NoDup_app in Hnd as (Hnd & _ & _).
  assert (Forall (λ idx, 0 ≤ idx) sel) as Hpos.
  { apply Forall_forall. intros idx Hin.
    assert (idx ∈ range num_courses) as Hr
      by (unfold range; rewrite <- Hperm; apply elem_of_app; by left).
    apply elem_of_seqZ in Hr. lia. }
  apply enrol_loop_get in H as (codes & Hlc & Hcodes & Hfrom & Hget); [|done..].
  exists k, codes. split; [done|]. split.
  { unfold range in Hrange. rewrite length_seqZ in Hrange. lia. }
  split; [lia|]. split; [done|]. split; [|done].
  intros code Hin. by destruct (Hfrom code Hin).
Qed.

(** Later students leave the membership of an earlier one alone. *)
Lemma assign_loop_other (sid : Z) (xs : list (nat * Z)) :
  ∀ d w d' w',
    sid ∉ xs.*2 →
    foldM (assign_student program_name num_courses num_courses_taken course_numbers) d xs w
    = (Ok d', w') →
    ∀ key l', dict_get d' key = Some l' →
      ∃ l, dict_get d key = Some l ∧ (sid ∈ l' ↔ sid ∈ l).
Proof.
  induction xs as [|[i s] xs IH]; intros d w d' w' Hsid H key l' Hl'.
  - simpl in H. run_inv. subst. eauto.
  - change (foldM ?f d ((i, s) :: xs)) with (bind (f d (i, s)) (λ s, foldM f s xs)) in H.
    apply bind_Ok in H as (d1 & w1 & Hr & H).
    simpl in Hsid. apply not_elem_of_cons in Hsid as [Hne Hsid].
    destruct (IH _ _ _ _ Hsid H key l' Hl') as (l1 & Hl1 & Hiff).
    apply assign_student_get in Hr as (k & codes & _ & _ & _ & _ & _ & Hget).
    rewrite Hget in Hl1. case_decide.
    + destruct (dict_get d key) as [l|]; [|done]. injection Hl1 as <-.
      exists l. split; [done|]. rewrite Hiff, elem_of_app, list_elem_of_singleton. tauto.
    + eauto.
Qed.

Lemma assign_loop_courses (xs : list (nat * Z)) :
  ∀ d w d' w',
    NoDup xs.*2 →
    (∀ x key l, x ∈ xs.*2 → dict_get d key = Some l → x ∉ l) →
    foldM (assign_student program_name num_courses num_courses_taken course_numbers) d xs w
    = (Ok d', w') →
    ∀ i sid, (i, sid) ∈ xs →
      ∃ k codes,
        num_courses_taken !! i = Some k ∧ 0 ≤ k ≤ Z.max 0 num_courses
        ∧ Z.of_nat (length codes) = k ∧ NoDup codes
        ∧ (∀ code, code ∈ codes → is_Some (dict_get d code))
        ∧ ∀ key l, dict_get d' key = Some l → (sid ∈ l ↔ key ∈ codes).
Proof.
  induction xs as [|[i0 s0] xs IH]; intros d w d' w' Hnd Hfresh H i sid Hin.
  - by apply elem_of_nil in Hin.
  - change (foldM ?f d ((i0, s0) :: xs)) with (bind (f d (i0, s0)) (λ s, foldM f s xs)) in H.
    apply bind_Ok in H as (d1 & w1 & Hr & H).
    simpl in Hnd. apply NoDup_cons in Hnd as [Hs0 Hnd].
    apply assign_student_get in Hr as (k0 & codes0 & Hk0 & Hr0 & Hlen0 & Hnd0 & Hkeys0 & Hget).
    apply elem_of_cons in Hin as [[= -> ->]|Hin].
    + exists k0, codes0. repeat (split; [done|]).
      intros key l' Hl'.
      destruct (assign_loop_other s0 xs _ _ _ _ Hs0 H key l' Hl') as (l1 & Hl1 & ->).
      rewrite Hget in Hl1. case_decide as Hk.
      * destruct (dict_get d key) as [l|]; [|done]. injection Hl1 as <-.
        rewrite elem_of_app, list_elem_of_singleton. tauto.
      * split; [|done]. intros Hx. exfalso. eapply (Hfresh s0 key l1); [left|done..].
    + destruct (IH d1 w1 d' w' Hnd) with (i := i) (sid := sid)
        as (k & codes & Hk & Hr & Hlen & Hndc & Hkeys & Hmem); [|done..|].
      * intros x key l1 Hx Hl1. rewrite Hget in Hl1.
        assert (x ≠ s0) as Hne by (intros ->; done).
        case_decide.
        -- destruct (dict_get d key) as [l|] eqn:Hl; [|done]. injection Hl1 as <-.
           rewrite elem_of_app, list_elem_of_singleton.
           intros [?|?]; [|done]. eapply (Hfresh x key l); [by right|done..].
        -- eapply (Hfresh x key l1); [by right|done].
      * exists k, codes. repeat (split; [done|]). split; [|done].
        intros code Hc. specialize (Hkeys code Hc). rewrite Hget in Hkeys.
        case_decide; [|done]. by destruct (dict_get d code).
Qed.

End CoursesPerStudent.

Section CoursesPerStudentRun.

Lemma elem_of_enumerate {A} (l : list A) (i : nat) (x : A) :
  l !! i = Some x → (i, x) ∈ enumerate l.
Proof.
  intros Hi. unfold enumerate. apply (list_elem_of_lookup_2 _ i).
  apply lookup_zip_Some. split; [|done].
  apply lookup_seq. split; [done|]. by eapply lookup_lt_Some.
Qed.

(** Lines 31 and 45 to 50: in a completed run every student has a number
    of courses drawn from [courses_per_student_range]; that number is at
    most the number of courses, and the student is put on the list of
    exactly that many courses (before withdrawals). *)
Theorem courses_per_student p nc ns cps rr od w0 L w1 :
  generate_enrollment_data_v4 p nc ns cps rr od w0 = (Ok L, w1) →
  length (num_courses_taken L) = length (student_ids L)
  ∧ ∀ i sid, student_ids L !! i = Some sid →
      ∃ k codes,
        num_courses_taken L !! i = Some k
        ∧ cps.1 ≤ k ≤ cps.2 ∧ 0 ≤ k ≤ Z.max 0 nc
        ∧ Z.of_nat (length codes) = k ∧ NoDup codes
        ∧ codes ⊆ (course_enrollments L).*1
        ∧ ∀ code enrolled, (code, enrolled) ∈ course_enrollments L →
            (sid ∈ enrolled ↔ code ∈ codes).
Proof.
  intros H. pose proof (generate_Ok _ _ _ _ _ _ _ _ _ H) as G.
  unfold generate_enrollment_data_v4, mbind, M_bind, mret, M_ret in H.
  apply bind_Ok in H as (ex & wa & H1 & H).
  apply bind_Ok in H as ([] & wb & H2 & H).
  apply bind_Ok in H as (ids0 & wc & H3 & H).
  apply bind_Ok in H as (ids & wd & H4 & H).
  apply bind_Ok in H as (nct & we & H5 & H).
  apply bind_Ok in H as (cns0 & wf & H6 & H).
  cbv zeta in H.
  apply bind_Ok in H as (ce & wg & H7 & H).
  apply bind_Ok in H as (rs & wh & H8 & H).
  apply bind_Ok in H as ([] & wi & H9 & H).
  apply bind_Ok in H as ([] & wj & H10 & H).
  apply bind_Ok in H as ([] & wk & H11 & H).
  apply bind_Ok in H as ([] & wl & H12 & H).
  apply ret_Ok in H as [<- <-]. simpl in *.
  apply (mapM_Ok_inv _ (λ _, True) (λ _ k, cps.1 ≤ k ≤ cps.2)) in H5 as [_ Hnct]; [| |done].
  2:{ intros x w y w' _ _ Hr. by apply randint_Ok in Hr as [_ ?]. }
  pose proof (gen_ids_length _ _ _ _ _ _ _ _ G) as Hlen. simpl in Hlen.
  pose proof (gen_courses_NoDup _ _ _ _ _ _ _ _ G) as Hcns. simpl in Hcns.
  pose proof (gen_codes _ _ _ _ _ _ _ _ G) as Hkeys. simpl in Hkeys.
  assert (Forall (λ n, 0 ≤ n) (Py.sorted cns0)) as Hcpos.
  { eapply Forall_impl; [apply (gen_courses_range _ _ _ _ _ _ _ _ G)|]. simpl. lia. }
  pose proof (course_codes_NoDup p _ Hcns Hcpos) as Hcodes.
  assert (length nct = length ids) as Hlen'.
  { apply Forall2_length in Hnct. unfold range in Hnct. rewrite length_seqZ in Hnct. lia. }
  split; [done|]. intros i sid Hi.
  rewrite (empty_enrollments p _ Hcodes) in H7.
  assert (∀ (x : Z) key l, x ∈ (enumerate ids).*2 →
            dict_get ((λ n, (course_code p n, ([] : list Z))) <$> Py.sorted cns0) key = Some l →
            x ∉ l) as Hfresh.
  { intros x key l _ Hl Hx.
    destruct (empty_enrollments_inv p (Py.sorted cns0) key l Hl) as [_ Hsub].
    by apply Hsub, elem_of_nil in Hx. }
  assert (NoDup (enumerate ids).*2) as Hndi
    by (rewrite enumerate_snd; apply (gen_ids_NoDup _ _ _ _ _ _ _ _ G)).
  destruct (assign_loop_courses p nc nct (Py.sorted cns0) Hcns Hcpos
              (enumerate ids) _ _ _ _ Hndi Hfresh H7 i sid (elem_of_enumerate ids i sid Hi))
    as (k & codes & Hk & Hrange & Hlc & Hnd & Hsome & Hmem).
  exists k, codes. split; [done|]. split.
  { rewrite Forall2_lookup in Hnct. specialize (Hnct i). rewrite Hk in Hnct.
    by inversion Hnct. }
  split; [done|]. split; [done|]. split; [done|]. split.
  - intros code Hc. destruct (Hsome code Hc) as [l Hl]. apply dict_get_Some in Hl.
    rewrite Hkeys. apply list_elem_of_fmap in Hl as (n & [= -> _] & Hn).
    apply list_elem_of_fmap. eauto.
  - intros code enrolled Hin. apply Hmem. apply dict_get_elem; [|done].
    by rewrite Hkeys.
Qed.

Lemma courses_per_student_witness :
  length (num_courses_taken example_locals) = length (student_ids example_locals)
  ∧ ∀ i sid, student_ids example_locals !! i = Some sid →
      ∃ k codes,
        num_courses_taken example_locals !! i = Some k
        ∧ (1, 2).1 ≤ k ≤ (1, 2).2 ∧ 0 ≤ k ≤ Z.max 0 3
        ∧ Z.of_nat (length codes) = k ∧ NoDup codes
        ∧ codes ⊆ (course_enrollments example_locals).*1
        ∧ ∀ code enrolled, (code, enrolled) ∈ course_enrollments example_locals →
            (sid ∈ enrolled ↔ code ∈ codes).
Proof.
  apply (courses_per_student "INFO" 3 3 (1, 2) example_rates "out"
           example_world example_locals example_after).
  vm_compute. reflexivity.
Defined.

End CoursesPerStudentRun.

Section EmptyInputs.

(** Empty inputs.  Without students ([num_students] zero or negative) a
    completed run leaves every course file with the count line [0] alone
    and a summary that is only the header.  Without courses it writes no
    course file, and the summary holds one line per student, the identifier
    followed by a comma. *)
Theorem generator_empty_inputs p nc ns cps rr od w0 L w1 fs :
  generate_enrollment_data_v4 p nc ns cps rr od w0 = (Ok L, w1) →
  dir w1 = Some fs →
  (ns ≤ 0 →
     student_ids L = []
     ∧ fs !! summary_name = Some summary_header
     ∧ ∀ n, n ∈ course_numbers L → fs !! course_file (course_code p n) = Some ("0" +:+ nl))
  ∧ (nc ≤ 0 →
     course_numbers L = [] ∧ withdrawals L = []
     ∧ fs = <[summary_name :=
                summary_header +:+ unlines ((λ sid, Py.str sid +:+ "," +:+ nl) <$> student_ids L)]>
              (initial_files w0)).
Proof.
  intros G%generate_Ok Hfs.
  destruct (generated_files _ _ _ _ _ _ _ _ _ G Hfs) as (Hf & Hcourses & Hr).
  split.
  - intros Hns.
    assert (student_ids L = []) as Hids.
    { apply nil_length_inv. pose proof (gen_ids_length _ _ _ _ _ _ _ _ G). lia. }
    split; [done|]. split.
    + rewrite (summary_generated _ _ _ _ _ _ _ _ _ G Hfs), Hids. done.
    + intros n Hn.
      destruct (generated_course_file _ _ _ _ _ _ _ _ _ _ G Hfs Hn) as (r & Hin & _ & -> & _).
      destruct (Hr r Hin) as (_ & _ & Hmem & Hok).
      destruct (gen_enrolled _ _ _ _ _ _ _ _ G _ _ Hmem) as [_ Hsub].
      assert (w_enrolled r = []) as He.
      { destruct (w_enrolled r) as [|x l]; [done|].
        specialize (Hsub x ltac:(left)). rewrite Hids in Hsub. by apply elem_of_nil in Hsub. }
      pose proof (split_range _ _ _ Hok) as Hc. pose proof (split_length _ _ _ Hok) as Hl.
      pose proof (split_remaining _ _ _ Hok) as Hrem. simpl in Hc, Hrem.
      rewrite He in Hc, Hrem. simpl in Hc, Hrem.
      assert (w_count r = 0) as H0 by lia.
      assert (w_withdrawn r = []) as Hw by (apply nil_length_inv; lia).
      unfold course_file_text. by rewrite H0, Hw, Hrem.
  - intros Hnc.
    assert (course_numbers L = []) as Hcns.
    { apply nil_length_inv. pose proof (gen_courses_length _ _ _ _ _ _ _ _ G). lia. }
    assert (withdrawals L = []) as Hws.
    { rewrite Hcns in Hcourses. by apply fmap_nil_inv in Hcourses. }
    split; [done|]. split; [done|].
    rewrite (gen_dir _ _ _ _ _ _ _ _ G) in Hfs. injection Hfs as <-.
    rewrite Hws, (gen_codes _ _ _ _ _ _ _ _ G), Hcns. done.
Qed.

Lemma generator_empty_inputs_witness :
  (0 ≤ 0 →
     student_ids no_students_locals = []
     ∧ no_students_files !! summary_name = Some summary_header
     ∧ ∀ n, n ∈ course_numbers no_students_locals →
         no_students_files !! course_file (course_code "INFO" n) = Some ("0" +:+ nl))
  ∧ (2 ≤ 0 →
     course_numbers no_students_locals = [] ∧ withdrawals no_students_locals = []
     ∧ no_students_files
       = <[summary_name :=
             summary_header
             +:+ unlines ((λ sid, Py.str sid +:+ "," +:+ nl) <$> student_ids no_students_locals)]>
           (initial_files no_students_world)).
Proof.
  apply (generator_empty_inputs "INFO" 2 0 (1, 2) example_rates "out"
           no_students_world no_students_locals no_students_run.2 no_students_files).
  - vm_compute. reflexivity.
  - reflexivity.
Defined.

End EmptyInputs.

(** * Statements about every outcome *)

Section Keeps.
Context (R : world → world → Prop) (E : exn → Prop) (S : Prop).
Hypothesis R_refl : ∀ w, R w w.
Hypothesis R_trans : ∀ w1 w2 w3, R w1 w2 → R w2 w3 → R w1 w3.

Lemma keeps_ret {A} (Φ : A → Prop) (a : A) : Φ a → keeps R Φ E S (ret a).
Proof. intros Ha w o w' [= <- <-]. done. Qed.

Lemma keeps_raise {A} (Φ : A → Prop) (e : exn) : E e → keeps R Φ E S (raise e).
Proof. intros He w o w' [= <- <-]. done. Qed.

Lemma keeps_try {A} (Φ : A → Prop) (o : option A) (e : exn) :
  (∀ a, o = Some a → Φ a) → (o = None → E e) → keeps R Φ E S (try o e).
Proof.
  intros Hs Hn. destruct o as [a|]; [apply keeps_ret|apply keeps_raise]; auto.
Qed.

Lemma keeps_bind {A B} (Φ : A → Prop) (Ψ : B → Prop) (m : M A) (f : A → M B) :
  keeps R Φ E S m → (∀ a, Φ a → keeps R Ψ E S (f a)) → keeps R Ψ E S (bind m f).
Proof.
  intros Hm Hf w o w' H. unfold bind in H.
  destruct (m w) as [[a|e|] w1] eqn:Em; destruct (Hm _ _ _ Em) as [HR HQ].
  - destruct (Hf a HQ _ _ _ H) as [HR' HQ']. eauto.
  - by injection H as <- <-.
  - by injection H as <- <-.
Qed.

Lemma keeps_foldM {St A} (I : St → Prop) (body : St → A → M St) (xs : list A) :
  (∀ s x, x ∈ xs → I s → keeps R I E S (body s x)) →
  ∀ s, I s → keeps R I E S (foldM body s xs).
Proof.
  induction xs as [|x xs IH]; intros Hbody s Hs; simpl.
  - by apply keeps_ret.
  - apply (keeps_bind I); [apply Hbody; [left|done]|].
    intros s' Hs'. apply IH; [|done]. intros; apply Hbody; [by right|done].
Qed.

Lemma keeps_mapM {A B} (Φ : A → B → Prop) (f : A → M B) (xs : list A) :
  (∀ x, x ∈ xs → keeps R (Φ x) E S (f x)) →
  keeps R (Forall2 Φ xs) E S (mapM f xs).
Proof.
  induction xs as [|x xs IH]; intros Hf; simpl.
  - apply keeps_ret. constructor.
  - apply (keeps_bind (Φ x)); [apply Hf; left|]. intros y Hy.
    apply (keeps_bind (Forall2 Φ xs)); [apply IH; intros; apply Hf; by right|].
    intros ys Hys. apply keeps_ret. by constructor.
Qed.

Lemma keeps_for_each {A} (body : A → M unit) (xs : list A) :
  (∀ x, x ∈ xs → keeps R (λ _, True) E S (body x)) →
  keeps R (λ _, True) E S (for_each xs body).
Proof.
  intros Hbody. unfold for_each. apply (keeps_foldM (λ _, True)); [|done].
  intros s x Hx _. by apply Hbody.
Qed.

End Keeps.

Lemma keeps_conseq {A} (R R' : world → world → Prop) (Φ Φ' : A → Prop)
    (E E' : exn → Prop) (S S' : Prop) (m : M A) :
  keeps R Φ E S m →
  (∀ w w', R w w' → R' w w') → (∀ a, Φ a → Φ' a) → (∀ e, E e → E' e) → (S → S') →
  keeps R' Φ' E' S' m.
Proof.
  intros Hm HR HΦ HE HS w o w' H. destruct (Hm _ _ _ H) as [? HQ].
  split; [auto|]. destruct o; auto.
Qed.

Section Primitives.

Lemma only_draws_refl w : only_draws w w.
Proof. split; [done|]. split; [done|]. by exists []. Qed.

Lemma only_draws_trans w1 w2 w3 : only_draws w1 w2 → only_draws w2 w3 → only_draws w1 w3.
Proof.
  intros (? & ? & u1 & H1) (? & ? & u2 & H2). split; [congruence|]. split; [congruence|].
  exists (u1 ++ u2). by rewrite H1, H2, app_assoc.
Qed.

Lemma only_writes_refl name w : only_writes name w w.
Proof. split; [done|]. split; [done|]. destruct (dir w); eauto. Qed.

Lemma only_writes_trans name w1 w2 w3 :
  only_writes name w1 w2 → only_writes name w2 w3 → only_writes name w1 w3.
Proof.
  intros (? & ? & H1) (? & ? & H2). split; [congruence|]. split; [congruence|].
  destruct (dir w1) as [fs1|].
  - destruct H1 as (fs2 & Hd2 & H1). rewrite Hd2 in H2. destruct H2 as (fs3 & Hd3 & H2).
    exists fs3. split; [done|]. intros n Hn. by rewrite H2, H1.
  - rewrite H1 in H2. done.
Qed.

Lemma draw_keeps : keeps only_draws (λ _ : Z, True) (λ _, False) True Random.draw.
Proof.
  intros [tp d out] o w' H. unfold Random.draw in H. simpl in H.
  destruct tp as [|t tp]; injection H as <- <-; (split; [|done]).
  - apply only_draws_refl.
  - split; [done|]. split; [done|]. by exists [t].
Qed.

Lemma randbelow_keeps n :
  keeps only_draws (λ r, 0 < n → 0 ≤ r < n) (λ _, False) True (Random.randbelow n).
Proof.
  unfold Random.randbelow, mbind, M_bind, mret, M_ret.
  apply (keeps_bind _ _ _ only_draws_trans (λ _, True)); [apply draw_keeps|].
  intros t _. apply keeps_ret; [apply only_draws_refl|]. apply Z.mod_pos_bound.
Qed.

Lemma randint_keeps a b :
  keeps only_draws (λ r, a ≤ r ≤ b) (λ e, e = ValueError ∧ b < a) True (Random.randint a b).
Proof.
  unfold Random.randint, mbind, M_bind, mret, M_ret.
  destruct (Z.ltb_spec b a) as [Hlt|Hge].
  - by apply keeps_raise; [apply only_draws_refl|].
  - apply (keeps_bind _ _ _ only_draws_trans (λ r, 0 ≤ r < b - a + 1)).
    + eapply keeps_conseq; [apply randbelow_keeps|done| |done|done]. intros r Hr. apply Hr. lia.
    + intros r Hr. apply keeps_ret; [apply only_draws_refl|]. lia.
Qed.

Lemma read_text_keeps name :
  keeps eq (λ _ : string, True) (λ e, e = FileNotFoundError) False (Os.read_text name).
Proof.
  intros w o w' H. unfold Os.read_text in H.
  destruct (dir w) as [fs|]; [destruct (fs !! name)|]; by injection H as <- <-.
Qed.

Lemma listdir_keeps :
  keeps eq (λ _ : list string, True) (λ e, e = FileNotFoundError) False Os.listdir.
Proof.
  intros w o w' H. unfold Os.listdir in H.
  destruct (dir w) as [fs|]; by injection H as <- <-.
Qed.

Lemma open_write_keeps name :
  keeps (only_writes name) (λ _ : unit, True) (λ e, e = FileNotFoundError) False
    (Os.open_write name).
Proof.
  intros w o w' H. unfold Os.open_write in H.
  destruct (dir w) as [fs|] eqn:Hd; injection H as <- <-; (split; [|done]).
  - split; [done|]. split; [done|]. rewrite Hd. eexists. split; [done|].
    intros n Hn. by rewrite lookup_insert_ne.
  - unfold only_writes. by rewrite Hd.
Qed.

Lemma write_keeps name text :
  keeps (only_writes name) (λ _ : unit, True) (λ e, e = FileNotFoundError) False
    (Os.write name text).
Proof.
  intros w o w' H. unfold Os.write in H.
  destruct (dir w) as [fs|] eqn:Hd; [destruct (fs !! name) as [old|] eqn:Hn|];
    injection H as <- <-; (split; [|done]).
  - split; [done|]. split; [done|]. rewrite Hd. eexists. split; [done|].
    intros n Hne. by rewrite lookup_insert_ne.
  - unfold only_writes. rewrite Hd. eauto.
  - unfold only_writes. by rewrite Hd.
Qed.

Lemma read_course_file_keeps name :
  keeps eq (λ _ : Z * list Z, True) (λ e, e = FileNotFoundError ∨ e = ValueError) False
    (read_course_file name).
Proof.
  unfold read_course_file, mbind, M_bind.
  apply (keeps_bind eq _ _ ltac:(congruence) (λ _, True)).
  - eapply keeps_conseq; [apply read_text_keeps|done|done| |done]. by left.
  - intros text _. apply keeps_try; [done|done|by right].
Qed.

End Primitives.

(** * What the matrix builder never does *)

Section BuilderFrame.

Lemma builder_frame_refl w : builder_frame w w.
Proof. split; [done|]. split; [done|]. destruct (dir w); eauto. Qed.

Lemma builder_frame_trans w1 w2 w3 :
  builder_frame w1 w2 → builder_frame w2 w3 → builder_frame w1 w3.
Proof.
  intros (? & ? & H1) (? & ? & H2). split; [congruence|]. split; [by etrans|].
  destruct (dir w1) as [fs1|].
  - destruct H1 as (fs2 & Hd2 & H1). rewrite Hd2 in H2. destruct H2 as (fs3 & Hd3 & H2).
    exists fs3. split; [done|]. intros n Hn. by rewrite H2, H1.
  - rewrite H1 in H2. done.
Qed.

Lemma builder_frame_eq w w' : w = w' → builder_frame w w'.
Proof. intros <-. apply builder_frame_refl. Qed.

Lemma builder_frame_writes w w' : only_writes matrix_name w w' → builder_frame w w'.
Proof. intros (? & Ho & ?). split; [done|]. split; [by rewrite Ho|done]. Qed.

Lemma print_builder_frame line :
  keeps builder_frame (λ _ : unit, True) builder_exn False (Os.print line).
Proof.
  intros w o w' [= <- <-]. split; [|done]. split; [done|]. split; [by apply prefix_app_r|].
  simpl. destruct (dir w); eauto.
Qed.

Lemma discover_courses_keeps p :
  keeps eq (λ _ : list Z, True) builder_exn False (discover_courses p).
Proof.
  unfold discover_courses, mbind, M_bind, mret, M_ret.
  apply (keeps_bind eq _ _ ltac:(congruence) (λ _, True)).
  - eapply keeps_conseq; [apply listdir_keeps|done|done| |done]. intros e ->. right. by left.
  - intros names _. apply (keeps_bind eq _ _ ltac:(congruence) (λ _, True)).
    + eapply keeps_conseq; [apply (keeps_mapM eq builder_exn False ltac:(done) ltac:(congruence)
                                     (λ _ _, True))|done|done|done|done].
      intros c _. apply keeps_try; [done|done|]. intros _. by left.
    + intros cns _. by apply keeps_ret.
Qed.

Lemma read_summary_ids_keeps :
  keeps eq (λ _ : list Z, True) builder_exn False read_summary_ids.
Proof.
  unfold read_summary_ids, mbind, M_bind, mret, M_ret.
  apply (keeps_bind eq _ _ ltac:(congruence) (λ _, True)).
  - eapply keeps_conseq; [apply read_text_keeps|done|done| |done]. intros e ->. right. by left.
  - intros text _. destruct (Py.readlines text) as [|header lines].
    + apply keeps_raise; [done|]. right. by right.
    + apply (keeps_bind eq _ _ ltac:(congruence) (λ _, True)).
      * eapply keeps_conseq; [apply (keeps_mapM eq builder_exn False ltac:(done) ltac:(congruence)
                                       (λ _ _, True))|done|done|done|done].
        intros line _. destruct (Py.split_comma1 (Py.strip line)) as [sid [rest|]].
        -- apply keeps_try; [done|done|]. intros _. by left.
        -- apply keeps_raise; [done|]. by left.
      * intros ids _. by apply keeps_ret.
Qed.

Lemma matrix_cell_keeps p sid n :
  keeps eq (λ _ : string, True) builder_exn False (matrix_cell p sid n).
Proof.
  unfold matrix_cell, mbind, M_bind, mret, M_ret.
  apply (keeps_bind eq _ _ ltac:(congruence) (λ _, True)).
  - eapply keeps_conseq; [apply read_course_file_keeps|done|done| |done].
    intros e [->| ->]; [right; by left|by left].
  - intros [nw all] _. by apply keeps_ret.
Qed.

(** Whatever the directory holds and however the run ends, the matrix
    builder draws no random number, does not create a missing directory,
    creates or changes no file but [student_course_matrix.csv], and takes
    nothing back from the standard output; the only exceptions it ends in
    are [ValueError], [FileNotFoundError] and [StopIteration]. *)
Theorem matrix_builder_frame p nc od w o w' :
  generate_student_course_matrix_v4 p nc od w = (o, w') →
  tape w' = tape w
  ∧ stdout w `prefix_of` stdout w'
  ∧ match dir w with
    | None => dir w' = None
    | Some fs => ∃ fs', dir w' = Some fs' ∧ ∀ name, name ≠ matrix_name → fs' !! name = fs !! name
    end
  ∧ match o with
    | Ok _ => True
    | Raise e => e = ValueError ∨ e = FileNotFoundError ∨ e = StopIteration
    | Starved => False
    end.
Proof.
  intros H.
  enough (keeps builder_frame (λ _ : unit, True) builder_exn False
            (generate_student_course_matrix_v4 p nc od)) as Hk.
  { destruct (Hk _ _ _ H) as [(? & ? & ?) ?]. done. }
  clear. unfold generate_student_course_matrix_v4, mbind, M_bind, mret, M_ret.
  pose proof builder_frame_refl as Hrefl. pose proof builder_frame_trans as Htrans.
  apply (keeps_bind _ _ _ Htrans (λ _, True)).
  { intros w o w' [= <- <-]. split; [apply Hrefl|done]. }
  intros ex _. destruct (negb ex); [apply print_builder_frame|].
  apply (keeps_bind _ _ _ Htrans (λ _, True)).
  { eapply keeps_conseq; [apply discover_courses_keeps|apply builder_frame_eq|done..]. }
  intros cols _. apply (keeps_bind _ _ _ Htrans (λ _, True)).
  { eapply keeps_conseq; [apply read_summary_ids_keeps|apply builder_frame_eq|done..]. }
  intros ids _. apply (keeps_bind _ _ _ Htrans (λ _, True)).
  { eapply keeps_conseq; [apply open_write_keeps|apply builder_frame_writes|done| |done].
    intros e ->. right. by left. }
  intros _ _. apply (keeps_bind _ _ _ Htrans (λ _, True)).
  { eapply keeps_conseq; [apply write_keeps|apply builder_frame_writes|done| |done].
    intros e ->. right. by left. }
  intros _ _. apply (keeps_bind _ _ _ Htrans (λ _, True)); [|intros; apply print_builder_frame].
  apply keeps_for_each; [done..|]. intros sid _.
  apply (keeps_bind _ _ _ Htrans (λ _, True)).
  - eapply keeps_conseq; [apply (keeps_mapM eq builder_exn False ltac:(done) ltac:(congruence)
                                   (λ _ _, True))|apply builder_frame_eq|done|done|done].
    intros n _. apply matrix_cell_keeps.
  - intros cells _.
    eapply keeps_conseq; [apply write_keeps|apply builder_frame_writes|done| |done].
    intros e ->. right. by left.
Qed.

Lemma matrix_builder_frame_witness :
  tape example_matrix_run.2 = tape example_after
  ∧ stdout example_after `prefix_of` stdout example_matrix_run.2
  ∧ match dir example_after with
    | None => dir example_matrix_run.2 = None
    | Some fs => ∃ fs', dir example_matrix_run.2 = Some fs'
                        ∧ ∀ name, name ≠ matrix_name → fs' !! name = fs !! name
    end
  ∧ match example_matrix_run.1 with
    | Ok _ => True
    | Raise e => e = ValueError ∨ e = FileNotFoundError ∨ e = StopIteration
    | Starved => False
    end.
Proof.
  apply (matrix_builder_frame "INFO" 3 "out" example_after
           example_matrix_run.1 example_matrix_run.2).
  vm_compute. reflexivity.
Defined.

End BuilderFrame.

(** * The matrix builder on any directory *)

Section BuilderAnyDirectory.

Lemma mapM_ext_M {A B} (f g : A → M B) (l : list A) :
  (∀ x, f x = g x) → mapM f l = mapM g l.
Proof. intros Hfg. induction l as [|x l IH]; simpl; [done|]. by rewrite Hfg, IH. Qed.

(** Lines 102 to 109 in one equation. *)
Lemma read_summary_ids_eq w fs text :
  dir w = Some fs → fs !! summary_name = Some text →
  read_summary_ids w
  = match Py.readlines text with
    | [] => (Raise StopIteration, w)
    | _ :: lines =>
        match mapM line_student_id lines with
        | Some ids => (Ok (Py.sorted ids), w)
        | None => (Raise ValueError, w)
        end
    end.
Proof.
  intros Hd Hf. unfold read_summary_ids, mbind, M_bind, mret, M_ret.
  rewrite (bind_step _ _ _ _ _ (read_text_eq _ _ _ _ Hd Hf)).
  destruct (Py.readlines text) as [|header lines]; [done|].
  rewrite (mapM_ext_M _ (λ line, try (line_student_id line) ValueError)).
  - unfold bind. rewrite mapM_try. by destruct (mapM line_student_id lines).
  - intros line. unfold line_student_id.
    by destruct (Py.split_comma1 (Py.strip line)) as [sid [rest|]].
Qed.

Lemma summary_missing w fs :
  dir w = Some fs → fs !! summary_name = None →
  read_summary_ids w = (Raise FileNotFoundError, w).
Proof.
  intros Hd Hf. unfold read_summary_ids, mbind, M_bind, bind, Os.read_text.
  by rewrite Hd, Hf.
Qed.

Lemma file_active_ext fs fs' code :
  fs' !! course_file code = fs !! course_file code → file_active fs' code = file_active fs code.
Proof. intros H. unfold file_active. by rewrite H. Qed.

Lemma matrix_text_ext fs fs' p cols rows :
  (∀ n, n ∈ cols → fs' !! course_file (course_code p n) = fs !! course_file (course_code p n)) →
  matrix_text fs' p cols rows = matrix_text fs p cols rows.
Proof.
  intros H. unfold matrix_text. f_equal. f_equal. apply list_fmap_ext. intros _ sid _.
  unfold matrix_row. f_equal. f_equal. f_equal. apply list_fmap_ext. intros i n Hn.
  apply matrix_cell_text_ext, H. by eapply list_elem_of_lookup_2.
Qed.

(** The builder from the first writing statement on. *)
Lemma matrix_write_eq p od cols rows w fs :
  dir w = Some fs →
  (rows ≠ [] → ∀ n, n ∈ cols → ∃ text r, fs !! course_file (course_code p n) = Some text
                                          ∧ parse_course_text text = Some r) →
  bind (Os.open_write matrix_name) (λ _,
    bind (Os.write matrix_name
            (("StudentID," +:+ Py.join "," ((λ c, p +:+ Py.str c) <$> cols)) +:+ nl)) (λ _,
      bind (for_each rows (λ student_id,
              bind (mapM (matrix_cell p student_id) cols) (λ cells,
                Os.write matrix_name (Py.join "," (Py.str student_id :: cells) +:+ nl))))
        (λ _, Os.print ("Student-course matrix saved to: " +:+ Os.path_join od matrix_name)))) w
  = (Ok tt,
     World (tape w) (Some (<[matrix_name := matrix_text fs p cols rows]> fs))
       (stdout w ++ ["Student-course matrix saved to: " +:+ Os.path_join od matrix_name])).
Proof.
  intros Hd Hparse.
  rewrite (bind_step _ _ _ _ _ (open_write_eq matrix_name w fs Hd)).
  erewrite bind_step; [|by eapply write_eq; [|apply lookup_insert_eq]].
  destruct rows as [|sid rows].
  - unfold for_each. simpl. unfold bind at 1, ret at 1. unfold Os.print. cbn [tape dir stdout].
    rewrite insert_insert_eq. unfold matrix_text, matrix_header. simpl unlines.
    rewrite app_nil_r_s. change (EmptyString +:+ ?x) with x. done.
  - erewrite bind_step.
    2:{ apply (matrix_loop p cols (sid :: rows) fs).
        - by apply Hparse.
        - done.
        - apply lookup_insert_eq.
        - intros n Hn. rewrite !lookup_insert_ne by apply not_eq_sym, course_file_not_matrix.
          done. }
    unfold Os.print. cbn [tape dir stdout]. rewrite !insert_insert_eq.
    unfold matrix_text, matrix_header. change (EmptyString +:+ ?x) with x. done.
Qed.

(** The run of the builder on a directory that it can read, written out. *)
Lemma matrix_builder_run p nc od w fs text header lines cols ids :
  dir w = Some fs →
  mapM Py.int (middle p <$> filter (λ name, course_like p name) (names_of fs)) = Some cols →
  fs !! summary_name = Some text →
  Py.readlines text = header :: lines →
  mapM line_student_id lines = Some ids →
  (ids ≠ [] → ∀ n, n ∈ cols →
     ∃ t r, fs !! course_file (course_code p n) = Some t ∧ parse_course_text t = Some r) →
  generate_student_course_matrix_v4 p nc od w
  = (Ok tt,
     World (tape w)
       (Some (<[matrix_name := matrix_text fs p (Py.sorted cols) (Py.sorted ids)]> fs))
       (stdout w ++ ["Student-course matrix saved to: " +:+ Os.path_join od matrix_name])).
Proof.
  intros Hd Hcols Hsum Hlines Hids Hparse.
  unfold generate_student_course_matrix_v4, mbind, M_bind, mret, M_ret.
  erewrite bind_step; [|unfold Os.path_exists; by rewrite Hd].
  rewrite bool_decide_eq_true_2 by eauto. cbn [negb].
  erewrite bind_step; [|by rewrite (discover_courses_eq p w fs Hd), Hcols].
  erewrite bind_step; [|by rewrite (read_summary_ids_eq w fs text Hd Hsum), Hlines, Hids].
  apply matrix_write_eq; [done|].
  intros Hne n Hn. apply Hparse.
  - intros ->. by apply Hne.
  - by rewrite sorted_Permutation in Hn.
Qed.



End BuilderAnyDirectory.

Section BuilderErrors.

Lemma split_comma1_comma_free (s : string) :
  comma_free s = true → Py.split_comma1 s = (s, None).
Proof.
  induction s as [|c s IH]; [done|]. unfold comma_free. simpl.
  intros [Hc Hs]%andb_true_iff. apply negb_true_iff in Hc. rewrite Hc.
  by rewrite (IH Hs).
Qed.



Lemma mapM_cells_fail p sid (cols : list Z) w fs n :
  dir w = Some fs → n ∈ cols →
  fs !! course_file (course_code p n) ≫= parse_course_text = None →
  ∃ e, mapM (matrix_cell p sid) cols w = (Raise e, w)
       ∧ (e = FileNotFoundError ∨ e = ValueError).
Proof.
  intros Hd Hn Hbad.
  assert (keeps eq (Forall2 (λ _ _, True) cols)
            (λ e, e = FileNotFoundError ∨ e = ValueError) False
            (mapM (matrix_cell p sid) cols)) as Hk.
  { apply keeps_mapM; [done|congruence|]. intros m _.
    unfold matrix_cell, mbind, M_bind, mret, M_ret.
    apply (keeps_bind eq _ _ ltac:(congruence) (λ _, True)).
    - apply read_course_file_keeps.
    - intros [nw all] _. by apply keeps_ret. }
  destruct (mapM (matrix_cell p sid) cols w) as [[cells|e|] w'] eqn:E;
    destruct (Hk _ _ _ E) as [<- HQ]; [|eauto|done].
  exfalso.
  apply (mapM_Ok_inv _ (λ w1, w1 = w) (λ m _, is_Some
           (fs !! course_file (course_code p m) ≫= parse_course_text))) in E as [_ HF];
    [| |done].
  - apply list_elem_of_lookup in Hn as [i Hi].
    destruct (Forall2_lookup_l _ _ _ _ _ HF Hi) as (y & _ & Hsome).
    rewrite Hbad in Hsome. by destruct Hsome.
  - intros m w1 y w1' _ -> Hcell.
    unfold matrix_cell, mbind, M_bind, mret, M_ret, read_course_file in Hcell. run_inv.
    destruct v as [nw all]. apply ret_Ok in Hcell as [_ <-]. subst.
    unfold Os.read_text in Hr0. rewrite Hd in Hr0.
    rewrite <- app_assoc_s in Hr0. fold (course_code p m) in Hr0.
    fold (course_file (course_code p m)) in Hr0.
    destruct (fs !! course_file (course_code p m)) as [t|]; [|done].
    injection Hr0 as <- <-. split; [done|]. simpl.
    match goal with H : parse_course_text _ = Some _ |- _ => rewrite H end. eauto.
Qed.



End BuilderErrors.

Section BuilderTwice.

Lemma matrix_not_course_like p : course_like p matrix_name = false.
Proof. unfold course_like. apply andb_false_intro2. reflexivity. Qed.

Lemma names_of_insert (fs : gmap string string) (k v : string) :
  names_of (<[k := v]> fs) ≡ₚ k :: names_of (delete k fs).
Proof.
  unfold names_of. rewrite <- insert_delete_eq.
  by rewrite map_to_list_insert by apply lookup_delete_eq.
Qed.

Lemma names_of_delete (fs : gmap string string) (k : string) :
  names_of fs ≡ₚ names_of (delete k fs) ∨ names_of fs ≡ₚ k :: names_of (delete k fs).
Proof.
  destruct (fs !! k) as [v|] eqn:Hk.
  - right. rewrite <- (insert_delete_id fs k v Hk) at 1. unfold names_of.
    by rewrite map_to_list_insert by apply lookup_delete_eq.
  - left. by rewrite delete_id.
Qed.

(** Writing the matrix does not change what the builder takes for course
    files. *)
Lemma selected_insert_matrix p (fs : gmap string string) (text : string) :
  filter (λ name, course_like p name) (names_of (<[matrix_name := text]> fs))
  ≡ₚ filter (λ name, course_like p name) (names_of fs).
Proof.
  assert (∀ l, filter (λ name, course_like p name) (matrix_name :: l)
               = filter (λ name, course_like p name) l) as Hskip.
  { intros l. rewrite filter_cons_False; [done|]. cbv beta.
    rewrite matrix_not_course_like. by intros []. }
  rewrite names_of_insert, Hskip.
  destruct (names_of_delete fs matrix_name) as [->| ->]; [done|]. by rewrite Hskip.
Qed.

Lemma mapM_Permutation {A B} (f : A → option B) (l1 l2 : list A) (k1 : list B) :
  l1 ≡ₚ l2 → mapM f l1 = Some k1 → ∃ k2, mapM f l2 = Some k2 ∧ k1 ≡ₚ k2.
Proof.
  intros Hp. revert k1. induction Hp as [|x l1 l2 Hp IH|x y l|l1 l2 l3 Hp1 IH1 Hp2 IH2];
    intros k1 H.
  - exists k1. done.
  - simpl in *. destruct (f x) as [b|]; [|done]. simpl in *.
    destruct (mapM f l1) as [k|]; [|done]. injection H as <-.
    destruct (IH k eq_refl) as (k2 & -> & Hk). simpl. eexists. split; [done|]. by constructor.
  - simpl in *. destruct (f y) as [b|]; [|done]. destruct (f x) as [a|]; [|done]. simpl in *.
    destruct (mapM f l) as [k|]; [|done]. injection H as <-. simpl.
    eexists. split; [done|]. apply perm_swap.
  - destruct (IH1 _ H) as (k2 & H2 & Hk2). destruct (IH2 _ H2) as (k3 & H3 & Hk3).
    exists k3. split; [done|]. by etrans.
Qed.

Lemma sorted_Permutation_eq (l1 l2 : list Z) : l1 ≡ₚ l2 → Py.sorted l1 = Py.sorted l2.
Proof.
  intros Hp. apply (Sorted_unique Z.le); [apply sorted_Sorted..|].
  by rewrite !sorted_Permutation.
Qed.

(** A run of the builder that succeeds on an existing directory found
    what [matrix_builder_run] asks for. *)
Lemma matrix_builder_Ok_inv p nc od w fs w2 :
  dir w = Some fs →
  generate_student_course_matrix_v4 p nc od w = (Ok tt, w2) →
  ∃ text header lines cols ids,
    mapM Py.int (middle p <$> filter (λ name, course_like p name) (names_of fs)) = Some cols
    ∧ fs !! summary_name = Some text
    ∧ Py.readlines text = header :: lines
    ∧ mapM line_student_id lines = Some ids
    ∧ (ids ≠ [] → ∀ n, n ∈ cols →
         ∃ t r, fs !! course_file (course_code p n) = Some t ∧ parse_course_text t = Some r).
Proof.
  intros Hd H. unfold generate_student_course_matrix_v4, mbind, M_bind, mret, M_ret in H.
  erewrite bind_step in H; [|unfold Os.path_exists; by rewrite Hd].
  rewrite bool_decide_eq_true_2 in H by eauto. cbn [negb] in H.
  apply bind_Ok in H as (cols' & w1 & Hdisc & H).
  rewrite (discover_courses_eq p w fs Hd) in Hdisc.
  destruct (mapM Py.int _) as [cols|] eqn:Hcols; [|done]. injection Hdisc as <- <-.
  apply bind_Ok in H as (ids' & w1 & Hsum & H).
  destruct (fs !! summary_name) as [text|] eqn:Hf;
    [|by rewrite (summary_missing w fs Hd Hf) in Hsum].
  rewrite (read_summary_ids_eq w fs text Hd Hf) in Hsum.
  destruct (Py.readlines text) as [|header lines] eqn:Hlines; [done|].
  destruct (mapM line_student_id lines) as [ids|] eqn:Hids; [|done]. injection Hsum as <- <-.
  exists text, header, lines, cols, ids. repeat (split; [done|]).
  intros Hne n Hn.
  rewrite (bind_step _ _ _ _ _ (open_write_eq matrix_name w fs Hd)) in H.
  erewrite bind_step in H; [|by eapply write_eq; [|apply lookup_insert_eq]].
  apply bind_Ok in H as ([] & w3 & Hloop & _).
  destruct (Py.sorted ids) as [|sid rows] eqn:Hsorted.
  { destruct Hne. apply Permutation_nil. by rewrite <- (sorted_Permutation ids), Hsorted. }
  unfold for_each in Hloop.
  change (foldM ?f tt (sid :: rows)) with (bind (f tt sid) (λ s, foldM f s rows)) in Hloop.
  apply bind_Ok in Hloop as ([] & w4 & Hrow & _).
  apply bind_Ok in Hrow as (cells & w5 & Hcells & _).
  destruct (fs !! course_file (course_code p n) ≫= parse_course_text) as [r|] eqn:Hparse.
  - destruct (fs !! course_file (course_code p n)) as [t|]; [|done]. eauto.
  - exfalso. cbn [tape dir stdout] in Hcells.
    match type of Hcells with
    | mapM _ _ ?w0 = _ =>
        destruct (mapM_cells_fail p sid (Py.sorted cols) w0 _ n eq_refl) as (e & He & _)
    end.
    + by rewrite sorted_Permutation.
    + by rewrite !lookup_insert_ne by apply not_eq_sym, course_file_not_matrix.
    + pose proof (eq_trans (eq_sym Hcells) He) as Hx. done.
Qed.

(** Run again on the directory it has just written into, the builder
    writes the same matrix once more: the matrix file is not taken for a
    course file, so the second run finds the same columns, students and
    cells and leaves the directory as the first run left it. *)
Theorem matrix_builder_idempotent p nc od nc' od' w w2 :
  generate_student_course_matrix_v4 p nc od w = (Ok tt, w2) →
  ∃ w3, generate_student_course_matrix_v4 p nc' od' w2 = (Ok tt, w3)
        ∧ dir w3 = dir w2 ∧ tape w3 = tape w2.
Proof.
  intros H. destruct (dir w) as [fs|] eqn:Hd.
  - destruct (matrix_builder_Ok_inv p nc od w fs w2 Hd H)
      as (text & header & lines & cols & ids & Hcols & Hsum & Hlines & Hids & Hparse).
    rewrite (matrix_builder_run p nc od w fs text header lines cols ids) in H by done.
    injection H as <-.
    set (T := matrix_text fs p (Py.sorted cols) (Py.sorted ids)).
    destruct (mapM_Permutation Py.int
                (middle p <$> filter (λ name, course_like p name) (names_of fs))
                (middle p <$> filter (λ name, course_like p name)
                                (names_of (<[matrix_name := T]> fs))) cols)
      as (cols2 & Hcols2 & Hperm); [by rewrite selected_insert_matrix|done|].
    eexists. split.
    + apply (matrix_builder_run p nc' od' _ (<[matrix_name := T]> fs)
               text header lines cols2 ids); [done|done| |done|done|].
      * by rewrite lookup_insert_ne.
      * intros Hne n Hn. rewrite lookup_insert_ne by apply not_eq_sym, course_file_not_matrix.
        apply Hparse; [done|]. by rewrite Hperm.
    + cbn [dir tape]. split; [|done]. f_equal. rewrite insert_insert_eq. f_equal.
      rewrite <- (sorted_Permutation_eq cols cols2 Hperm). apply matrix_text_ext.
      intros n _. by rewrite lookup_insert_ne by apply not_eq_sym, course_file_not_matrix.
  - unfold generate_student_course_matrix_v4, mbind, M_bind, bind, Os.path_exists in H |- *.
    rewrite Hd in H. simpl in H. injection H as <-. simpl. rewrite Hd. simpl. eauto.
Qed.

Lemma matrix_builder_idempotent_witness :
  ∃ w3, generate_student_course_matrix_v4 "INFO" 5 "elsewhere" example_matrix_run.2 = (Ok tt, w3)
        ∧ dir w3 = dir example_matrix_run.2 ∧ tape w3 = tape example_matrix_run.2.
Proof.
  apply (matrix_builder_idempotent "INFO" 3 "out" 5 "elsewhere" example_after
           example_matrix_run.2).
  vm_compute. reflexivity.
Defined.

End BuilderTwice.

(** * Every outcome of the generator *)

Section GeneratorOutcomes.

Lemma bind_cases {A B} (m : M A) (f : A → M B) w o w' :
  bind m f w = (o, w') →
  (∃ a w1, m w = (Ok a, w1) ∧ f a w1 = (o, w'))
  ∨ (∃ e, m w = (Raise e, w') ∧ o = Raise e)
  ∨ (m w = (Starved, w') ∧ o = Starved).
Proof.
  unfold bind. destruct (m w) as [[a|e|] w1]; intros H.
  - left. eauto.
  - injection H as <- <-. right. left. eauto.
  - injection H as <- <-. right. by right.
Qed.

Lemma draw_distinct_outcome lo hi n : ∀ tp xs o tp',
  draw_distinct lo hi n xs tp = (o, tp') →
  (∃ used, tp = used ++ tp') ∧ match o with Raise _ => False | _ => True end.
Proof.
  induction tp as [|t tp IH]; intros xs o tp' H; simpl in H.
  - destruct (Z.of_nat (length xs) <? n); injection H as <- <-; (split; [by exists []|done]).
  - destruct (Z.of_nat (length xs) <? n).
    + case_bool_decide; apply IH in H as [[u ->] ?]; (split; [by exists (t :: u)|done]).
    + injection H as <- <-. split; [by exists []|done].
Qed.

Lemma distinct_randints_keeps lo hi n :
  keeps only_draws (λ _ : list Z, True) (λ _, False) True (distinct_randints lo hi n).
Proof.
  intros w o w' H. unfold distinct_randints in H.
  destruct (draw_distinct lo hi n [] (tape w)) as [o1 tp] eqn:E. injection H as <- <-.
  apply draw_distinct_outcome in E as [Hu Ho]. split; [done|]. by destruct o1.
Qed.

Lemma shuffle_keeps {A} (x : list A) :
  keeps only_draws (λ _ : list A, True) (λ _, False) True (Random.shuffle x).
Proof.
  unfold Random.shuffle.
  apply (keeps_foldM _ _ _ only_draws_refl only_draws_trans (λ _, True)); [|done].
  intros s i _ _. unfold mbind, M_bind, mret, M_ret.
  apply (keeps_bind _ _ _ only_draws_trans (λ _, True)).
  - eapply keeps_conseq; [apply randbelow_keeps|done..].
  - intros j _. by apply keeps_ret; [apply only_draws_refl|].
Qed.

(** [sample] ends in no exception but the [ValueError] of a sample size
    that is negative or larger than the population. *)
Lemma sample_keeps {A} (population : list A) (k : Z) :
  keeps only_draws (λ _ : list A, True)
    (λ e, e = ValueError ∧ (k < 0 ∨ Z.of_nat (length population) < k)) True
    (Random.sample population k).
Proof.
  unfold Random.sample.
  destruct (Z.ltb_spec k 0) as [?|Hk0];
    [apply keeps_raise; [apply only_draws_refl|]; split; [done|lia]|].
  destruct (Z.ltb_spec (Z.of_nat (length population)) k) as [?|Hkn];
    [apply keeps_raise; [apply only_draws_refl|]; split; [done|lia]|].
  cbn [orb]. unfold mbind, M_bind, mret, M_ret.
  set (n := length population).
  apply (keeps_bind _ _ _ only_draws_trans (λ _, True)).
  - eapply keeps_conseq;
      [apply (keeps_foldM only_draws (λ _, False) True only_draws_refl only_draws_trans
                (λ s : list A * list A, length s.1 = n))|done|done|done|done]; [|done].
    intros [pool result] i Hi Hpool. simpl in Hpool.
    apply elem_of_seq in Hi.
    apply (keeps_bind _ _ _ only_draws_trans (λ j, 0 ≤ j < Z.of_nat (n - i))).
    { eapply keeps_conseq; [apply randbelow_keeps|done| |done|done].
      intros j Hj. apply Hj. lia. }
    intros j Hj.
    apply (keeps_bind _ _ _ only_draws_trans (λ _, True)).
    { apply keeps_try; [apply only_draws_refl|done|].
      intros Hnone. apply lookup_ge_None in Hnone. lia. }
    intros picked _.
    apply (keeps_bind _ _ _ only_draws_trans (λ _, True)).
    { apply keeps_try; [apply only_draws_refl|done|].
      intros Hnone. apply lookup_ge_None in Hnone. lia. }
    intros last _. apply keeps_ret; [apply only_draws_refl|]. simpl.
    by rewrite length_insert.
  - intros [pool result] _. by apply keeps_ret; [apply only_draws_refl|].
Qed.

Lemma dict_get_is_Some {V} (d : dict V) (k : string) : k ∈ d.*1 → is_Some (dict_get d k).
Proof.
  induction d as [|[k0 v0] d IH]; simpl; [by intros ?%elem_of_nil|].
  intros [->|Hin]%elem_of_cons.
  - rewrite String.eqb_refl. eauto.
  - destruct (String.eqb k0 k); [eauto|by apply IH].
Qed.

(** Step 5 for one student raises nothing but the [ValueError] of
    [sample], and keeps the courses of the dictionary. *)
Lemma assign_student_keeps p nc (nct cns : list Z) (d : dict (list Z)) (i : nat) (sid : Z) :
  (i < length nct)%nat → Z.of_nat (length cns) = Z.max 0 nc →
  d.*1 = course_code p <$> cns →
  keeps only_draws (λ d' : dict (list Z), d'.*1 = d.*1)
    (λ e, e = ValueError ∧ ∃ k, k ∈ nct ∧ (k < 0 ∨ Z.max 0 nc < k)) True
    (assign_student p nc nct cns d (i, sid)).
Proof.
  intros Hi Hlen Hkeys. unfold assign_student, mbind, M_bind, mret, M_ret.
  apply (keeps_bind _ _ _ only_draws_trans (λ k, k ∈ nct)).
  { apply keeps_try; [apply only_draws_refl|by intros k ?%list_elem_of_lookup_2|].
    intros Hnone. apply lookup_ge_None in Hnone. lia. }
  intros k Hk.
  apply (keeps_bind _ _ _ only_draws_trans (λ sel, ∀ idx, idx ∈ sel → 0 ≤ idx < nc)).
  { intros w o w' H. destruct (sample_keeps (range nc) k w o w' H) as [HR HQ].
    split; [done|]. destruct o as [sel|e|]; [| |done].
    - apply sample_Ok in H as (_ & _ & _ & rest & Hperm).
      intros idx Hidx.
      assert (idx ∈ range nc) as Hin
        by (unfold range; rewrite <- Hperm; apply elem_of_app; by left).
      apply elem_of_seqZ in Hin. lia.
    - destruct HQ as [-> Hcause]. split; [done|]. exists k. split; [done|].
      unfold range in Hcause. rewrite length_seqZ in Hcause. lia. }
  intros sel Hsel.
  apply (keeps_foldM _ _ _ only_draws_refl only_draws_trans (λ d', d'.*1 = d.*1)); [|done].
  intros d1 idx Hidx Hd1. specialize (Hsel idx Hidx).
  destruct (cns !! Z.to_nat idx) as [cn|] eqn:Hcn;
    [|apply lookup_ge_None in Hcn; lia].
  change (try (Some cn) IndexError) with (@ret Z cn).
  intros w o w' H. unfold bind at 1, ret at 1 in H. unfold dict_append, mbind, M_bind in H.
  assert (is_Some (dict_get d1 (p +:+ Py.str cn))) as [l Hl].
  { apply dict_get_is_Some. rewrite Hd1, Hkeys. apply list_elem_of_fmap.
    exists cn. split; [done|]. by eapply list_elem_of_lookup_2. }
  rewrite Hl in H. unfold bind, try, ret, mret, M_ret in H. injection H as <- <-.
  split; [apply only_draws_refl|]. rewrite <- Hd1. apply dict_set_keys. eauto.
Qed.

Lemma withdrawal_count_keeps (n : nat) (rate : spec_float) :
  keeps eq (λ c : Z, Float.trunc (Float.mul (Float.of_int (Z.of_nat n)) rate) = Some c)
    (count_error n rate) False (withdrawal_count n rate).
Proof.
  unfold withdrawal_count, count_error.
  destruct (Float.mul (Float.of_int (Z.of_nat n)) rate) as [s|s| |s m e].
  - by apply keeps_try.
  - by apply keeps_raise.
  - by apply keeps_raise.
  - by apply keeps_try.
Qed.

End GeneratorOutcomes.

Section GeneratorFrame.

Lemma uniform_keeps a b :
  keeps only_draws (λ _ : spec_float, True) (λ _, False) True (Random.uniform a b).
Proof.
  unfold Random.uniform, Random.random, mbind, M_bind, mret, M_ret.
  apply (keeps_bind _ _ _ only_draws_trans (λ _, True)).
  - apply (keeps_bind _ _ _ only_draws_trans (λ _, True)).
    + eapply keeps_conseq; [apply randbelow_keeps|done..].
    + intros k _. by apply keeps_ret; [apply only_draws_refl|].
  - intros u _. by apply keeps_ret; [apply only_draws_refl|].
Qed.

Lemma uniform_value_Ok a b r w w' :
  Random.uniform a b w = (Ok r, w') → ∃ k, 0 ≤ k < 2 ^ 53 ∧ r = uniform_value a b k.
Proof.
  unfold Random.uniform, Random.random, Random.randbelow. intros H. run_inv. subst.
  eexists. split; [|done]. by apply Z.mod_pos_bound.
Qed.

(** Step 6 for one course, whatever its outcome: the file is written
    only when the count and the sample have been found. *)
Lemma withdraw_course_outcome rr (item : string * list Z) w fs o w' :
  dir w = Some fs →
  withdraw_course rr item w = (o, w') →
  (∃ used, tape w = used ++ tape w') ∧ stdout w' = stdout w
  ∧ match o with
    | Ok r => dir w' = Some (<[course_file item.1 := course_file_text r]> fs)
    | Raise e =>
        (∃ k, 0 ≤ k < 2 ^ 53 ∧ count_error (length item.2) (uniform_value rr.1 rr.2 k) e)
        ∧ dir w' = Some fs
    | Starved => dir w' = Some fs
    end.
Proof.
  intros Hd H. destruct item as [course_name enrolled].
  unfold withdraw_course, mbind, M_bind in H.
  apply bind_cases in H as [(rate & w1 & Hs & H)|[(e & Hs & ->)|[Hs ->]]];
    destruct (uniform_keeps _ _ _ _ _ Hs) as [(Hd1 & Ho1 & Hu1) HQ1]; try done.
  2:{ split; [done|]. split; [done|]. congruence. }
  apply uniform_value_Ok in Hs as (k & Hk & ->).
  apply bind_cases in H as [(c & w2 & Hs2 & H)|[(e & Hs2 & ->)|[Hs2 ->]]];
    destruct (withdrawal_count_keeps _ _ _ _ _ Hs2) as [<- HQ2]; try done.
  2:{ split; [done|]. split; [done|]. split; [eauto|congruence]. }
  apply bind_cases in H as [(withdrawn & w3 & Hs3 & H)|[(e & Hs3 & ->)|[Hs3 ->]]];
    destruct (sample_keeps _ _ _ _ _ Hs3) as [(Hd3 & Ho3 & Hu3) HQ3].
  - rewrite (write_course_block _ _ _ _ _ w3 fs) in H by congruence.
    injection H as <- <-. cbn [tape dir stdout].
    split; [|split; [congruence|done]].
    destruct Hu1 as [u1 ->], Hu3 as [u3 ->]. exists (u1 ++ u3). by rewrite app_assoc.
  - destruct HQ3 as [-> Hcause].
    split; [|split; [congruence|split; [|congruence]]].
    + destruct Hu1 as [u1 ->], Hu3 as [u3 ->]. exists (u1 ++ u3). by rewrite app_assoc.
    + exists k. split; [done|]. unfold count_error. simpl.
      destruct (Float.mul _ _) as [s|s| |s m e]; try done; eauto.
  - split; [|split; [congruence|congruence]].
    destruct Hu1 as [u1 ->], Hu3 as [u3 ->]. exists (u1 ++ u3). by rewrite app_assoc.
Qed.

Lemma withdraw_all_outcome rr (items : list (string * list Z)) :
  ∀ w fs o w',
    dir w = Some fs →
    mapM (withdraw_course rr) items w = (o, w') →
    (∃ used, tape w = used ++ tape w') ∧ stdout w' = stdout w
    ∧ (∃ fs', dir w' = Some fs'
              ∧ ∀ name, name ∉ course_file <$> items.*1 → fs' !! name = fs !! name)
    ∧ match o with
      | Raise e => ∃ item k, item ∈ items ∧ 0 ≤ k < 2 ^ 53
                             ∧ count_error (length item.2) (uniform_value rr.1 rr.2 k) e
      | _ => True
      end.
Proof.
  induction items as [|item items IH]; intros w fs o w' Hd H.
  - injection H as <- <-. split; [by exists []|]. split; [done|]. split; [eauto|done].
  - change (mapM ?f (item :: items)) with
      (bind (f item) (λ y, bind (mapM f items) (λ ys, ret (y :: ys)))) in H.
    apply bind_cases in H as [(r & w1 & Hs & H)|[(e & Hs & ->)|[Hs ->]]];
      destruct (withdraw_course_outcome _ _ _ _ _ _ Hd Hs) as (Hu1 & Ho1 & HQ1).
    + assert (∃ o2, mapM (withdraw_course rr) items w1 = (o2, w')
                    ∧ match o with Raise e => o2 = Raise e | _ => True end) as (o2 & H2 & Ho2).
      { apply bind_cases in H as [(rs & w2 & Hs2 & H)|[(e & Hs2 & ->)|[Hs2 ->]]];
          [injection H as <- <-|..]; eauto. }
      destruct (IH _ _ _ _ HQ1 H2) as (Hu2 & Ho2' & (fs' & Hd' & Hframe) & HQ2).
      split; [|split; [congruence|split]].
      * destruct Hu1 as [u1 ->], Hu2 as [u2 ->]. exists (u1 ++ u2). by rewrite app_assoc.
      * exists fs'. split; [done|]. intros name Hname. simpl in Hname.
        apply not_elem_of_cons in Hname as [Hne Hname].
        rewrite Hframe by done. by rewrite lookup_insert_ne.
      * destruct o; [done| |done]. subst o2. destruct HQ2 as (it & k & Hin & Hk & Hc).
        exists it, k. split; [by right|done].
    + destruct HQ1 as [(k & Hk & Hc) Hd1]. split; [done|]. split; [done|]. split; [eauto|].
      exists item, k. split; [left|done].
    + split; [done|]. split; [done|]. split; [eauto|done].
Qed.

Lemma enumerate_lt {A} (l : list A) (i : nat) (x : A) :
  (i, x) ∈ enumerate l → (i < length l)%nat.
Proof.
  unfold enumerate. intros (j & i' & x' & [= -> ->] & Hi & Hx)%elem_of_lookup_zip_with.
  apply lookup_seq in Hi as [-> ?]. lia.
Qed.

End GeneratorFrame.

Section GeneratorFrameTheorem.

Lemma generator_error_exn nc ns cps rr e :
  generator_error nc ns cps rr e → e = ValueError ∨ e = OverflowError.
Proof.
  intros [(-> & _)|[(-> & _)|(n & k & _ & _ & _ & Hc)]]; [by left..|].
  unfold count_error in Hc. destruct (Float.mul _ _); [|by right|by left|];
    destruct Hc as [-> _]; by left.
Qed.

(** Steps 1 to 5, whatever their outcome.  Either the run ends there,
    starved or in the [ValueError] of an empty range or of a sample size
    that is negative or too large, and then the directory exists and holds
    what it held; or the steps succeed and hand over to step 6. *)
Lemma generator_prefix p nc ns cps rr od w o w' :
  generate_enrollment_data_v4 p nc ns cps rr od w = (o, w') →
  (match o with
   | Ok _ => False
   | Raise e =>
       e = ValueError
       ∧ ((0 < ns ∧ cps.2 < cps.1) ∨ ∃ k, cps.1 ≤ k ≤ cps.2 ∧ (k < 0 ∨ Z.max 0 nc < k))
   | Starved => True
   end
   ∧ (∃ used, tape w = used ++ tape w') ∧ stdout w' = stdout w
   ∧ dir w' = Some (initial_files w))
  ∨ ∃ ids nct cns ce wf wg,
      (NoDup ids ∧ Forall (λ x, 10000000 ≤ x ≤ 99999999) ids
       ∧ Z.of_nat (length ids) = Z.max 0 ns)
      ∧ Forall2 (λ _ k, cps.1 ≤ k ≤ cps.2) (range ns) nct
      ∧ (NoDup cns ∧ Forall (λ x, 1000 ≤ x ≤ 9999) cns
         ∧ Z.of_nat (length cns) = Z.max 0 nc)
      ∧ foldM (assign_student p nc nct cns) ((λ n, (course_code p n, [])) <$> cns)
          (enumerate ids) wf = (Ok ce, wg)
      ∧ ((∃ used, tape w = used ++ tape wg) ∧ stdout wg = stdout w
         ∧ dir wg = Some (initial_files w))
      ∧ bind (mapM (withdraw_course rr) ce) (λ withdrawals,
          bind (Os.open_write summary_name) (λ _,
            bind (Os.write summary_name ("StudentID,Courses" +:+ nl)) (λ _,
              bind (for_each ids (summarise_student ce)) (λ _,
                bind (Os.print ("Data generated and saved to: " +:+ od)) (λ _,
                  ret (Locals ids nct cns ce withdrawals)))))) wg
        = (o, w').
Proof.
  intros H. unfold generate_enrollment_data_v4, mbind, M_bind, mret, M_ret in H.
  (* the directory *)
  apply bind_cases in H as [(ex & wa & H1 & H)|[(e & H1 & _)|[H1 _]]];
    [|by unfold Os.path_exists in H1..].
  unfold Os.path_exists in H1. injection H1 as <- <-.
  assert (∃ wb, (tape wb = tape w ∧ stdout wb = stdout w ∧ dir wb = Some (initial_files w))
                ∧ (if negb (bool_decide (is_Some (dir w))) then Os.makedirs else ret tt) w
                  = (Ok tt, wb)) as (wb & (Htb & Hob & Hdb) & H2).
  { unfold initial_files.
    destruct w as [tp [fs|] out]; cbn [dir]; eexists; (split; [|reflexivity]); done. }
  rewrite (bind_step _ _ _ _ _ H2) in H. clear H2.
  assert (∀ w1, only_draws wb w1 →
            (∃ used, tape w = used ++ tape w1) ∧ stdout w1 = stdout w
            ∧ dir w1 = Some (initial_files w)) as Hstop.
  { intros w1 (Hd & Ho & u & Hu). rewrite <- Htb, Hu. split; [eauto|]. split; congruence. }
  pose proof (only_draws_refl wb) as Hacc.
  (* 1. student IDs *)
  apply bind_cases in H as [(ids0 & wc & H3 & H)|[(e & H3 & ->)|[H3 ->]]];
    destruct (distinct_randints_keeps _ _ _ _ _ _ H3) as [HR HQ];
    pose proof (only_draws_trans _ _ _ Hacc HR) as Hacc1;
    [|done|left; split; [done|by apply Hstop]].
  clear Hacc HR HQ. rename Hacc1 into Hacc.
  apply distinct_randints_Ok in H3 as (_ & Hnd0 & Hrg0 & Hlen0); [|done].
  apply bind_cases in H as [(ids & wd & H4 & H)|[(e & H4 & ->)|[H4 ->]]];
    destruct (shuffle_keeps _ _ _ _ H4) as [HR HQ];
    pose proof (only_draws_trans _ _ _ Hacc HR) as Hacc1;
    [|done|left; split; [done|by apply Hstop]].
  clear Hacc HR HQ. rename Hacc1 into Hacc.
  apply shuffle_Ok in H4 as (_ & Hperm).
  (* 2. number of courses taken *)
  apply bind_cases in H as [(nct & we & H5 & H)|[(e & H5 & ->)|[H5 ->]]];
    destruct (keeps_mapM only_draws (λ e, e = ValueError ∧ cps.2 < cps.1) True
                only_draws_refl only_draws_trans
                (λ _ k, cps.1 ≤ k ≤ cps.2)
                (λ _, Random.randint cps.1 cps.2) (range ns)
                ltac:(intros x _; apply randint_keeps)
                _ _ _ H5) as [HR HQ];
    pose proof (only_draws_trans _ _ _ Hacc HR) as Hacc1;
    [| |left; split; [done|by apply Hstop]].
  2:{ left. split; [|by apply Hstop]. destruct HQ as [-> ?]. split; [done|]. left.
      split; [|done]. destruct (Z.lt_ge_cases 0 ns) as [?|Hns]; [done|].
      unfold range in H5. rewrite seqZ_nil in H5 by lia. done. }
  clear Hacc HR H5. rename Hacc1 into Hacc.
  (* 3. course numbers *)
  apply bind_cases in H as [(cns0 & wf & H6 & H)|[(e & H6 & ->)|[H6 ->]]];
    destruct (distinct_randints_keeps _ _ _ _ _ _ H6) as [HR HQ'];
    pose proof (only_draws_trans _ _ _ Hacc HR) as Hacc1;
    [|done|left; split; [done|by apply Hstop]].
  clear Hacc HR HQ'. rename Hacc1 into Hacc.
  apply distinct_randints_Ok in H6 as (_ & Hndc & Hrgc & Hlenc); [|done].
  cbv zeta in H.
  set (cns := Py.sorted cns0) in *.
  assert (NoDup cns) as Hcns by (unfold cns; by rewrite sorted_Permutation).
  assert (Forall (λ x, 1000 ≤ x ≤ 9999) cns) as Hcrange
    by (unfold cns; by rewrite sorted_Permutation).
  assert (Forall (λ n, 0 ≤ n) cns) as Hcpos
    by (eapply Forall_impl; [exact Hcrange|]; simpl; lia).
  assert (Z.of_nat (length cns) = Z.max 0 nc) as Hclen
    by (unfold cns; by rewrite sorted_length).
  assert (length nct = length ids) as Hnlen.
  { apply Forall2_length in HQ. unfold range in HQ. rewrite length_seqZ in HQ.
    rewrite Hperm. lia. }
  pose proof (course_codes_NoDup p cns Hcns Hcpos) as Hcodes.
  rewrite (empty_enrollments p cns Hcodes) in H.
  set (d0 := (λ n, (course_code p n, ([] : list Z))) <$> cns) in *.
  assert (d0.*1 = course_code p <$> cns) as Hkeys0
    by (unfold d0; by rewrite <- list_fmap_compose).
  (* 5. enrolment *)
  apply bind_cases in H as [(ce & wg & H7 & H)|[(e & H7 & ->)|[H7 ->]]];
    destruct (keeps_foldM only_draws
                (λ e, e = ValueError ∧ ∃ k, k ∈ nct ∧ (k < 0 ∨ Z.max 0 nc < k)) True
                only_draws_refl
                only_draws_trans (λ d : dict (list Z), d.*1 = course_code p <$> cns)
                (assign_student p nc nct cns) (enumerate ids)
                ltac:(intros d [i sid] Hin Hd; eapply keeps_conseq;
                        [apply (assign_student_keeps p nc nct cns d i sid);
                           [rewrite Hnlen; by eapply enumerate_lt|done|done]
                        |done|by intros d' ->|done|done])
                d0 Hkeys0 _ _ _ H7) as [HR HQ7];
    pose proof (only_draws_trans _ _ _ Hacc HR) as Hacc1;
    [| |left; split; [done|by apply Hstop]].
  2:{ left. split; [|by apply Hstop].
      destruct HQ7 as (-> & k & Hk & Hcause). split; [done|]. right. exists k. split; [|done].
      apply list_elem_of_lookup in Hk as [i Hi].
      destruct (Forall2_lookup_r _ _ _ _ _ HQ Hi) as (x & _ & Hrange). done. }
  right. exists ids, nct, cns, ce, wf, wg.
  split; [by rewrite Hperm|]. split; [done|]. split; [done|]. split; [done|].
  split; [by apply Hstop|done].
Qed.

(** The generator, whatever its outcome. *)
Lemma generator_outcome p nc ns cps rr od w o w' :
  generate_enrollment_data_v4 p nc ns cps rr od w = (o, w') →
  (∃ used, tape w = used ++ tape w')
  ∧ (∃ fs', dir w' = Some fs'
            ∧ ∀ name, ¬ generator_file p name → fs' !! name = initial_files w !! name)
  ∧ match o with
    | Ok _ => stdout w' = stdout w ++ ["Data generated and saved to: " +:+ od]
    | Raise e =>
        generator_error nc ns cps rr e
        ∧ stdout w' = stdout w
        ∧ dir w' ≫= (.!! summary_name) = initial_files w !! summary_name
    | Starved =>
        stdout w' = stdout w
        ∧ dir w' ≫= (.!! summary_name) = initial_files w !! summary_name
    end.
Proof.
  intros H.
  destruct (generator_prefix _ _ _ _ _ _ _ _ _ H)
    as [(Hcause & Hu & Ho & Hd)|(ids & nct & cns & ce & wf & wg & (Hids & Hirange & Hilen)
          & Hnct & (Hcns & Hcrange & Hclen) & H7 & (Hu & Ho & Hdg) & Hrest)].
  { split; [done|]. split; [eauto|]. rewrite Hd. simpl.
    destruct o as [|e|]; [done| |done]. split; [|done].
    destruct Hcause as [-> [[? ?]|?]]; [by left|right; by left]. }
  clear H. rename Hrest into H.
  assert (Forall (λ n, 0 ≤ n) cns) as Hcpos
    by (eapply Forall_impl; [exact Hcrange|]; simpl; lia).
  pose proof (course_codes_NoDup p cns Hcns Hcpos) as Hcodes.
  apply (assign_loop p nc nct cns Hcns Hcpos _ []) in H7 as (_ & Hkeys & Hinv);
    [|rewrite enumerate_snd; done|intros x _; apply not_elem_of_nil
     |apply empty_enrollments_inv].
  rewrite enumerate_snd, app_nil_r in Hinv.
  rewrite <- list_fmap_compose in Hkeys. change (fst ∘ _) with (course_code p) in Hkeys.
  assert (∀ k, k ∈ ce.*1 → course_file k ≠ summary_name) as Hnames.
  { intros k Hk. rewrite Hkeys in Hk. apply list_elem_of_fmap in Hk as (n & -> & Hn).
    apply course_file_not_summary. rewrite Forall_forall in Hcpos. auto. }
  assert (∀ name, name ∈ course_file <$> ce.*1 → generator_file p name) as Hgen.
  { intros name (k & -> & Hk)%list_elem_of_fmap. rewrite Hkeys in Hk.
    apply list_elem_of_fmap in Hk as (n & -> & Hn). right. exists n. split; [|done].
    rewrite Forall_forall in Hcrange. auto. }
  assert (∀ k l, (k, l) ∈ ce → NoDup l ∧ ∀ x, x ∈ l → x ∈ ids) as Henr.
  { intros k l Hin. apply (Hinv k l). apply dict_get_elem; [by rewrite Hkeys|done]. }
  (* 6. withdrawals *)
  assert (∀ o8 w8, mapM (withdraw_course rr) ce wg = (o8, w8) →
            ((∃ used, tape w = used ++ tape w8) ∧ stdout w8 = stdout w
             ∧ ∃ fs8, dir w8 = Some fs8
                 ∧ (∀ name, ¬ generator_file p name → fs8 !! name = initial_files w !! name)
                 ∧ fs8 !! summary_name = initial_files w !! summary_name)
            ∧ match o8 with Raise e => generator_error nc ns cps rr e | _ => True end)
    as Hstep6.
  { intros o8 w8 H8.
    destruct (withdraw_all_outcome _ _ _ _ _ _ Hdg H8)
      as (Hu8 & Ho8 & (fs8 & Hd8 & Hframe8) & HQ8).
    split.
    - destruct Hu as [u Hu].
      split; [destruct Hu8 as [u8 Hu8]; exists (u ++ u8); by rewrite Hu, Hu8, app_assoc|].
      split; [congruence|]. exists fs8. split; [done|]. split.
      + intros name Hname. rewrite Hframe8; [done|].
        intros Hin. by apply Hname, Hgen.
      + rewrite Hframe8; [done|].
        intros (k & Heq & Hk)%list_elem_of_fmap. by apply (Hnames k).
    - destruct o8 as [|e|]; [done| |done].
      destruct HQ8 as ([key l] & k & Hin & Hk & Hc). right. right.
      exists (length l), k.
      destruct (Henr key l Hin) as [Hnd Hsub].
      assert (length l ≤ length ids)%nat as Hll
        by (by apply submseteq_length, NoDup_submseteq).
      pose proof (NoDup_range_length _ _ _ Hids Hirange).
      split; [lia|]. split; [lia|done]. }
  apply bind_cases in H as [(rs & wh & H8 & H)|[(e & H8 & ->)|[H8 ->]]];
    destruct (Hstep6 _ _ H8) as [(Hu8 & Ho8 & fs8 & Hd8 & Hf8 & Hs8) HQ8].
  2:{ split; [done|]. split; [eauto|]. split; [done|]. split; [done|]. by rewrite Hd8. }
  2:{ split; [done|]. split; [eauto|]. split; [done|]. by rewrite Hd8. }
  clear Hstep6.
  (* 7. the summary *)
  eapply withdraw_all_Ok in H8 as (Hsplits & Hdh & Hoh); [|exact Hdg].
  set (fsC := with_course_files (initial_files w) rs) in *.
  assert (∀ k, k ∈ ce.*1 → ∃ text r, fsC !! course_file k = Some text
                                      ∧ parse_course_text text = Some r) as Hfiles.
  { intros k Hk. destruct (split_ok_of_key _ _ _ _ Hsplits Hk) as (l & r & Hin & Hr & Hok).
    exists (course_file_text r). eexists. split.
    - rewrite <- (split_course _ _ _ Hok : w_course r = k).
      apply with_course_files_lookup; [|done].
      rewrite (split_ok_courses _ _ _ Hsplits). by rewrite Hkeys.
    - eapply course_file_reads_back; [done|]. simpl.
      apply Forall_forall. intros x Hx. apply (Henr k l Hin) in Hx.
      rewrite Forall_forall in Hirange. specialize (Hirange _ Hx). lia. }
  rewrite (bind_step _ _ _ _ _ (open_write_eq summary_name wh fsC Hdh)) in H.
  erewrite bind_step in H; [|by eapply write_eq; [|apply lookup_insert_eq]].
  erewrite bind_step in H; [|eapply (summary_loop ce ids Hnames); [done|apply lookup_insert_eq|]].
  2:{ intros k Hk. rewrite !lookup_insert_ne by (by apply not_eq_sym, Hnames). by apply Hfiles. }
  unfold Os.print in H. cbn [tape dir stdout bind ret] in H.
  unfold bind, ret in H. injection H as <- <-. cbn [tape dir stdout].
  rewrite Hdh in Hd8. injection Hd8 as <-.
  split; [done|]. split; [|congruence].
  eexists. split; [done|]. intros name Hname.
  rewrite !lookup_insert_ne by (intros <-; apply Hname; by left). by apply Hf8.
Qed.



End GeneratorFrameTheorem.

(** * Parameters on which the generator raises nothing *)

Section NoException.

Lemma uniform_value_zero_between (hi : spec_float) (k : Z) :
  representable hi = true → 0 ≤ k < 2 ^ 53 →
  between (uniform_value (S754_zero false) hi k) 0 (Float.to_Q hi) (exponent hi).
Proof.
  intros Hhi Hk.
  destruct (representable_between hi Hhi) as (Hvh & Hmh & Heh & Hb).
  pose proof (random_between k Hk) as Hu. unfold uniform_value.
  set (u := binary_normalize Float.prec Float.emax k (-53) false) in *.
  assert (Float.sub hi (S754_zero false) = hi) as -> by (by destruct hi as [| | |[] m e]).
  assert (between (Float.mul hi u) 0 (Float.to_Q hi) (exponent hi)) as Hp.
  { rewrite Hvh.
    eapply between_weaken;
      [apply (mul_between hi u _ _ 0 1 (exponent hi) 0 0 0 (mantissa hi) (exponent hi) Hb Hu);
         try done; try lia
      | | |lia].
    - rewrite Hvh. apply Zval_nonneg. lia.
    - rewrite Zval_0. lra.
    - rewrite Hvh. lra.
    - by rewrite Zval_0.
    - apply Qle_refl. }
  by destruct (Float.mul hi u) as [[]|[]| |[] m e].
Qed.

(** An admissible rate range gives rates between 0 and 1. *)
Lemma admissible_rate_between rr (k : Z) :
  rates_admissible rr = true → 0 ≤ k < 2 ^ 53 →
  ∃ E, E ≤ 971 ∧ between (uniform_value rr.1 rr.2 k) 0 1 E.
Proof.
  destruct rr as [lo hi]. unfold rates_admissible. simpl.
  intros [[Hhi Hle%Qle_bool_iff]%andb_true_iff Hlo]%andb_true_iff Hk.
  destruct (representable_between hi Hhi) as (_ & _ & Heh & _).
  assert (lo = S754_zero false
          ∨ (representable lo = true ∧ representable (Float.sub hi lo) = true
             ∧ (Float.to_Q lo + Float.to_Q (Float.sub hi lo) <= Float.to_Q hi)%Q)) as [->|Hfin].
  { destruct lo as [[]|[]| |[] m e]; try done; [by left|right].
    apply andb_true_iff in Hlo as [[? ?]%andb_true_iff ?%Qle_bool_iff]. done. }
  - exists (exponent hi). split; [lia|].
    eapply between_weaken; [by apply uniform_value_zero_between|apply Qle_refl|done|done].
  - destruct Hfin as (Hlo' & Hd & Hsum).
    destruct (representable_between lo Hlo') as (Hvl & Hml & Hel & _).
    destruct (representable_between _ Hd) as (_ & _ & Hed & _).
    eexists. split; [|eapply between_weaken;
                        [by apply uniform_value_between| |done|reflexivity]].
    + lia.
    + rewrite Hvl. apply Zval_nonneg. lia.
Qed.

(** For a rate between 0 and 1 the count is a valid sample size. *)
Lemma count_error_between (n : nat) (rate : spec_float) (E : Z) (e : exn) :
  between rate 0 1 E → E ≤ 971 → Z.of_nat n ≤ 90000000 → ¬ count_error n rate e.
Proof.
  intros Hrate HE Hn Herr. unfold count_error in Herr.
  set (N := Z.of_nat n) in *.
  assert (Zval N 0 == inject_Z N)%Q as HvN by (unfold Zval; simpl; ring).
  assert (0 <= inject_Z N)%Q as HN0
    by (change 0%Q with (inject_Z 0); rewrite <- Zle_Qle; lia).
  assert (between (Float.mul (Float.of_int N) rate) (Zval 0 0) (Zval N 0) (Z.max (0 + E) 0))
    as Hb.
  { apply (mul_between (Float.of_int N) rate (inject_Z N) (inject_Z N) 0 1 0 E);
      try done; try lia.
    - apply of_int_between. lia.
    - rewrite Zval_0. lra.
    - rewrite HvN. lra. }
  destruct (Float.mul (Float.of_int N) rate) as [[]|[]| |[] m ex]; try done.
  - destruct Herr as (_ & c & [= <-] & Hc). lia.
  - destruct Herr as (_ & c & [= <-] & Hc). destruct Hb as (_ & Hlo & Hhi).
    simpl in Hc. rewrite <- to_Q_floor in Hc.
    change (inject_Z (Z.pos m) * 2 ^ ex)%Q with (Zval (Z.pos m) ex) in Hc.
    rewrite Zval_0 in Hlo. rewrite HvN in Hhi.
    apply Qfloor_resp_le in Hlo, Hhi. rewrite Qfloor_Z in Hhi.
    change (Qfloor 0) with 0 in Hlo. lia.
Qed.



End NoException.

Section InvalidCourseRange.



End InvalidCourseRange.
